(** * Qode_Q: the X scraper (src/scraper.py), embedded and verified

    The development follows the layout of [Scraper]:
    - Python values and exceptions ([outcome], [exn]);
    - text primitives used by the parser (strip, replace, the regular
      expressions of the source written out as functions);
    - binary64 arithmetic, exact, for [float(...)], [num * 1000], [int(...)];
    - [_shorthand_to_int], [_parse_count_from_text];
    - the parsed document and [parse_html_to_df];
    - the fingerprint loop [ensure_min_tweets_loaded];
    - [grab_entire_div_html];
    - [close] and [run], with the aggregation step of [run];
    - the navigation scripts [login], [click_explore], [search_hashtag]
      and [click_latest_tab];
    - of the dashboard (src/dashboard.py), [parse_hashtags] and
      [calculate_sentiment_score].

    A character is a code point below 256 ([ascii]); the character classes
    of the source ([\d], [\s], [str.strip], ignoring case) are the ones of
    Python on that range. *)

From Stdlib Require Import ZArith QArith List Ascii String Bool Lia DecimalString.
From stdpp Require Import base gmap strings list.

Set Warnings "-register-all,-clear-no-such-hyp".

(** ** Python results *)

Inductive exn : Type :=
  | ValueError
  | OverflowError
  | FileNotFoundError
  | TimeoutException
  | WebDriverException.

Inductive outcome (A : Type) : Type :=
  | Returned (a : A)
  | Raised (e : exn).
Arguments Returned {A} a.
Arguments Raised {A} e.

Definition bind {A B : Type} (m : outcome A) (k : A -> outcome B) : outcome B :=
  match m with
  | Returned a => k a
  | Raised e => Raised e
  end.

(** [try: m except Exception: h] *)
Definition try_except {A : Type} (m : outcome A) (h : exn -> outcome A) : outcome A :=
  match m with
  | Returned a => Returned a
  | Raised e => h e
  end.

Definition returns {A : Type} (m : outcome A) : Prop :=
  exists a, m = Returned a.

(** ** Text primitives *)

Module Text.

Definition is_digit (c : ascii) : bool :=
  let n := nat_of_ascii c in (48 <=? n)%nat && (n <=? 57)%nat.

(** [str.isspace] on one character, which is also what [str.strip]
    removes and what the class [\s] of [re] matches in a [str] pattern. *)
Definition is_space (c : ascii) : bool :=
  let n := nat_of_ascii c in
  ((9 <=? n)%nat && (n <=? 13)%nat) || ((28 <=? n)%nat && (n <=? 32)%nat)
  || (n =? 133)%nat || (n =? 160)%nat.

Definition is_upper (c : ascii) : bool :=
  let n := nat_of_ascii c in (65 <=? n)%nat && (n <=? 90)%nat.

(** Lower case of the ASCII letters, which is all that the suffix and the
    patterns matched without regard to case depend on. *)
Definition lower_char (c : ascii) : ascii :=
  if is_upper c then ascii_of_nat (nat_of_ascii c + 32) else c.

Fixpoint lower (s : string) : string :=
  match s with
  | EmptyString => EmptyString
  | String c r => String (lower_char c) (lower r)
  end.

Definition is_empty (s : string) : bool :=
  match s with EmptyString => true | _ => false end.

Fixpoint filter (p : ascii -> bool) (s : string) : string :=
  match s with
  | EmptyString => EmptyString
  | String c r => if p c then String c (filter p r) else filter p r
  end.

Fixpoint forallb (p : ascii -> bool) (s : string) : bool :=
  match s with
  | EmptyString => true
  | String c r => p c && forallb p r
  end.

(** Longest prefix whose characters satisfy [p], and the rest. *)
Fixpoint span (p : ascii -> bool) (s : string) : string * string :=
  match s with
  | EmptyString => (EmptyString, EmptyString)
  | String c r =>
      if p c then let '(a, b) := span p r in (String c a, b)
      else (EmptyString, s)
  end.

Fixpoint lstrip_by (p : ascii -> bool) (s : string) : string :=
  match s with
  | EmptyString => EmptyString
  | String c r => if p c then lstrip_by p r else s
  end.

Fixpoint rstrip_by (p : ascii -> bool) (s : string) : string :=
  match s with
  | EmptyString => EmptyString
  | String c r =>
      let r' := rstrip_by p r in
      if p c && is_empty r' then EmptyString else String c r'
  end.

(** [s.strip()] *)
Definition strip (s : string) : string := lstrip_by is_space (rstrip_by is_space s).

Definition is_char (a : ascii) (c : ascii) : bool := Ascii.eqb a c.

(** [s.replace(',', '')] *)
Definition remove_char (a : ascii) (s : string) : string :=
  filter (fun c => negb (is_char a c)) s.

Fixpoint starts_with (p s : string) : bool :=
  match p, s with
  | EmptyString, _ => true
  | String a p', String b s' => Ascii.eqb a b && starts_with p' s'
  | String _ _, EmptyString => false
  end.

(** [p in s] *)
Fixpoint contains (p s : string) : bool :=
  starts_with p s ||
  match s with
  | EmptyString => false
  | String _ r => contains p r
  end.

Fixpoint drop (n : nat) (s : string) : string :=
  match n, s with
  | O, _ => s
  | S n', String _ r => drop n' r
  | S _, EmptyString => EmptyString
  end.

(** [sep.join(parts)] *)
Fixpoint join (sep : string) (parts : list string) : string :=
  match parts with
  | [] => EmptyString
  | [p] => p
  | p :: rest => p +:+ sep +:+ join sep rest
  end.

(** [s.split(sep)] for a non-empty [sep]: the first piece and the others.
    [skip] counts the characters of a separator still to pass over. *)
Fixpoint split_go (sep : string) (skip : nat) (s : string) : string * list string :=
  match s with
  | EmptyString => (EmptyString, [])
  | String c r =>
      match skip with
      | S k => split_go sep k r
      | O =>
          if starts_with sep s
          then (EmptyString,
                let '(p, ps) := split_go sep (String.length sep - 1) r in p :: ps)
          else let '(p, ps) := split_go sep 0 r in (String c p, ps)
      end
  end.

Definition split (sep s : string) : list string :=
  let '(p, ps) := split_go sep 0 s in p :: ps.

(** [s.split(sep)[-1]] *)
Definition split_last (sep s : string) : string :=
  List.last (split sep s) EmptyString.

(** [s.split(sep)[0]] *)
Definition split_first (sep s : string) : string :=
  List.hd EmptyString (split sep s).

(** [s.count(sub)] for a non-empty [sub]: occurrences that do not overlap. *)
Definition count (sub s : string) : nat := List.length (split sub s) - 1.

Definition digit_val (c : ascii) : Z := Z.of_nat (nat_of_ascii c) - 48.

(** Value of a string of decimal digits, most significant first. *)
Fixpoint digits_val_acc (acc : Z) (s : string) : Z :=
  match s with
  | EmptyString => acc
  | String c r => digits_val_acc (10 * acc + digit_val c) r
  end.

Definition digits_val (s : string) : Z := digits_val_acc 0 s.

End Text.

(** ** binary64, exactly

    Only non-negative values occur.  A finite value is [m * 2^e]; the
    rounding is to nearest, ties to even, with 53 bits of precision, the
    least exponent -1074 and overflow to infinity from [2^1024]. *)

Module Float.
Local Open Scope Z_scope.

Inductive float : Type :=
  | Finite (m : Z) (e : Z)
  | Infinity.

Definition pow2 (e : Z) : Z := 2 ^ Z.max 0 e.

(** Nearest integer to [n / d], ties to even ([0 <= n], [0 < d]). *)
Definition rne_div (n d : Z) : Z :=
  let q := n / d in
  let r := n mod d in
  if 2 * r <? d then q
  else if d <? 2 * r then q + 1
  else if Z.even q then q else q + 1.

(** [floor (log2 (p / q))] for [0 < p], [0 < q]. *)
Definition ilog2_ratio (p q : Z) : Z :=
  let l := Z.log2 p - Z.log2 q in
  if q * pow2 l <=? p * pow2 (- l) then l else l - 1.

(** The binary64 nearest to the rational [p / q]. *)
Definition round (p q : Z) : float :=
  if p =? 0 then Finite 0 0
  else
    let e := Z.max (ilog2_ratio p q - 52) (-1074) in
    let m := rne_div (p * pow2 (- e)) (q * pow2 e) in
    if 2 ^ 1024 <=? m * pow2 e then Infinity else Finite m e.

(** [x * k] for an integer [k] that binary64 holds exactly. *)
Definition mul_int (x : float) (k : Z) : float :=
  match x with
  | Finite m e => round (m * k * pow2 e) (pow2 (- e))
  | Infinity => Infinity
  end.

(** [int(x)]: truncation; [int(inf)] raises [OverflowError]. *)
Definition to_int (x : float) : outcome Z :=
  match x with
  | Finite m e => Returned (m * pow2 e / pow2 (- e))
  | Infinity => Raised OverflowError
  end.

(** [float(s)] for [s] over the digits and the dot, which is all the
    call site passes (group 1 of the pattern [[\d\.]+]): a literal needs
    at least one digit and at most one dot. *)
Definition of_string (s : string) : outcome float :=
  let '(ip, rest) := Text.span Text.is_digit s in
  match rest with
  | EmptyString =>
      if Text.is_empty ip then Raised ValueError
      else Returned (round (Text.digits_val ip) 1)
  | String c fp =>
      if Text.is_char "." c && Text.forallb Text.is_digit fp
         && negb (Text.is_empty ip && Text.is_empty fp)
      then Returned (round (Text.digits_val (ip +:+ fp))
                           (10 ^ Z.of_nat (String.length fp)))
      else Raised ValueError
  end.

End Float.

(** ** The Shorthand Numeric Parser *)

Module Shorthand.
Local Open Scope Z_scope.

Definition is_num_char (c : ascii) : bool := Text.is_digit c || Text.is_char "." c.

Definition is_suffix_char (c : ascii) : bool :=
  Text.is_char "k" c || Text.is_char "K" c || Text.is_char "m" c || Text.is_char "M" c.

Definition newline : ascii := "010"%char.

(** [re.match(r"^([\d\.]+)\s*([kKmM]?)$", s)]: groups 1 and 2.
    [$] also matches just before a final newline. *)
Definition match_shorthand (s : string) : option (string * string) :=
  let '(num, rest) := Text.span is_num_char s in
  if Text.is_empty num then None
  else
    match Text.lstrip_by Text.is_space rest with
    | EmptyString => Some (num, EmptyString)
    | String c EmptyString =>
        if is_suffix_char c then Some (num, String c EmptyString) else None
    | String c (String n EmptyString) =>
        if is_suffix_char c && Text.is_char newline n
        then Some (num, String c EmptyString) else None
    | _ => None
    end.

(** The number of digits that [int] converts at most
    ([sys.get_int_max_str_digits()], leading zeros counted). *)
Definition int_max_str_digits : nat := 4300.

(** [int(t)] for [t] made of digits only: [ValueError] on the empty
    string and on more digits than the interpreter converts. *)
Definition int_of_digits (t : string) : outcome Z :=
  if Text.is_empty t then Raised ValueError
  else if (int_max_str_digits <? String.length t)%nat then Raised ValueError
  else Returned (Text.digits_val t).

Definition _shorthand_to_int (s : string) : outcome (option Z) :=
  if Text.is_empty s then Returned None
  else
    let s := Text.strip (Text.remove_char "," s) in
    match match_shorthand s with
    | None =>
        try_except
          (bind (int_of_digits (Text.filter Text.is_digit s))
                (fun n => Returned (Some n)))
          (fun _ => Returned None)
    | Some (g1, g2) =>
        bind (Float.of_string g1) (fun num =>
        let suf := Text.lower g2 in
        if String.eqb suf "k" then
          bind (Float.to_int (Float.mul_int num 1000)) (fun n => Returned (Some n))
        else if String.eqb suf "m" then
          bind (Float.to_int (Float.mul_int num 1000000)) (fun n => Returned (Some n))
        else
          bind (Float.to_int num) (fun n => Returned (Some n)))
    end.

Definition is_count_char (c : ascii) : bool :=
  Text.is_digit c || Text.is_char "," c || Text.is_char "." c.

(** Group 1 of [([\d,.]+[kKmM]?)] matched at the head of [s]. *)
Definition count_token_here (s : string) : option string :=
  let '(run, rest) := Text.span is_count_char s in
  if Text.is_empty run then None
  else
    match rest with
    | String c _ => if is_suffix_char c then Some (run +:+ String c EmptyString) else Some run
    | EmptyString => Some run
    end.

(** [re.search(r"([\d,.]+[kKmM]?)", text)]: leftmost match, group 1. *)
Fixpoint search_count_token (text : string) : option string :=
  match count_token_here text with
  | Some g => Some g
  | None =>
      match text with
      | EmptyString => None
      | String _ r => search_count_token r
      end
  end.

Definition _parse_count_from_text (text : string) : outcome (option Z) :=
  if Text.is_empty text then Returned None
  else
    match search_count_token text with
    | Some g => _shorthand_to_int g
    | None => Returned None
    end.

End Shorthand.

(** ** The parsed document

    [BeautifulSoup(html, "lxml")] is the library's parser; the extractor is
    modelled from the parsed tree on.  An element carries its tag and its
    attributes; a located element also carries its ancestors, nearest
    first, because [find_parent] and the descendant combinator of
    [select_one] look above the element they start from. *)

Module Dom.

Definition attrs := list (string * string).

Inductive node : Type :=
  | Elem (tag : string) (a : attrs) (children : list node)
  | Txt (s : string).

Definition hdr : Type := string * attrs.

Record loc : Type := Loc { ancestors : list hdr; here : node }.

(** [el.get(name)] *)
Fixpoint get (name : string) (a : attrs) : option string :=
  match a with
  | [] => None
  | (k, v) :: rest => if String.eqb k name then Some v else get name rest
  end.

(** [el.get(name, '')] *)
Definition get_or_empty (name : string) (a : attrs) : string :=
  match get name a with Some v => v | None => EmptyString end.

Definition tag_of (n : node) : string :=
  match n with Elem t _ _ => t | Txt _ => EmptyString end.

Definition attrs_of (n : node) : attrs :=
  match n with Elem _ a _ => a | Txt _ => [] end.

Definition children_of (n : node) : list node :=
  match n with Elem _ _ cs => cs | Txt _ => [] end.

(** The element itself and the elements below it, in document order. *)
Fixpoint walk (anc : list hdr) (n : node) : list loc :=
  match n with
  | Txt _ => []
  | Elem t a cs =>
      Loc anc n ::
      (fix walk_all (l : list node) : list loc :=
         match l with
         | [] => []
         | c :: l' => walk ((t, a) :: anc) c ++ walk_all l'
         end) cs
  end.

Definition walk_forest (anc : list hdr) (l : list node) : list loc :=
  flat_map (walk anc) l.

(** The elements strictly below a located element. *)
Definition descendants (x : loc) : list loc :=
  match here x with
  | Txt _ => []
  | Elem t a cs => walk_forest ((t, a) :: ancestors x) cs
  end.

(** The text strings below a node, in document order.  (Comments and
    the contents of scripts, which [get_text] passes over, are not part
    of the tree.) *)
Fixpoint strings (n : node) : list string :=
  match n with
  | Txt s => [s]
  | Elem _ _ cs =>
      (fix strings_all (l : list node) : list string :=
         match l with
         | [] => []
         | c :: l' => strings c ++ strings_all l'
         end) cs
  end.

(** [el.get_text(sep, strip=True)]: every string stripped, the empty
    ones dropped, the rest joined by [sep]. *)
Definition get_text (sep : string) (n : node) : string :=
  Text.join sep
    (List.filter (fun s => negb (Text.is_empty s)) (List.map Text.strip (strings n))).

Definition has_tag (t : string) (x : loc) : bool := String.eqb (tag_of (here x)) t.

Definition has_attr (name : string) (x : loc) : bool :=
  match get name (attrs_of (here x)) with Some _ => true | None => false end.

Definition attr_is (name value : string) (x : loc) : bool :=
  match get name (attrs_of (here x)) with
  | Some v => String.eqb v value
  | None => false
  end.

(** [el.find(...)]: the first element below [el] that satisfies [p]. *)
Definition find (p : loc -> bool) (x : loc) : option loc :=
  List.find p (descendants x).

(** [el.find_all(...)] *)
Definition find_all (p : loc -> bool) (x : loc) : list loc :=
  List.filter p (descendants x).

(** [el.find_parent("a", href=True)] *)
Definition find_parent_a_href (x : loc) : option hdr :=
  List.find
    (fun h : hdr =>
       String.eqb (fst h) "a" &&
       match get "href" (snd h) with Some _ => true | None => false end)
    (ancestors x).

(** The selector [div[role="group"] [data-testid="<id>"]]: an element
    with that test id below some [div] of role [group]; the [div] may be
    any ancestor, also one above the element the selection starts from. *)
Definition in_action_group (testid : string) (x : loc) : bool :=
  attr_is "data-testid" testid x &&
  List.existsb
    (fun h : hdr =>
       String.eqb (fst h) "div" &&
       match get "role" (snd h) with Some v => String.eqb v "group" | None => false end)
    (ancestors x).

End Dom.

(** ** The Record Extractor *)

Module Extractor.
Import Dom.

Record record : Type := Record_ {
  tweet_id : option string;
  display_name : option string;
  handle : option string;
  username : option string;
  timestamp_iso : option string;
  timestamp_relative : option string;
  content : option string;
  hashtags : list string;
  mentions : list string;
  reply_count : option Z;
  retweet_count : option Z;
  like_count : option Z;
  view_count : option Z
}.

(** [list(dict.fromkeys(l))]: first occurrences, in order. *)
Fixpoint dedup_from (seen : list string) (l : list string) : list string :=
  match l with
  | [] => []
  | x :: l' =>
      if List.existsb (String.eqb x) seen then dedup_from seen l'
      else x :: dedup_from (x :: seen) l'
  end.

Definition dedup (l : list string) : list string := dedup_from [] l.

Definition truthy (o : option string) : bool :=
  match o with Some s => negb (Text.is_empty s) | None => false end.

(** [re.match(r"^/[^/]+$", href)] *)
Definition is_single_segment (href : string) : bool :=
  match href with
  | String c rest =>
      Text.is_char "/" c && negb (Text.is_empty rest)
      && Text.forallb (fun d => negb (Text.is_char "/" d)) rest
  | EmptyString => false
  end.

(** The identity block: handle, display name, username. *)
Definition user_fields (tb : loc) : option string * option string * option string :=
  match find (attr_is "data-testid" "User-Name") tb with
  | Some user_block =>
      let '(h, d) :=
        match find (has_tag "a") user_block with
        | Some a =>
            let href := get_or_empty "href" (attrs_of (here a)) in
            let h :=
              if Text.is_empty href then None
              else Some (Text.split_last "/" (Text.rstrip_by (Text.is_char "/") href)) in
            let d :=
              match find (has_tag "span") a with
              | Some span => Some (get_text EmptyString (here span))
              | None => None
              end in
            (h, d)
        | None => (None, None)
        end in
      (h, d, if truthy h then h else None)
  | None => (None, None, None)
  end.

(** The time element: two timestamps and the item id. *)
Definition time_fields (tb : loc) : option string * option string * option string :=
  match find (has_tag "time") tb with
  | Some time_tag =>
      let iso := get "datetime" (attrs_of (here time_tag)) in
      let rel := Some (get_text EmptyString (here time_tag)) in
      let tid :=
        match find_parent_a_href time_tag with
        | Some parent_a =>
            let href := get_or_empty "href" (snd parent_a) in
            if Text.contains "/status/" href
            then Some (Text.split_first "?" (Text.split_last "/status/" href))
            else None
        | None => None
        end in
      (iso, rel, tid)
  | None => (None, None, None)
  end.

(** One link of the content block, appended to the two lists. *)
Definition classify_link (acc : list string * list string) (t : loc)
  : list string * list string :=
  let '(hs, ms) := acc in
  let href := get_or_empty "href" (attrs_of (here t)) in
  let txt := get_text EmptyString (here t) in
  if Text.starts_with "/hashtag/" href || Text.starts_with "#" txt then (hs ++ [txt], ms)
  else if Text.starts_with "@" txt then (hs, ms ++ [txt])
  else if is_single_segment href && negb (Text.starts_with "/hashtag" href)
  then (hs, ms ++ ["@" +:+ Text.lstrip_by (Text.is_char "/") href])
  else (hs, ms).

(** The content block: content, hashtags, mentions. *)
Definition content_fields (tb : loc) : option string * list string * list string :=
  match find (attr_is "data-testid" "tweetText") tb with
  | Some content_el =>
      let tags := find_all (fun t => has_tag "a" t && has_attr "href" t) content_el in
      let '(hs, ms) := List.fold_left classify_link tags ([], []) in
      (Some (get_text " " (here content_el)), dedup hs, dedup ms)
  | None => (Some (get_text " " (here tb)), [], [])
  end.

(** One engagement control, inside its [try]. *)
Definition action_count (testid : string) (tb : loc) : outcome (option Z) :=
  try_except
    (match List.find (in_action_group testid) (descendants tb) with
     | Some btn => Shorthand._parse_count_from_text (get_text " " (here btn))
     | None => Returned None
     end)
    (fun _ => Returned None).

(** [re.compile(r"view", re.I).search(label)] *)
Definition label_matches_view (x : loc) : bool :=
  match get "aria-label" (attrs_of (here x)) with
  | Some v => Text.contains "view" (Text.lower v)
  | None => false
  end.

(** Group 1 of [([\d,.]+[kKmM]?)\s*views?] (ignoring case) at the head of [s]. *)
Definition views_token_here (s : string) : option string :=
  let '(run, rest) := Text.span Shorthand.is_count_char s in
  if Text.is_empty run then None
  else
    let '(g, rest') :=
      match rest with
      | String c r =>
          if Shorthand.is_suffix_char c then (run +:+ String c EmptyString, r)
          else (run, rest)
      | EmptyString => (run, rest)
      end in
    if Text.starts_with "view" (Text.lower (Text.lstrip_by Text.is_space rest'))
    then Some g else None.

(** [re.search(r"([\d,.]+[kKmM]?)\s*views?", text, re.I)]: group 1. *)
Fixpoint search_views_token (text : string) : option string :=
  match views_token_here text with
  | Some g => Some g
  | None =>
      match text with
      | EmptyString => None
      | String _ r => search_views_token r
      end
  end.

(** The view count, inside its [try]; [None] is the value the record starts with. *)
Definition view_count_of (tb : loc) : outcome (option Z) :=
  try_except
    (match find label_matches_view tb with
     | Some view_elem =>
         let vtxt :=
           if truthy (get "aria-label" (attrs_of (here view_elem)))
           then get_or_empty "aria-label" (attrs_of (here view_elem))
           else get_text " " (here view_elem) in
         Shorthand._parse_count_from_text vtxt
     | None =>
         match search_views_token (get_text " " (here tb)) with
         | Some g => Shorthand._shorthand_to_int g
         | None => Returned None
         end
     end)
    (fun _ => Returned None).

(** The body of the loop over the item blocks. *)
Definition extract_record (tb : loc) : outcome record :=
  let '(h, d, u) := user_fields tb in
  let '(iso, rel, tid) := time_fields tb in
  let '(c, hs, ms) := content_fields tb in
  bind (action_count "reply" tb) (fun rc =>
  bind (action_count "retweet" tb) (fun rt =>
  bind (action_count "like" tb) (fun lk =>
  bind (view_count_of tb) (fun vc =>
  Returned
    {| tweet_id := tid; display_name := d; handle := h; username := u;
       timestamp_iso := iso; timestamp_relative := rel;
       content := c; hashtags := hs; mentions := ms;
       reply_count := rc; retweet_count := rt; like_count := lk;
       view_count := vc |})))).

(** The item blocks: the primary selector, else every [div] that holds
    both a [time] element and a content block. *)
Definition tweet_blocks (soup : list node) : list loc :=
  let all := walk_forest [] soup in
  match List.filter (attr_is "data-testid" "tweet") all with
  | [] =>
      List.filter
        (fun div =>
           has_tag "div" div
           && match find (has_tag "time") div with Some _ => true | None => false end
           && match find (attr_is "data-testid" "tweetText") div with
              | Some _ => true | None => false end)
        all
  | blocks => blocks
  end.

Fixpoint map_m {A B : Type} (f : A -> outcome B) (l : list A) : outcome (list B) :=
  match l with
  | [] => Returned []
  | x :: l' => bind (f x) (fun y => bind (map_m f l') (fun ys => Returned (y :: ys)))
  end.

(** The rows handed to [pd.DataFrame]. *)
Definition parse_html_to_df (soup : list node) : outcome (list record) :=
  map_m extract_record (tweet_blocks soup).

End Extractor.

(** ** SHA-1, for the fallback fingerprint *)

Module Sha1.
Local Open Scope Z_scope.

(** [s.encode("utf-8", errors="ignore")] for characters below 256: one
    byte below 128, two bytes from there on. *)
Fixpoint utf8 (s : string) : list Z :=
  match s with
  | EmptyString => []
  | String c r =>
      let n := Z.of_nat (nat_of_ascii c) in
      if n <? 128 then n :: utf8 r
      else Z.lor 192 (Z.shiftr n 6) :: Z.lor 128 (Z.land n 63) :: utf8 r
  end.

Definition mask32 (x : Z) : Z := Z.land x 0xFFFFFFFF.

Definition rotl (n x : Z) : Z :=
  mask32 (Z.lor (Z.shiftl x n) (Z.shiftr x (32 - n))).

(** The bytes of [x], most significant first, [n] of them. *)
Fixpoint be_bytes (n : nat) (x : Z) : list Z :=
  match n with
  | O => []
  | S n' => Z.land (Z.shiftr x (8 * Z.of_nat n')) 255 :: be_bytes n' x
  end.

(** The message, a [1] bit, zeros up to 56 modulo 64, and the length in bits. *)
Definition pad (msg : list Z) : list Z :=
  let len := Z.of_nat (List.length msg) in
  let zeros := Z.to_nat ((55 - len) mod 64) in
  msg ++ [128] ++ List.repeat 0 zeros ++ be_bytes 8 (8 * len).

Fixpoint words (bytes : list Z) : list Z :=
  match bytes with
  | a :: b :: c :: d :: rest =>
      (Z.shiftl a 24 + Z.shiftl b 16 + Z.shiftl c 8 + d) :: words rest
  | _ => []
  end.

(** The message schedule, latest word first. *)
Fixpoint extend (n : nat) (rw : list Z) : list Z :=
  match n with
  | O => rw
  | S n' =>
      let w :=
        rotl 1 (Z.lxor (Z.lxor (List.nth 2 rw 0) (List.nth 7 rw 0))
                       (Z.lxor (List.nth 13 rw 0) (List.nth 15 rw 0))) in
      extend n' (w :: rw)
  end.

Definition schedule (block : list Z) : list Z :=
  List.rev (extend 64 (List.rev block)).

Definition hstate : Type := Z * Z * Z * Z * Z.

Definition round (t : nat) (st : hstate) (w : Z) : hstate :=
  let '(a, b, c, d, e) := st in
  let '(f, k) :=
    if (t <? 20)%nat
    then (Z.lor (Z.land b c) (Z.land (Z.lxor b 0xFFFFFFFF) d), 0x5A827999)
    else if (t <? 40)%nat
    then (Z.lxor (Z.lxor b c) d, 0x6ED9EBA1)
    else if (t <? 60)%nat
    then (Z.lor (Z.lor (Z.land b c) (Z.land b d)) (Z.land c d), 0x8F1BBCDC)
    else (Z.lxor (Z.lxor b c) d, 0xCA62C1D6) in
  (mask32 (rotl 5 a + f + e + k + w), a, rotl 30 b, c, d).

Fixpoint rounds (t : nat) (st : hstate) (ws : list Z) : hstate :=
  match ws with
  | [] => st
  | w :: rest => rounds (S t) (round t st w) rest
  end.

Definition compress (h : hstate) (block : list Z) : hstate :=
  let '(h0, h1, h2, h3, h4) := h in
  let '(a, b, c, d, e) := rounds 0 h (schedule block) in
  (mask32 (h0 + a), mask32 (h1 + b), mask32 (h2 + c), mask32 (h3 + d), mask32 (h4 + e)).

(** The blocks of sixteen words; [n] bounds their number. *)
Fixpoint blocks (n : nat) (ws : list Z) (h : hstate) : hstate :=
  match n, ws with
  | S n', _ :: _ => blocks n' (List.skipn 16 ws) (compress h (List.firstn 16 ws))
  | _, _ => h
  end.

Definition initial : hstate :=
  (0x67452301, 0xEFCDAB89, 0x98BADCFE, 0x10325476, 0xC3D2E1F0).

Definition hex_digit (x : Z) : ascii :=
  if x <? 10 then ascii_of_nat (Z.to_nat (48 + x))
  else ascii_of_nat (Z.to_nat (87 + x)).

Fixpoint hex_of_bytes (bs : list Z) : string :=
  match bs with
  | [] => EmptyString
  | b :: rest =>
      String (hex_digit (Z.shiftr b 4)) (String (hex_digit (Z.land b 15)) (hex_of_bytes rest))
  end.

(** [hashlib.sha1(data).hexdigest()] *)
Definition hexdigest (data : list Z) : string :=
  let ws := words (pad data) in
  let '(a, b, c, d, e) := blocks (List.length ws) ws initial in
  hex_of_bytes (be_bytes 4 a ++ be_bytes 4 b ++ be_bytes 4 c ++ be_bytes 4 d ++ be_bytes 4 e).

End Sha1.

(** ** The Incremental Collector and its Fingerprint Resolver *)

Module Collector.

(** What the driver answers for one rendered element:
    [el.get_attribute("outerHTML")], and the [href] of the first link
    found by [el.find_element(By.XPATH, './/a[contains(@href, "/status/")]')]
    (a lookup that raises when there is no such link). *)
Record element : Type := Element {
  outer_html : outcome (option string);
  status_link_href : outcome (option string)
}.

Definition or_empty (o : option string) : string :=
  match o with Some s => s | None => EmptyString end.

(** Group 1 of [/status/(\d+)] matched at the head of [s]. *)
Definition status_here (s : string) : option string :=
  if Text.starts_with "/status/" s
  then
    let '(d, _) := Text.span Text.is_digit (Text.drop 8 s) in
    if Text.is_empty d then None else Some d
  else None.

(** [re.search(r"/status/(\d+)", s)]: leftmost match, group 1. *)
Fixpoint search_status (s : string) : option string :=
  match status_here s with
  | Some d => Some d
  | None =>
      match s with
      | EmptyString => None
      | String _ r => search_status r
      end
  end.

(** [hashlib.sha1()], [update(html.encode("utf-8", errors="ignore"))], [hexdigest()] *)
Definition sha1_hexdigest (html : string) : string :=
  Sha1.hexdigest (Sha1.utf8 html).

(** The body of the [try] of the loop over the elements: the value
    handed to [seen.add]. *)
Definition fingerprint (el : element) : outcome string :=
  bind (outer_html el) (fun o =>
  let html := or_empty o in
  bind
    (match search_status html with
     | Some d => Returned (Some d)
     | None =>
         try_except
           (bind (status_link_href el) (fun h =>
              Returned (search_status (or_empty h))))
           (fun _ => Returned None)
     end)
    (fun tweet_id =>
       match tweet_id with
       | Some t =>
           if Text.is_empty t then Returned ("sha1-" +:+ sha1_hexdigest html)
           else Returned t
       | None => Returned ("sha1-" +:+ sha1_hexdigest html)
       end)).

(** [for el in elems]: an element whose fingerprinting raises is skipped. *)
Definition add_all (elems : list element) (seen : gset string) : gset string :=
  List.fold_left
    (fun acc el =>
       match fingerprint el with
       | Returned fp => {[ fp ]} ∪ acc
       | Raised _ => acc
       end)
    elems seen.

(** [time.sleep(pause)]: a negative length raises [ValueError]. *)
Definition sleep (pause : Q) : outcome unit :=
  if Qle_bool 0 pause then Returned tt else Raised ValueError.

(** One line of the trace per round: the count the round logs and the
    stall counter it leaves ([stable_rounds]; a round that returns on
    the target leaves it as it found it). *)
Record round_log : Type := RoundLog { count : nat; stall : nat }.

Section Loop.

(** [source i] is what [driver.find_elements] answers in round [i];
    the scroll at the end of a round, whose failures the loop swallows,
    acts only through it. *)
Variable source : nat -> list element.
Variable min_count : Z.
Variable pause : Q.

(** The [while] loop; [fuel] is [max_scrolls - scrolls]. *)
Fixpoint loop (fuel : nat) (scrolls : nat) (seen : gset string)
         (stable_rounds last_seen_count : nat)
  : list round_log * outcome nat :=
  match fuel with
  | O => ([], Returned (size seen))
  | S fuel' =>
      let seen := add_all (source scrolls) seen in
      let current_count := size seen in
      if (min_count <=? Z.of_nat current_count)%Z
      then ([RoundLog current_count stable_rounds], Returned current_count)
      else
        let stable_rounds :=
          if (current_count <=? last_seen_count)%nat
          then S stable_rounds else O in
        let last_seen_count := current_count in
        if (6 <=? stable_rounds)%nat
        then ([RoundLog current_count stable_rounds], Returned (size seen))
        else
          match sleep pause with
          | Raised e => ([RoundLog current_count stable_rounds], Raised e)
          | Returned _ =>
              let '(log, r) :=
                loop fuel' (S scrolls) seen stable_rounds last_seen_count in
              (RoundLog current_count stable_rounds :: log, r)
          end
  end.

Definition collect (max_scrolls : Z) : list round_log * outcome nat :=
  loop (Z.to_nat max_scrolls) 0 ∅ 0 0.

Definition ensure_min_tweets_loaded (max_scrolls : Z) : outcome nat :=
  snd (collect max_scrolls).

(** The fingerprints of rounds [0 .. i], and their number. *)
Fixpoint seen_upto (i : nat) : gset string :=
  match i with
  | O => add_all (source 0) ∅
  | S j => add_all (source i) (seen_upto j)
  end.

Definition cumulative (i : nat) : nat := size (seen_upto i).

End Loop.

End Collector.

(** ** Container Capture *)

Module Capture.
Import Collector.

Definition dq : string := String (ascii_of_nat 34) EmptyString.

Definition selectors : list string :=
  [ "div.css-175oi2r.r-f8sm7e.r-13qz1uu.r-1ye8kvj";
    "div[data-testid=" +:+ dq +:+ "primaryColumn" +:+ dq
      +:+ "] div[data-testid=" +:+ dq +:+ "timeline" +:+ dq +:+ "]";
    "div[role=" +:+ dq +:+ "feed" +:+ dq +:+ "]";
    "div[aria-label*=" +:+ dq +:+ "Timeline" +:+ dq +:+ "]" ].

(** What the driver answers: for a container selector, the wait for the
    element followed by [get_attribute("outerHTML")] (either may raise);
    and the elements that [find_elements] enumerates. *)
Record page : Type := Page {
  container : string -> outcome (option string);
  tweets : list element
}.

(** [outer and len(outer) > 50] *)
Definition acceptable (outer : option string) : bool :=
  match outer with
  | Some o => negb (Text.is_empty o) && (50 <? String.length o)%nat
  | None => false
  end.

(** The loop over the selectors: the first acceptable capture. *)
Fixpoint first_capture (pg : page) (sels : list string) : option (string * string) :=
  match sels with
  | [] => None
  | sel :: rest =>
      match container pg sel with
      | Returned outer =>
          if acceptable outer then Some (sel, or_empty outer)
          else first_capture pg rest
      | Raised _ => first_capture pg rest
      end
  end.

Definition article_count (html : string) : nat := Text.count "<article" html.

(** The condition of the fallback,
    [(not html) or (len(tweets) > 0 and html and
      html.count("<article") < max(10, len(tweets) // 4))]. *)
Definition fallback_needed (html : option string) (n_tweets : nat) : bool :=
  match html with
  | None => true
  | Some h =>
      Text.is_empty h
      || ((0 <? n_tweets)%nat && negb (Text.is_empty h)
          && (article_count h <? Nat.max 10 (n_tweets / 4))%nat)
  end.

(** The markup of the enumerated elements; one whose read raises is left out. *)
Fixpoint tweet_markups (ts : list element) : list string :=
  match ts with
  | [] => []
  | t :: rest =>
      match outer_html t with
      | Returned o => or_empty o :: tweet_markups rest
      | Raised _ => tweet_markups rest
      end
  end.

Definition newline : string := String (ascii_of_nat 10) EmptyString.

Definition wrapper (ts : list element) : string :=
  Text.join newline (["<div id='x-scraper-wrapper'>"] ++ tweet_markups ts ++ ["</div>"]).

Definition grab_entire_div_html (pg : page) : option string :=
  let html := option_map snd (first_capture pg selectors) in
  let html :=
    if fallback_needed html (List.length (tweets pg))
    then Some (wrapper (tweets pg)) else html in
  match html with
  | Some h => if Text.is_empty h then None else Some h
  | None => None
  end.

End Capture.

(** ** The Session Orchestrator *)

Module Orchestrator.
Import Extractor.

(** A row of the data frame: a record and its [_queried_hashtag]. *)
Definition row : Type := record * string.

Definition item_id (r : row) : option string := tweet_id (fst r).

(** [final.drop_duplicates(subset=["tweet_id"])] of pandas: of the rows
    that carry the same value in the column the first is kept; a missing
    value is a value of the column like the others, so the rows that
    miss their id are duplicates of one another. *)
Fixpoint drop_duplicates_from (seen : list (option string)) (rows : list row)
  : list row :=
  match rows with
  | [] => []
  | r :: rest =>
      if bool_decide (item_id r ∈ seen) then drop_duplicates_from seen rest
      else r :: drop_duplicates_from (item_id r :: seen) rest
  end.

Definition drop_duplicates (rows : list row) : list row :=
  drop_duplicates_from [] rows.

(** [pd.concat(all_dfs, ignore_index=True)] followed by the
    de-duplication; every frame has the column [tweet_id]. *)
Definition aggregate (all_dfs : list (list row)) : list row :=
  drop_duplicates (List.concat all_dfs).

(** [df["_queried_hashtag"] = tag] *)
Definition tagged (tag : string) (df : list record) : list row :=
  List.map (fun r => (r, tag)) df.

Inductive event : Type :=
  | EvMkdir
  | EvChrome
  | EvSetWindowSize
  | EvLogin
  | EvExplore
  | EvSearch (tag : string)
  | EvLatest (tag : string)
  | EvCollect (tag : string)
  | EvGrab (tag : string)
  | EvParse (tag : string)
  | EvSave (rows : list row)
  | EvSaveEmpty
  | EvClose
  | EvQuit.

(** What the collaborators answer during one run.  The per-hashtag ones
    are indexed by the position of the hashtag in the list, so that they
    may depend on what came before.  [Logger.log] is taken to succeed. *)
Record session : Type := Session {
  mkdir_res : outcome unit;
  driver_path_exists : bool;
  chrome_res : outcome unit;
  set_window_size_res : outcome unit;
  login_res : outcome unit;
  click_explore_res : outcome bool;
  search_hashtag_res : nat -> string -> outcome unit;
  click_latest_tab_res : nat -> string -> outcome bool;
  ensure_min_tweets_loaded_res : nat -> string -> outcome nat;
  grab_entire_div_html_res : nat -> string -> outcome (option string);
  parse_html_to_df_res : nat -> string -> outcome (list record);
  save_df_res : list row -> outcome unit;
  to_parquet_res : outcome unit;
  quit_res : outcome unit
}.

(** The state of the [Scraper] object and of the world: whether
    [self.driver] is set, and what has happened so far, oldest first. *)
Record state : Type := State { driver : bool; trace : list event }.

Definition M (A : Type) : Type := state -> outcome A * state.

Definition ret {A : Type} (a : A) : M A := fun s => (Returned a, s).

Definition mbind {A B : Type} (m : M A) (k : A -> M B) : M B :=
  fun s =>
    match m s with
    | (Returned a, s') => k a s'
    | (Raised e, s') => (Raised e, s')
    end.

(** [try: m finally: f] *)
Definition finally {A : Type} (m : M A) (f : M unit) : M A :=
  fun s =>
    let '(r, s1) := m s in
    match f s1 with
    | (Returned _, s2) => (r, s2)
    | (Raised e, s2) => (Raised e, s2)
    end.

(** A call to a collaborator: it is recorded, then returns or raises. *)
Definition call {A : Type} (ev : event) (res : outcome A) : M A :=
  fun s => (res, State (driver s) (trace s ++ [ev])).

Definition set_driver : M unit :=
  fun s => (Returned tt, State true (trace s)).

(** [try: m except Exception: h] around a collaborator. *)
Definition try_m {A : Type} (m : M A) (h : exn -> M A) : M A :=
  fun s =>
    match m s with
    | (Returned a, s') => (Returned a, s')
    | (Raised e, s') => h e s'
    end.

Definition raise {A : Type} (e : exn) : M A := fun s => (Raised e, s).

Section Run.

Variable w : session.

Definition start_driver : M unit :=
  if driver_path_exists w then
    mbind (call EvChrome (chrome_res w)) (fun _ =>
    mbind set_driver (fun _ =>
    call EvSetWindowSize (set_window_size_res w)))
  else raise FileNotFoundError.

(** [close]: the driver is quit if there is one; a failure of
    [quit] is logged. *)
Definition close : M unit :=
  mbind (call EvClose (Returned tt)) (fun _ =>
  fun s =>
    if driver s then
      try_m (call EvQuit (quit_res w)) (fun _ => ret tt) s
    else ret tt s).

Definition truthy (o : option string) : bool :=
  match o with Some s => negb (Text.is_empty s) | None => false end.

(** The loop over the hashtags; [i] is the position of [tag]. *)
Fixpoint per_tag (i : nat) (tags : list string) (all_dfs : list (list row))
  : M (list (list row)) :=
  match tags with
  | [] => ret all_dfs
  | tag :: rest =>
      mbind (call (EvSearch tag) (search_hashtag_res w i tag)) (fun _ =>
      mbind (call (EvLatest tag) (click_latest_tab_res w i tag)) (fun _ =>
      mbind (call (EvCollect tag) (ensure_min_tweets_loaded_res w i tag)) (fun _ =>
      mbind (call (EvGrab tag) (grab_entire_div_html_res w i tag)) (fun html =>
      if truthy html then
        mbind (call (EvParse tag) (parse_html_to_df_res w i tag)) (fun df =>
        match df with
        | [] => per_tag (S i) rest all_dfs
        | _ => per_tag (S i) rest (all_dfs ++ [tagged tag df])
        end)
      else per_tag (S i) rest all_dfs))))
  end.

(** The body of the [try] of [run]. *)
Definition pipeline (username password : option string)
           (hashtags : list string) (out_path : string) : M string :=
  mbind
    (if truthy username && truthy password
     then call EvLogin (login_res w) else ret tt) (fun _ =>
  mbind (call EvExplore (click_explore_res w)) (fun _ =>
  mbind (per_tag 0 hashtags []) (fun all_dfs =>
  match all_dfs with
  | [] => mbind (call EvSaveEmpty (to_parquet_res w)) (fun _ => ret out_path)
  | _ =>
      let final := aggregate all_dfs in
      mbind (call (EvSave final) (save_df_res w final)) (fun _ => ret out_path)
  end))).

Definition run (username password : option string)
           (hashtags : list string) (out_path : string) : M string :=
  mbind (call EvMkdir (mkdir_res w)) (fun _ =>
  mbind start_driver (fun _ =>
  finally (pipeline username password hashtags out_path) close)).

End Run.

Definition initial : state := State false [].

End Orchestrator.

(** ** Sample documents and the vocabulary of the statements *)

Module Sample.
Import Dom.

Definition user_name : node :=
  Elem "div" [("data-testid", "User-Name")]
    [Elem "a" [("href", "/alice")] [Elem "span" [] [Txt "Alice"]]].

Definition timestamp : node :=
  Elem "a" [("href", "/alice/status/123?s=20")]
    [Elem "time" [("datetime", "2024-01-01T00:00:00.000Z")] [Txt "1h"]].

Definition tweet_text : node :=
  Elem "div" [("data-testid", "tweetText")]
    [Txt "hello ";
     Elem "a" [("href", "/hashtag/nifty")] [Txt "#nifty"];
     Elem "a" [("href", "/bob")] [Txt "@bob"];
     Elem "a" [("href", "/hashtag/nifty")] [Txt "#nifty"]].

(** An action group without a view count. *)
Definition actions : node :=
  Elem "div" [("role", "group")]
    [Elem "button" [("data-testid", "reply")] [Txt " 12 "];
     Elem "button" [("data-testid", "retweet")] [Txt "1.2K"];
     Elem "button" [("data-testid", "like")] [Txt "3M"]].

Definition tweet : node :=
  Elem "article" [("data-testid", "tweet")]
    [user_name; timestamp; tweet_text; actions].

(** A block without a content block: hashtag and mention links and
    tokens in its text, and a reply count that is no number. *)
Definition degraded : node :=
  Elem "article" [("data-testid", "tweet")]
    [Txt "see #nifty and @bob";
     Elem "a" [("href", "/hashtag/nifty")] [Txt "#nifty"];
     Elem "a" [("href", "/bob")] [Txt "@bob"];
     Elem "div" [("role", "group")]
       [Elem "button" [("data-testid", "reply")] [Txt "..."];
        Elem "button" [("data-testid", "like")] [Txt "7"]]].

Definition empty_block : node := Elem "article" [("data-testid", "tweet")] [].

Definition soup : list node :=
  [Elem "html" [] [Elem "body" [] [tweet; degraded; empty_block]]].

(** A block whose only element labelled with views is the analytics
    link: the parser raises on its label. *)
Definition analytics : node :=
  Elem "article" [("data-testid", "tweet")]
    [tweet_text; actions;
     Elem "a" [("aria-label", "View post analytics.")] []].

End Sample.

Module ExtractorSpec.
Local Open Scope Z_scope.
Import Dom Extractor.

Definition count_ok (o : option Z) : Prop := forall n, o = Some n -> 0 <= n.

(** The invariant of an Item Record. *)
Definition item_record_invariant (r : record) : Prop :=
  (exists c, content r = Some c)
  /\ count_ok (reply_count r) /\ count_ok (retweet_count r)
  /\ count_ok (like_count r) /\ count_ok (view_count r).

(** What a guarded call of the parser leaves in the field. *)
Definition guarded (m : outcome (option Z)) : option Z :=
  match m with Returned v => v | Raised _ => None end.

(** The value of an engagement field. *)
Definition action_value (testid : string) (tb : loc) : option Z :=
  match List.find (in_action_group testid) (descendants tb) with
  | Some btn => guarded (Shorthand._parse_count_from_text (get_text " " (here btn)))
  | None => None
  end.

(** The value of the view field. *)
Definition view_value (tb : loc) : option Z :=
  match find label_matches_view tb with
  | Some view_elem =>
      guarded
        (Shorthand._parse_count_from_text
           (if truthy (get "aria-label" (attrs_of (here view_elem)))
            then get_or_empty "aria-label" (attrs_of (here view_elem))
            else get_text " " (here view_elem)))
  | None =>
      match search_views_token (get_text " " (here tb)) with
      | Some g => guarded (Shorthand._shorthand_to_int g)
      | None => None
      end
  end.

(** The record of a block, field by field. *)
Definition record_of (tb : loc) : record :=
  {| tweet_id := snd (time_fields tb);
     display_name := snd (fst (user_fields tb));
     handle := fst (fst (user_fields tb));
     username := snd (user_fields tb);
     timestamp_iso := fst (fst (time_fields tb));
     timestamp_relative := snd (fst (time_fields tb));
     content := fst (fst (content_fields tb));
     hashtags := snd (fst (content_fields tb));
     mentions := snd (content_fields tb);
     reply_count := action_value "reply" tb;
     retweet_count := action_value "retweet" tb;
     like_count := action_value "like" tb;
     view_count := view_value tb |}.

(** The first element that [select_one] finds for an engagement control. *)
Definition select_action (testid : string) (tb : loc) : option loc :=
  List.find (in_action_group testid) (descendants tb).

(** The engagement control [testid] of the block shows [text]. *)
Definition shows (testid : string) (tb : loc) (text : string) : Prop :=
  exists btn, select_action testid tb = Some btn /\ get_text " " (here btn) = text.

(** [d] is the decimal writing of [n], a number that binary64 holds exactly. *)
Definition plain_number (d : string) (n : Z) : Prop :=
  Text.is_empty d = false /\ Text.forallb Text.is_digit d = true
  /\ Text.digits_val d = n /\ n < 2 ^ 53.

(** An engagement field [v] is read off its own control alone: absent
    without a control, else what the parser makes of the text of the
    control, absent where the parser raises. *)
Definition count_isolated (testid : string) (tb : loc) (v : option Z) : Prop :=
  (select_action testid tb = None -> v = None)
  /\ (forall t, shows testid tb t -> v = guarded (Shorthand._parse_count_from_text t))
  /\ (forall t n, shows testid tb t -> plain_number t n -> v = Some n).

(** The text that the view count is parsed from. *)
Definition view_text (view_elem : loc) : string :=
  if truthy (get "aria-label" (attrs_of (here view_elem)))
  then get_or_empty "aria-label" (attrs_of (here view_elem))
  else get_text " " (here view_elem).

(** The view field [v] is read off the element labelled with views, else
    off the views text of the block, absent where there is neither or
    where the parser raises. *)
Definition view_isolated (tb : loc) (v : option Z) : Prop :=
  (forall view_elem, find label_matches_view tb = Some view_elem ->
     v = guarded (Shorthand._parse_count_from_text (view_text view_elem)))
  /\ (find label_matches_view tb = None ->
      (forall g, search_views_token (get_text " " (here tb)) = Some g ->
         v = guarded (Shorthand._shorthand_to_int g))
      /\ (search_views_token (get_text " " (here tb)) = None -> v = None)).

(** The record [r] holds, group by group, what each sub-extraction
    finds in the block [tb]. *)
Definition extracted (tb : loc) (r : record) : Prop :=
  (handle r, display_name r, username r) = user_fields tb
  /\ (timestamp_iso r, timestamp_relative r, tweet_id r) = time_fields tb
  /\ (content r, hashtags r, mentions r) = content_fields tb
  /\ count_isolated "reply" tb (reply_count r)
  /\ count_isolated "retweet" tb (retweet_count r)
  /\ count_isolated "like" tb (like_count r)
  /\ view_isolated tb (view_count r).

End ExtractorSpec.

Module CollectorSpec.
Import Collector.

Section Rounds.

Variable source : nat -> list element.

(** What the loop holds when it enters round [n]: the set of
    fingerprints, the count of the round before, and the stall counter. *)
Definition seen_before (n : nat) : gset string :=
  match n with O => ∅ | S j => seen_upto source j end.




End Rounds.

Definition decimal (n : nat) : string := NilEmpty.string_of_uint (Nat.to_uint n).

(** A rendered post with a permalink, and one without. *)
Definition post (id : nat) : element :=
  Element
    (Returned (Some ("<article data-testid='tweet'><a href='/u/status/"
                       +:+ decimal id +:+ "'>1h</a></article>")))
    (Raised WebDriverException).

Definition anonymous (text : string) : element :=
  Element (Returned (Some ("<article>" +:+ text +:+ "</article>")))
          (Raised WebDriverException).

(** An element whose markup holds no permalink but below which the driver
    finds a link that resolves to one. *)
Definition resolved_link : element :=
  Element (Returned (Some "<article><a href='/u/status/./42'>1h</a></article>"))
          (Returned (Some "https://x.com/u/status/42")).

(** An element that went stale before its markup was read. *)
Definition stale : element :=
  Element (Raised WebDriverException) (Raised WebDriverException).

(** [rate] new posts in every round. *)
Definition fixed_rate (rate : nat) (i : nat) : list element :=
  List.map post (List.seq (rate * i) rate).

(** [rate] new posts per round up to round [k], the posts of round [k] again after it. *)
Definition plateau (rate k : nat) (i : nat) : list element :=
  fixed_rate rate (Nat.min i k).

(** A markup holds a permalink segment: [/status/] followed by a digit. *)
Definition has_permalink (s : string) : Prop :=
  exists pre c post, s = pre +:+ "/status/" +:+ String c post /\ Text.is_digit c = true.

(** [d] is the run of digits of a permalink segment of [s]. *)
Definition permalink_id (s d : string) : Prop :=
  Text.is_empty d = false /\ Text.forallb Text.is_digit d = true
  /\ exists pre post,
       s = pre +:+ "/status/" +:+ d +:+ post
       /\ match post with String c _ => Text.is_digit c = false | EmptyString => True end.

(** [d] is the run of digits of the leftmost permalink segment of [s]:
    no segment starts before it. *)
Definition leftmost_permalink_id (s d : string) : Prop :=
  Text.is_empty d = false /\ Text.forallb Text.is_digit d = true
  /\ exists pre post,
       s = pre +:+ "/status/" +:+ d +:+ post
       /\ match post with String c _ => Text.is_digit c = false | EmptyString => True end
       /\ forall pre' c rest,
            s = pre' +:+ "/status/" +:+ String c rest -> Text.is_digit c = true ->
            (String.length pre <= String.length pre')%nat.

End CollectorSpec.

Module CaptureSpec.
Import Collector Capture.

(** A selector whose capture exists and is longer than 50 characters. *)
Definition accepted_by (pg : page) (sel : string) : Prop :=
  exists html, container pg sel = Returned (Some html)
               /\ (50 < String.length html)%nat.

Definition readable (t : element) : Prop :=
  exists o, outer_html t = Returned o.

(** The markup of an element as the wrapper takes it: [outerHTML or '']. *)
Definition markup_of (t : element) : string :=
  match outer_html t with
  | Returned o => or_empty o
  | Raised _ => EmptyString
  end.

(** A timeline of [n] characters of filler around [k] item tags. *)
Fixpoint articles (k : nat) : string :=
  match k with
  | O => "<div class='filler-filler-filler-filler-filler-filler'></div>"
  | S j => "<article>post</article>" +:+ articles j
  end.

(** The first two selectors time out, the third finds a feed with [k]
    item tags; [n] posts are enumerated. *)
Definition feed_page (k n : nat) : page :=
  Page
    (fun sel =>
       if String.eqb sel ("div[role=" +:+ dq +:+ "feed" +:+ dq +:+ "]")
       then Returned (Some (articles k))
       else Raised WebDriverException)
    (List.map CollectorSpec.post (List.seq 0 n)).

(** Whether the markup of an element can be read. *)
Definition is_readable (t : element) : bool :=
  match outer_html t with Returned _ => true | Raised _ => false end.

(** No container is found; of the three enumerated elements the second
    went stale before its markup was read. *)
Definition gapped_page : page :=
  Page (fun _ => Raised TimeoutException)
       [CollectorSpec.post 1; CollectorSpec.stale; CollectorSpec.post 2].

End CaptureSpec.

Module OrchestratorSpec.
Import Extractor Orchestrator.

(** A record with the given id and content, every other field absent. *)
Definition item (id : option string) (text : string) : record :=
  {| tweet_id := id; display_name := None; handle := None; username := None;
     timestamp_iso := None; timestamp_relative := None;
     content := Some text; hashtags := []; mentions := [];
     reply_count := None; retweet_count := None; like_count := None;
     view_count := None |}.

(** A computation that leaves [self.driver] as it found it. *)
Definition keeps_driver {A : Type} (m : M A) : Prop :=
  forall s r s', m s = (r, s') -> driver s' = driver s.

(** What [close] appends to the trace. *)
Definition closing (s : state) : list event :=
  EvClose :: (if driver s then [EvQuit] else []).

(** A session in which every collaborator returns; each hashtag yields
    the same two posts, [shared] and one of its own. *)
Definition calm (quit : outcome unit) : session :=
  {| mkdir_res := Returned tt;
     driver_path_exists := true;
     chrome_res := Returned tt;
     set_window_size_res := Returned tt;
     login_res := Returned tt;
     click_explore_res := Returned true;
     search_hashtag_res := fun _ _ => Returned tt;
     click_latest_tab_res := fun _ _ => Returned true;
     ensure_min_tweets_loaded_res := fun _ _ => Returned 500%nat;
     grab_entire_div_html_res := fun _ _ => Returned (Some "<div></div>");
     parse_html_to_df_res :=
       fun _ tag => Returned [item (Some "123") "shared"; item None tag];
     save_df_res := fun _ => Returned tt;
     to_parquet_res := Returned tt;
     quit_res := quit |}.

(** The same, with a search that times out on the second hashtag. *)
Definition search_times_out : session :=
  {| mkdir_res := Returned tt;
     driver_path_exists := true;
     chrome_res := Returned tt;
     set_window_size_res := Returned tt;
     login_res := Returned tt;
     click_explore_res := Returned true;
     search_hashtag_res :=
       fun i _ => match i with 1%nat => Raised TimeoutException | _ => Returned tt end;
     click_latest_tab_res := fun _ _ => Returned true;
     ensure_min_tweets_loaded_res := fun _ _ => Returned 500%nat;
     grab_entire_div_html_res := fun _ _ => Returned (Some "<div></div>");
     parse_html_to_df_res := fun _ tag => Returned [item None tag];
     save_df_res := fun _ => Returned tt;
     to_parquet_res := Returned tt;
     quit_res := Raised WebDriverException |}.

(** A session whose chromedriver path does not exist, and one whose
    browser starts but refuses the window size. *)
Definition no_chromedriver : session :=
  {| mkdir_res := Returned tt;
     driver_path_exists := false;
     chrome_res := Returned tt;
     set_window_size_res := Returned tt;
     login_res := Returned tt;
     click_explore_res := Returned true;
     search_hashtag_res := fun _ _ => Returned tt;
     click_latest_tab_res := fun _ _ => Returned true;
     ensure_min_tweets_loaded_res := fun _ _ => Returned 500%nat;
     grab_entire_div_html_res := fun _ _ => Returned (Some "<div></div>");
     parse_html_to_df_res := fun _ tag => Returned [item None tag];
     save_df_res := fun _ => Returned tt;
     to_parquet_res := Returned tt;
     quit_res := Returned tt |}.

Definition window_refused : session :=
  {| mkdir_res := Returned tt;
     driver_path_exists := true;
     chrome_res := Returned tt;
     set_window_size_res := Raised WebDriverException;
     login_res := Returned tt;
     click_explore_res := Returned true;
     search_hashtag_res := fun _ _ => Returned tt;
     click_latest_tab_res := fun _ _ => Returned true;
     ensure_min_tweets_loaded_res := fun _ _ => Returned 500%nat;
     grab_entire_div_html_res := fun _ _ => Returned (Some "<div></div>");
     parse_html_to_df_res := fun _ tag => Returned [item None tag];
     save_df_res := fun _ => Returned tt;
     to_parquet_res := Returned tt;
     quit_res := Returned tt |}.

End OrchestratorSpec.

(** ** Vocabulary of the further properties *)

Module TextSpec.

(** [c * n] *)
Fixpoint run_of (c : ascii) (n : nat) : string :=
  match n with
  | O => EmptyString
  | S k => String c (run_of c k)
  end.

(** The character [c] does not occur in [s]. *)
Definition free_of (c : ascii) (s : string) : Prop :=
  Text.forallb (fun a => negb (Text.is_char c a)) s = true.

End TextSpec.

(** *** The extractor *)

Module ExtractorExtraSpec.
Import Dom Extractor.

(** The link texts of a block as the loop classifies them, before the
    duplicates are dropped: hashtags and mentions. *)
Definition classified (tb : loc) : list string * list string :=
  match find (attr_is "data-testid" "tweetText") tb with
  | Some content_el =>
      List.fold_left classify_link
        (find_all (fun t => has_tag "a" t && has_attr "href" t) content_el) ([], [])
  | None => ([], [])
  end.


End ExtractorExtraSpec.

(** *** The collector *)

Module CollectorExtraSpec.
Import Collector.

(** The number of elements that the first [n] rounds enumerate. *)
Fixpoint rendered (source : nat -> list element) (n : nat) : nat :=
  match n with
  | O => O
  | S j => (rendered source j + List.length (source j))%nat
  end.

Definition is_lower_hex (c : ascii) : bool :=
  Text.is_digit c
  || (let n := nat_of_ascii c in (97 <=? n)%nat && (n <=? 102)%nat).

End CollectorExtraSpec.

(** *** [run] *)

Module OrchestratorExtraSpec.
Import Extractor Orchestrator.

Definition is_per_tag (ev : event) : Prop :=
  match ev with
  | EvSearch _ | EvLatest _ | EvCollect _ | EvGrab _ | EvParse _ => True
  | _ => False
  end.

Definition is_save (ev : event) : Prop :=
  match ev with EvSave _ | EvSaveEmpty => True | _ => False end.

(** A computation that only appends events satisfying [P] to the trace. *)
Definition emits {A : Type} (P : event -> Prop) (m : M A) : Prop :=
  forall s r s', m s = (r, s') ->
    exists evs, trace s' = trace s ++ evs /\ List.Forall P evs.

(** The frames that the loop over the hashtags collects when no
    collaborator raises: for each hashtag with HTML and at least one
    record, its records under its name. *)
Fixpoint batches (w : session) (i : nat) (tags : list string) : list (list row) :=
  match tags with
  | [] => []
  | tag :: rest =>
      match grab_entire_div_html_res w i tag, parse_html_to_df_res w i tag with
      | Returned html, Returned (r :: df) =>
          if truthy html then tagged tag (r :: df) :: batches w (S i) rest
          else batches w (S i) rest
      | _, _ => batches w (S i) rest
      end
  end.

(** Every collaborator of the pipeline returns. *)
Definition all_return (w : session) : Prop :=
  (exists a, login_res w = Returned a)
  /\ (exists a, click_explore_res w = Returned a)
  /\ (forall i tag,
        (exists a, search_hashtag_res w i tag = Returned a)
        /\ (exists a, click_latest_tab_res w i tag = Returned a)
        /\ (exists a, ensure_min_tweets_loaded_res w i tag = Returned a)
        /\ (exists a, grab_entire_div_html_res w i tag = Returned a)
        /\ (exists a, parse_html_to_df_res w i tag = Returned a))
  /\ (forall rows, exists a, save_df_res w rows = Returned a)
  /\ (exists a, to_parquet_res w = Returned a).

(** What the pipeline writes in that case. *)
Definition save_event (w : session) (tags : list string) : event :=
  match batches w 0 tags with
  | [] => EvSaveEmpty
  | dfs => EvSave (aggregate dfs)
  end.

End OrchestratorExtraSpec.

(** ** Navigation: [login], [click_explore], [search_hashtag], [click_latest_tab]

    Each function is a script of driver calls.  A call site runs at most
    once in a call of the function, so what the driver answers is given
    by one outcome per call site; the commands issued are recorded in
    order.  [time.sleep] with the constants of the source and
    [Logger.log] leave no trace. *)

Module Navigation.

Inductive key : Type :=
  | Typed (s : string)
  | Enter
  | SelectAll
  | Backspace.

Inductive target : Type :=
  | UsernameInput
  | NextButton
  | PasswordInput
  | LoginButton
  | SearchIcon
  | ExploreButton
  | SearchBox
  | SearchBoxInput
  | LatestTab.

Inductive command : Type :=
  | Get (url : string)
  | CurrentUrl
  | Wait (t : target) (selector : nat)
  | Find (t : target) (selector : nat)
  | ScrollIntoView (t : target)
  | Click (t : target)
  | Clear (t : target)
  | SendKeys (t : target) (k : key)
  | GetAttribute (t : target) (name : string)
  | TagName (t : target).

Definition N (A : Type) : Type := list command -> outcome A * list command.

Definition nret {A : Type} (a : A) : N A := fun t => (Returned a, t).

Definition nbind {A B : Type} (m : N A) (k : A -> N B) : N B :=
  fun t =>
    match m t with
    | (Returned a, t') => k a t'
    | (Raised e, t') => (Raised e, t')
    end.

(** One driver call: the command is recorded, the driver answers. *)
Definition step {A : Type} (c : command) (res : outcome A) : N A :=
  fun t => (res, t ++ [c]).

(** [try: m except Exception: h] *)
Definition ntry {A : Type} (m : N A) (h : N A) : N A :=
  fun t =>
    match m t with
    | (Returned a, t') => (Returned a, t')
    | (Raised _, t') => h t'
    end.

Notation "x <- m ;; k" := (nbind m (fun x => k))
  (at level 100, m at next level, right associativity).
Notation "m ;;; k" := (nbind m (fun _ => k))
  (at level 100, right associativity).

(** A lookup inside its own [try]: found or not. *)
Definition found (c : command) (res : outcome unit) : N bool :=
  ntry (step c res ;;; nret true) (nret false).

(** The loop over candidate selectors: the first whose wait returns. *)
Fixpoint first_found (t : target) (waits : nat -> outcome unit) (i n : nat) : N bool :=
  match n with
  | O => nret false
  | S n' =>
      ok <- found (Wait t i) (waits i) ;;
      if ok then nret true else first_found t waits (S i) n'
  end.

(** *** [click_explore] *)

Record verify_env : Type := VerifyEnv {
  current_url : outcome string;
  search_input_wait : outcome unit
}.

(** The inner function [verify_explore]. *)
Definition verify_explore (v : verify_env) : N bool :=
  ntry
    (url <- step CurrentUrl (current_url v) ;;
     if Text.contains "/explore" url then nret true
     else step (Wait SearchBox 0) (search_input_wait v) ;;; nret true)
    (nret false).

Record explore_env : Type := ExploreEnv {
  svg_find : outcome unit;
  svg_scroll : outcome unit;
  svg_click : outcome unit;
  svg_verify : verify_env;
  text_find : outcome unit;
  text_scroll : outcome unit;
  text_click : outcome unit;
  text_verify : verify_env;
  explore_get : outcome unit;
  explore_verify : verify_env
}.

(** One of the two click strategies, inside its [try]: whether it ended
    in [return True]. *)
Definition click_strategy (t : target) (find scroll click : outcome unit)
           (v : verify_env) : N bool :=
  ntry
    (step (Find t 0) find ;;; step (ScrollIntoView t) scroll ;;;
     step (Click t) click ;;; verify_explore v)
    (nret false).

Definition click_explore (e : explore_env) : N bool :=
  ok <- click_strategy SearchIcon (svg_find e) (svg_scroll e) (svg_click e)
                       (svg_verify e) ;;
  if ok then nret true
  else
    ok <- click_strategy ExploreButton (text_find e) (text_scroll e) (text_click e)
                         (text_verify e) ;;
    if ok then nret true
    else
      ok <- ntry (step (Get "https://x.com/explore") (explore_get e) ;;;
                  verify_explore (explore_verify e))
                 (nret false) ;;
      if ok then nret true else nret false.

(** *** [click_latest_tab] *)

Record latest_env : Type := LatestEnv {
  latest_wait : outcome unit;
  latest_find : outcome unit;
  latest_scroll : outcome unit;
  latest_click : outcome unit
}.

Definition click_latest_tab (e : latest_env) : N bool :=
  ntry
    (latest <- found (Wait LatestTab 0) (latest_wait e) ;;
     latest <- (if latest then nret true
                else found (Find LatestTab 1) (latest_find e)) ;;
     if latest
     then step (ScrollIntoView LatestTab) (latest_scroll e) ;;;
          step (Click LatestTab) (latest_click e) ;;; nret true
     else nret false)
    (nret false).

(** *** [search_hashtag] *)

Record search_env : Type := SearchEnv {
  box_wait : outcome unit;
  box_click : outcome unit;
  box_tag_name : outcome string;
  input_find : outcome unit;
  select_all : outcome unit;
  backspace : outcome unit;
  clear : outcome unit;
  type_hashtag : outcome unit;
  type_enter : outcome unit
}.

Definition search_hashtag (e : search_env) (hashtag : string) : N unit :=
  step (Wait SearchBox 0) (box_wait e) ;;;
  ntry (step (Click SearchBox) (box_click e)) (nret tt) ;;;
  tag <- step (TagName SearchBox) (box_tag_name e) ;;
  el <- (if negb (String.eqb (Text.lower tag) "input")
         then ntry (step (Find SearchBoxInput 0) (input_find e) ;;; nret SearchBoxInput)
                   (nret SearchBox)
         else nret SearchBox) ;;
  ntry (step (SendKeys el SelectAll) (select_all e) ;;;
        step (SendKeys el Backspace) (backspace e))
       (ntry (step (Clear el) (clear e)) (nret tt)) ;;;
  step (SendKeys el (Typed hashtag)) (type_hashtag e) ;;;
  step (SendKeys el Enter) (type_enter e).

(** *** [login] *)

Record login_env : Type := LoginEnv {
  login_get : outcome unit;
  username_waits : nat -> outcome unit;
  username_click : outcome unit;
  username_clear : outcome unit;
  username_type : outcome unit;
  next_find : outcome unit;
  next_scroll : outcome unit;
  next_click : outcome unit;
  username_enter : outcome unit;
  password_waits : nat -> outcome unit;
  password_click : outcome unit;
  password_clear : outcome unit;
  password_type : outcome unit;
  login_find_testid : outcome unit;
  login_find_text : outcome unit;
  login_scroll : outcome unit;
  login_disabled : outcome (option string);
  login_click : outcome unit;
  password_enter : outcome unit
}.

(** [el.click(); el.clear(); el.send_keys(text)], outside any [try]. *)
Definition type_into (t : target) (text : string)
           (click clear type : outcome unit) : N unit :=
  step (Click t) click ;;; step (Clear t) clear ;;; step (SendKeys t (Typed text)) type.

Definition login (e : login_env) (username password : string) : N unit :=
  step (Get "https://x.com/i/flow/login") (login_get e) ;;;
  has_user <- first_found UsernameInput (username_waits e) 0 4 ;;
  (if has_user
   then type_into UsernameInput username
                  (username_click e) (username_clear e) (username_type e)
   else nret tt) ;;;
  ntry
    (has_next <- found (Find NextButton 0) (next_find e) ;;
     if has_next
     then step (ScrollIntoView NextButton) (next_scroll e) ;;;
          step (Click NextButton) (next_click e)
     else if has_user then step (SendKeys UsernameInput Enter) (username_enter e)
          else nret tt)
    (nret tt) ;;;
  has_pw <- first_found PasswordInput (password_waits e) 0 3 ;;
  (if has_pw
   then type_into PasswordInput password
                  (password_click e) (password_clear e) (password_type e)
   else nret tt) ;;;
  ntry
    (has_btn <- found (Find LoginButton 0) (login_find_testid e) ;;
     has_btn <- (if has_btn then nret true
                 else found (Find LoginButton 1) (login_find_text e)) ;;
     if has_btn
     then step (ScrollIntoView LoginButton) (login_scroll e) ;;;
          step (GetAttribute LoginButton "disabled") (login_disabled e) ;;;
          step (Click LoginButton) (login_click e)
     else if has_pw then step (SendKeys PasswordInput Enter) (password_enter e)
          else nret tt)
    (nret tt).

End Navigation.

(** *** What the navigation scripts are said to do *)

Module NavigationSpec.
Import Navigation.

Definition is_returned {A : Type} (o : outcome A) : bool :=
  match o with Returned _ => true | Raised _ => false end.

(** What [verify_explore] answers. *)
Definition verified (v : verify_env) : bool :=
  match current_url v with
  | Returned url => Text.contains "/explore" url || is_returned (search_input_wait v)
  | Raised _ => false
  end.

(** Whether one of the three strategies of [click_explore] gets through. *)
Definition explore_reached (e : explore_env) : bool :=
  (is_returned (svg_find e) && is_returned (svg_scroll e) && is_returned (svg_click e)
   && verified (svg_verify e))
  || (is_returned (text_find e) && is_returned (text_scroll e)
      && is_returned (text_click e) && verified (text_verify e))
  || (is_returned (explore_get e) && verified (explore_verify e)).

Definition is_typing (c : command) : Prop :=
  match c with SendKeys _ (Typed _) => True | _ => False end.

(** What [login] may type, and where. *)
Definition types_credentials (username password : string) (c : command) : Prop :=
  match c with
  | SendKeys t (Typed s) =>
      (t = UsernameInput /\ s = username) \/ (t = PasswordInput /\ s = password)
  | _ => True
  end.

End NavigationSpec.

Module LoginSpec.
Import Navigation NavigationSpec.

(** Whether one of the first [n] candidate selectors is answered. *)
Definition any_found (waits : nat -> outcome unit) (n : nat) : bool :=
  List.existsb (fun i => is_returned (waits i)) (List.seq 0 n).

Definition username_found (e : login_env) : bool := any_found (username_waits e) 4.
Definition password_found (e : login_env) : bool := any_found (password_waits e) 3.

Definition username_typed (e : login_env) : bool :=
  is_returned (username_click e) && is_returned (username_clear e)
  && is_returned (username_type e).

Definition password_typed (e : login_env) : bool :=
  is_returned (password_click e) && is_returned (password_clear e)
  && is_returned (password_type e).

(** A computation that returns [a] from every trace. *)
Definition yields {A : Type} (m : N A) (a : A) : Prop :=
  forall t, exists t', m t = (Returned a, t').

(** A computation whose returning or raising does not depend on the trace. *)
Definition decides {A : Type} (m : N A) (b : bool) : Prop :=
  forall t, is_returned (m t).1 = b.

(** A computation that only appends commands satisfying [P]. *)
Definition issues {A : Type} (P : command -> Prop) (m : N A) : Prop :=
  forall t, exists cs, (m t).2 = t ++ cs /\ List.Forall P cs.

(** Clicking, clearing or sending keys to [tg]. *)
Definition acts_on (tg : target) (c : command) : Prop :=
  match c with
  | Click t | Clear t | SendKeys t _ => t = tg
  | _ => False
  end.

(** What [login] may do: type the credentials into their own inputs, and
    act on an input only when it was found. *)
Definition login_command (e : login_env) (username password : string)
           (c : command) : Prop :=
  types_credentials username password c
  /\ (acts_on UsernameInput c -> username_found e = true)
  /\ (acts_on PasswordInput c -> password_found e = true).

End LoginSpec.

(** ** The dashboard: [parse_hashtags] *)

Module Dashboard.

Definition newline : ascii := ascii_of_nat 10.

(** [s.replace(a, b)] for single characters. *)
Fixpoint replace_char (a b : ascii) (s : string) : string :=
  match s with
  | EmptyString => EmptyString
  | String c r => String (if Text.is_char a c then b else c) (replace_char a b r)
  end.

Definition with_hash (tag : string) : string :=
  if Text.starts_with "#" tag then tag else "#" +:+ tag.

Definition parse_hashtags (text : string) : list string :=
  if Text.is_empty text then []
  else
    let text := replace_char newline "," text in
    let tags :=
      List.map Text.strip
        (List.filter (fun tag => negb (Text.is_empty (Text.strip tag)))
                     (Text.split "," text)) in
    List.map with_hash tags.

End Dashboard.

Module DashboardSpec.
Import TextSpec.

(** No white space at either end. *)
Definition tidy (s : string) : Prop :=
  Text.lstrip_by Text.is_space s = s /\ Text.rstrip_by Text.is_space s = s.

(** A hashtag as the scraper is given it. *)
Definition well_formed (tag : string) : Prop :=
  Text.starts_with "#" tag = true
  /\ free_of "," tag /\ free_of Dashboard.newline tag
  /\ Text.strip tag = tag.

End DashboardSpec.

(** ** The dashboard: [calculate_sentiment_score] *)

Module Sentiment.

(** [str.lower] on one character below 256: the ASCII capitals and the
    Latin-1 capitals (192 to 222 but for the multiplication sign 215). *)
Definition lower_char (c : ascii) : ascii :=
  let n := nat_of_ascii c in
  if ((65 <=? n)%nat && (n <=? 90)%nat)
     || ((192 <=? n)%nat && (n <=? 222)%nat && negb (n =? 215)%nat)
  then ascii_of_nat (n + 32) else c.

Fixpoint lower (s : string) : string :=
  match s with
  | EmptyString => EmptyString
  | String c r => String (lower_char c) (lower r)
  end.

Definition bullish_keywords : list string :=
  ["bullish"; "buy"; "long"; "moon"; "pump"; "rally"; "surge"; "gain"; "profit";
   "up"; "high"; "rise"; "bull"].

Definition bearish_keywords : list string :=
  ["bearish"; "sell"; "short"; "dump"; "crash"; "drop"; "loss"; "down"; "low";
   "fall"; "bear"].

(** [sum(1 for word in keywords if word in text_lower)] *)
Definition keyword_count (keywords : list string) (text_lower : string) : nat :=
  List.length (List.filter (fun word => Text.contains word text_lower) keywords).

Definition calculate_sentiment_score (text : string) : Z :=
  let text_lower := lower text in
  let bullish_count := keyword_count bullish_keywords text_lower in
  let bearish_count := keyword_count bearish_keywords text_lower in
  Z.of_nat bullish_count - Z.of_nat bearish_count.

End Sentiment.

Module SentimentSpec.
Import Sentiment.

(** The text mentions [word], in whatever case. *)
Definition mentions (word text : string) : Prop :=
  Text.contains word (lower text) = true.

Definition mentions_none (keywords : list string) (text : string) : Prop :=
  List.Forall (fun word => Text.contains word (lower text) = false) keywords.

End SentimentSpec.

(** *** A run in which a hashtag fails *)

Module FailureSpec.
Import Extractor Orchestrator OrchestratorExtraSpec.

(** The collaborators that [run] calls for the hashtag at position [i] return. *)
Definition tag_returns (w : session) (i : nat) (tag : string) : Prop :=
  (exists a, search_hashtag_res w i tag = Returned a)
  /\ (exists a, click_latest_tab_res w i tag = Returned a)
  /\ (exists a, ensure_min_tweets_loaded_res w i tag = Returned a)
  /\ (exists a, grab_entire_div_html_res w i tag = Returned a)
  /\ (exists a, parse_html_to_df_res w i tag = Returned a).

(** The first of them to raise, if [run] gets to call it, raises [e]. *)
Definition tag_raises (w : session) (i : nat) (tag : string) (e : exn) : Prop :=
  search_hashtag_res w i tag = Raised e
  \/ ((exists a, search_hashtag_res w i tag = Returned a)
      /\ (click_latest_tab_res w i tag = Raised e
          \/ ((exists a, click_latest_tab_res w i tag = Returned a)
              /\ (ensure_min_tweets_loaded_res w i tag = Raised e
                  \/ ((exists a, ensure_min_tweets_loaded_res w i tag = Returned a)
                      /\ (grab_entire_div_html_res w i tag = Raised e
                          \/ (exists html,
                                grab_entire_div_html_res w i tag = Returned html
                                /\ truthy html = true
                                /\ parse_html_to_df_res w i tag = Raised e))))))).

(** A session in which the capture of the second hashtag fails. *)
Definition capture_fails : session :=
  {| mkdir_res := Returned tt;
     driver_path_exists := true;
     chrome_res := Returned tt;
     set_window_size_res := Returned tt;
     login_res := Returned tt;
     click_explore_res := Returned true;
     search_hashtag_res := fun _ _ => Returned tt;
     click_latest_tab_res := fun _ _ => Returned true;
     ensure_min_tweets_loaded_res := fun _ _ => Returned 500%nat;
     grab_entire_div_html_res :=
       fun i _ => match i with
                  | 1%nat => Raised WebDriverException
                  | _ => Returned (Some "<div></div>")
                  end;
     parse_html_to_df_res := fun _ tag => Returned [OrchestratorSpec.item None tag];
     save_df_res := fun _ => Returned tt;
     to_parquet_res := Returned tt;
     quit_res := Returned tt |}.

End FailureSpec.

(** * Properties *)

(** ** Text and arithmetic lemmas *)

Section TextFacts.

Lemma forallb_span_fst (p : ascii -> bool) (s : string) :
  Text.forallb p (fst (Text.span p s)) = true.
Proof.
  induction s as [|c r IH]; simpl; [reflexivity|].
  destruct (p c) eqn:Hc; [|reflexivity].
  destruct (Text.span p r) as [a b]; simpl in *. now rewrite Hc.
Qed.

Lemma forallb_filter (p : ascii -> bool) (s : string) :
  Text.forallb p (Text.filter p s) = true.
Proof.
  induction s as [|c r IH]; simpl; [reflexivity|].
  destruct (p c) eqn:Hc; simpl; [now rewrite Hc|exact IH].
Qed.

Lemma forallb_append (p : ascii -> bool) (a b : string) :
  Text.forallb p a = true -> Text.forallb p b = true ->
  Text.forallb p (a +:+ b) = true.
Proof.
  induction a as [|c r IH]; simpl; intros Ha Hb; [exact Hb|].
  apply andb_true_iff in Ha as [Hc Hr]. rewrite Hc. simpl. now apply IH.
Qed.

Lemma digit_val_nonneg (c : ascii) :
  Text.is_digit c = true -> (0 <= Text.digit_val c)%Z.
Proof.
  unfold Text.is_digit, Text.digit_val. intros H.
  apply andb_true_iff in H as [H _]. apply Nat.leb_le in H. lia.
Qed.

Lemma digits_val_acc_nonneg (s : string) : forall acc : Z,
  Text.forallb Text.is_digit s = true -> (0 <= acc)%Z ->
  (0 <= Text.digits_val_acc acc s)%Z.
Proof.
  induction s as [|c r IH]; simpl; intros acc Hs Hacc; [exact Hacc|].
  apply andb_true_iff in Hs as [Hc Hr].
  apply IH; [exact Hr|]. pose proof (digit_val_nonneg c Hc). lia.
Qed.

Lemma digits_val_nonneg (s : string) :
  Text.forallb Text.is_digit s = true -> (0 <= Text.digits_val s)%Z.
Proof. intros H. apply digits_val_acc_nonneg; [exact H|lia]. Qed.

Lemma forallb_impl (p q : ascii -> bool) (s : string) :
  (forall c, p c = true -> q c = true) ->
  Text.forallb p s = true -> Text.forallb q s = true.
Proof.
  intros Hpq. induction s as [|c r IH]; simpl; [reflexivity|].
  intros H. apply andb_true_iff in H as [Hc Hr]. rewrite (Hpq c Hc). now apply IH.
Qed.

Lemma span_all (p : ascii -> bool) (s : string) :
  Text.forallb p s = true -> Text.span p s = (s, EmptyString).
Proof.
  induction s as [|c r IH]; simpl; [reflexivity|].
  intros H. apply andb_true_iff in H as [Hc Hr]. rewrite Hc, (IH Hr). reflexivity.
Qed.

Lemma filter_all (p : ascii -> bool) (s : string) :
  Text.forallb p s = true -> Text.filter p s = s.
Proof.
  induction s as [|c r IH]; simpl; [reflexivity|].
  intros H. apply andb_true_iff in H as [Hc Hr]. rewrite Hc, (IH Hr). reflexivity.
Qed.

Lemma rstrip_by_none (p : ascii -> bool) (s : string) :
  Text.forallb (fun c => negb (p c)) s = true -> Text.rstrip_by p s = s.
Proof.
  induction s as [|c r IH]; simpl; [reflexivity|].
  intros H. apply andb_true_iff in H as [Hc Hr]. rewrite (IH Hr).
  apply negb_true_iff in Hc. now rewrite Hc.
Qed.

Lemma lstrip_by_none (p : ascii -> bool) (s : string) :
  Text.forallb (fun c => negb (p c)) s = true -> Text.lstrip_by p s = s.
Proof.
  destruct s as [|c r]; simpl; [reflexivity|].
  intros H. apply andb_true_iff in H as [Hc _].
  apply negb_true_iff in Hc. now rewrite Hc.
Qed.

Lemma digit_range (c : ascii) :
  Text.is_digit c = true -> (48 <= nat_of_ascii c <= 57)%nat.
Proof.
  unfold Text.is_digit. intros H. apply andb_true_iff in H as [H1 H2].
  apply Nat.leb_le in H1, H2. lia.
Qed.

Lemma digit_not_space (c : ascii) :
  Text.is_digit c = true -> negb (Text.is_space c) = true.
Proof.
  intros H. apply digit_range in H. unfold Text.is_space.
  apply negb_true_iff.
  rewrite !orb_false_iff, !andb_false_iff, !Nat.leb_gt, !Nat.eqb_neq. lia.
Qed.

Lemma digit_not_comma (c : ascii) :
  Text.is_digit c = true -> negb (Text.is_char "," c) = true.
Proof.
  intros H. apply negb_true_iff. unfold Text.is_char.
  destruct (Ascii.eqb_spec "," c) as [<-|]; [discriminate|reflexivity].
Qed.

Lemma strip_digits (d : string) :
  Text.forallb Text.is_digit d = true ->
  Text.strip (Text.remove_char "," d) = d.
Proof.
  intros H. unfold Text.remove_char, Text.strip.
  rewrite filter_all by (eapply forallb_impl; [apply digit_not_comma|exact H]).
  rewrite rstrip_by_none by (eapply forallb_impl; [apply digit_not_space|exact H]).
  apply lstrip_by_none. eapply forallb_impl; [apply digit_not_space|exact H].
Qed.

End TextFacts.

Section FloatFacts.
Local Open Scope Z_scope.

Lemma pow2_pos (e : Z) : 0 < Float.pow2 e.
Proof. unfold Float.pow2. apply Z.pow_pos_nonneg; lia. Qed.

Lemma rne_div_nonneg (n d : Z) : 0 <= n -> 0 < d -> 0 <= Float.rne_div n d.
Proof.
  intros Hn Hd. unfold Float.rne_div.
  assert (0 <= n / d) by (apply Z.div_pos; lia).
  repeat match goal with |- context [if ?b then _ else _] => destruct b end; lia.
Qed.

Lemma round_nonneg (p q m e : Z) :
  0 <= p -> 0 < q -> Float.round p q = Float.Finite m e -> 0 <= m.
Proof.
  intros Hp Hq. unfold Float.round.
  destruct (p =? 0); [intros [= <- <-]; lia|].
  match goal with |- context [if ?b then _ else _] => destruct b end; [discriminate|].
  intros [= <- <-]. apply rne_div_nonneg.
  - pose proof (pow2_pos (- Z.max (Float.ilog2_ratio p q - 52) (-1074))). nia.
  - pose proof (pow2_pos (Z.max (Float.ilog2_ratio p q - 52) (-1074))). nia.
Qed.

Lemma mul_int_nonneg (x : Float.float) (k m e : Z) :
  (forall m0 e0, x = Float.Finite m0 e0 -> 0 <= m0) -> 0 <= k ->
  Float.mul_int x k = Float.Finite m e -> 0 <= m.
Proof.
  intros Hx Hk. destruct x as [m0 e0|]; simpl; [|discriminate].
  apply round_nonneg; [|apply pow2_pos].
  pose proof (Hx m0 e0 eq_refl). pose proof (pow2_pos e0). nia.
Qed.

Lemma to_int_nonneg (x : Float.float) (n : Z) :
  (forall m0 e0, x = Float.Finite m0 e0 -> 0 <= m0) ->
  Float.to_int x = Returned n -> 0 <= n.
Proof.
  intros Hx. destruct x as [m0 e0|]; simpl; [|discriminate].
  intros [= <-]. pose proof (Hx m0 e0 eq_refl).
  pose proof (pow2_pos e0). pose proof (pow2_pos (- e0)).
  apply Z.div_pos; nia.
Qed.

Lemma of_string_nonneg (s : string) (m e : Z) :
  Float.of_string s = Returned (Float.Finite m e) -> 0 <= m.
Proof.
  unfold Float.of_string.
  pose proof (forallb_span_fst Text.is_digit s) as Hip.
  destruct (Text.span Text.is_digit s) as [ip rest]; simpl in Hip.
  destruct rest as [|c fp].
  - destruct (Text.is_empty ip); [discriminate|].
    intros [= H]. apply round_nonneg in H; [exact H| |lia].
    now apply digits_val_nonneg.
  - destruct (Text.is_char "." c && Text.forallb Text.is_digit fp
              && negb (Text.is_empty ip && Text.is_empty fp)) eqn:Hc;
      [|discriminate].
    apply andb_true_iff in Hc as [Hc _]. apply andb_true_iff in Hc as [_ Hfp].
    intros [= H]. apply round_nonneg in H; [exact H| |].
    + apply digits_val_nonneg. now apply forallb_append.
    + apply Z.pow_pos_nonneg; lia.
Qed.

(** An integer below [2^53] survives [float] and [int]. *)
Lemma round_int_exact (n : Z) :
  0 <= n < 2 ^ 53 -> Float.to_int (Float.round n 1) = Returned n.
Proof.
  intros [Hn0 Hn]. unfold Float.round.
  destruct (n =? 0) eqn:Hz.
  { apply Z.eqb_eq in Hz as ->. reflexivity. }
  apply Z.eqb_neq in Hz. assert (Hpos : 0 < n) by lia.
  pose proof (Z.log2_nonneg n) as Hl0.
  pose proof (Z.log2_spec n Hpos) as [Hlo Hhi].
  assert (Hl : Z.log2 n < 53) by (apply Z.log2_lt_pow2; lia).
  set (l := Z.log2 n) in *.
  assert (Hil : Float.ilog2_ratio n 1 = l).
  { unfold Float.ilog2_ratio, Float.pow2. change (Z.log2 1) with 0.
    rewrite Z.sub_0_r. fold l.
    rewrite (Z.max_r 0 l) by lia. rewrite (Z.max_l 0 (- l)) by lia.
    rewrite Z.pow_0_r, Z.mul_1_l, Z.mul_1_r.
    destruct (2 ^ l <=? n) eqn:E; [reflexivity|]. apply Z.leb_gt in E. lia. }
  rewrite Hil. rewrite (Z.max_l (l - 52) (-1074)) by lia.
  assert (Hpe : Float.pow2 (l - 52) = 1).
  { unfold Float.pow2. rewrite Z.max_l by lia. reflexivity. }
  assert (Hpn : Float.pow2 (- (l - 52)) = 2 ^ (52 - l)).
  { unfold Float.pow2. rewrite Z.max_r by lia. f_equal. lia. }
  rewrite Hpe, Hpn.
  assert (Hp2 : 0 < 2 ^ (52 - l)) by (apply Z.pow_pos_nonneg; lia).
  assert (Hm : Float.rne_div (n * 2 ^ (52 - l)) (1 * 1) = n * 2 ^ (52 - l)).
  { unfold Float.rne_div. change (1 * 1) with 1.
    rewrite Z.mod_1_r, Z.div_1_r. reflexivity. }
  rewrite Hm.
  assert (Hb : n * 2 ^ (52 - l) < 2 ^ 53).
  { replace (2 ^ 53) with (2 ^ (Z.succ l) * 2 ^ (52 - l)).
    - apply Z.mul_lt_mono_pos_r; assumption.
    - rewrite <- Z.pow_add_r by lia. f_equal. lia. }
  destruct (2 ^ 1024 <=? n * 2 ^ (52 - l) * 1) eqn:E.
  { apply Z.leb_le in E. assert (2 ^ 53 < 2 ^ 1024) by (apply Z.pow_lt_mono_r; lia). lia. }
  unfold Float.to_int. rewrite Hpe, Hpn. rewrite Z.mul_1_r.
  rewrite Z.div_mul by lia. reflexivity.
Qed.

End FloatFacts.

(** ** The Shorthand Numeric Parser *)

Section ShorthandFacts.
Local Open Scope Z_scope.
Import Shorthand.

(** Whatever the parser returns is not negative. *)
Lemma shorthand_nonneg (s : string) (n : Z) :
  _shorthand_to_int s = Returned (Some n) -> 0 <= n.
Proof.
  unfold _shorthand_to_int.
  destruct (Text.is_empty s); [discriminate|].
  set (t := Text.strip (Text.remove_char "," s)).
  destruct (match_shorthand t) as [[g1 g2]|].
  - destruct (Float.of_string g1) as [x|] eqn:Hx; simpl; [|discriminate].
    assert (Hpos : forall m0 e0, x = Float.Finite m0 e0 -> 0 <= m0).
    { intros m0 e0 ->. eapply of_string_nonneg; eauto. }
    assert (Hint : forall y k, (forall m1 e1, y = Float.Finite m1 e1 -> 0 <= m1) ->
              bind (Float.to_int y) (fun n0 => Returned (Some n0)) = Returned (Some k) ->
              0 <= k).
    { intros y k Hy. destruct (Float.to_int y) as [j|] eqn:Hj; simpl; [|discriminate].
      intros [= <-]. eapply to_int_nonneg; eauto. }
    destruct (String.eqb (Text.lower g2) "k");
      [|destruct (String.eqb (Text.lower g2) "m")];
      intros Hb; apply Hint in Hb; try exact Hb; try exact Hpos;
      intros m1 e1 Hm; apply (mul_int_nonneg _ _ _ _ Hpos) in Hm; lia.
  - unfold int_of_digits.
    destruct (Text.is_empty (Text.filter Text.is_digit t)); simpl; [discriminate|].
    destruct (int_max_str_digits <? _)%nat; simpl; [discriminate|].
    intros [= <-]. apply digits_val_nonneg, forallb_filter.
Qed.

Lemma parse_count_nonneg (text : string) (n : Z) :
  _parse_count_from_text text = Returned (Some n) -> 0 <= n.
Proof.
  unfold _parse_count_from_text.
  destruct (Text.is_empty text); [discriminate|].
  destruct (search_count_token text); [apply shorthand_nonneg|discriminate].
Qed.

(** A plain decimal number below [2^53] is parsed to its value. *)
Lemma shorthand_plain_number (d : string) :
  Text.is_empty d = false -> Text.forallb Text.is_digit d = true ->
  (Text.digits_val d < 2 ^ 53)%Z ->
  _shorthand_to_int d = Returned (Some (Text.digits_val d)).
Proof.
  intros Hne Hd Hlt. unfold _shorthand_to_int. rewrite Hne.
  rewrite (strip_digits d Hd).
  assert (Hm : match_shorthand d = Some (d, EmptyString)).
  { unfold match_shorthand.
    rewrite span_all; [now rewrite Hne|].
    eapply forallb_impl; [|exact Hd]. intros c Hc. unfold is_num_char.
    now rewrite Hc. }
  rewrite Hm. unfold Float.of_string. rewrite (span_all _ _ Hd), Hne.
  cbn [bind Text.lower String.eqb].
  rewrite round_int_exact; [reflexivity|].
  split; [now apply digits_val_nonneg|exact Hlt].
Qed.

Lemma parse_count_plain_number (d : string) :
  Text.is_empty d = false -> Text.forallb Text.is_digit d = true ->
  (Text.digits_val d < 2 ^ 53)%Z ->
  _parse_count_from_text d = Returned (Some (Text.digits_val d)).
Proof.
  intros Hne Hd Hlt. unfold _parse_count_from_text. rewrite Hne.
  assert (Hs : search_count_token d = Some d).
  { destruct d as [|c r]; [discriminate|]. cbn [search_count_token].
    unfold count_token_here. rewrite span_all; [reflexivity|].
    eapply forallb_impl; [|exact Hd]. intros a Ha. unfold is_count_char.
    now rewrite Ha. }
  rewrite Hs. now apply shorthand_plain_number.
Qed.

(** X3. The fallback branch: when the pattern does not match, the parser
    returns: with the number that the digits of the text write, and with
    nothing when the text holds no digit or more than 4300 of them. *)
Lemma shorthand_fallback_returns (s : string) :
  match_shorthand (Text.strip (Text.remove_char "," s)) = None ->
  _shorthand_to_int s =
    Returned
      (if Text.is_empty s
          || Text.is_empty (Text.filter Text.is_digit (Text.strip (Text.remove_char "," s)))
          || (4300 <? String.length
                        (Text.filter Text.is_digit (Text.strip (Text.remove_char "," s))))%nat
       then None
       else Some (Text.digits_val
                    (Text.filter Text.is_digit (Text.strip (Text.remove_char "," s))))).
Proof.
  intros H. unfold _shorthand_to_int. destruct (Text.is_empty s); [reflexivity|].
  rewrite H. unfold int_of_digits, int_max_str_digits. simpl.
  destruct (Text.is_empty (Text.filter Text.is_digit _)); [reflexivity|].
  simpl. destruct (4300 <? _)%nat; reflexivity.
Qed.

Lemma shorthand_fallback_returns_witness :
  _shorthand_to_int "abc12x3" = Returned (Some 123)
  /\ _shorthand_to_int "abc" = Returned None
  /\ _shorthand_to_int ("x" +:+ TextSpec.run_of "1" 4301) = Returned None.
Proof.
  split; [|split].
  - apply (shorthand_fallback_returns "abc12x3"). reflexivity.
  - apply (shorthand_fallback_returns "abc"). reflexivity.
  - rewrite (shorthand_fallback_returns ("x" +:+ TextSpec.run_of "1" 4301));
      vm_compute; reflexivity.
Defined.

(** C2 (as the code behaves): on a text that the pattern matches but that
    is no float literal, here one with two dots, [float] raises
    [ValueError] and the parser lets it through; the same holds for a
    lone dot, and a number too large for binary64 ends in
    [OverflowError]. *)
Theorem shorthand_to_int_raises :
  _shorthand_to_int "1.2.3" = Raised ValueError
  /\ _shorthand_to_int "." = Raised ValueError
  /\ _parse_count_from_text "View post analytics." = Raised ValueError.
Proof. repeat split; vm_compute; reflexivity. Qed.

(** The values listed with the parser. *)
Example shorthand_examples :
  _shorthand_to_int "1.2K" = Returned (Some 1200)
  /\ _shorthand_to_int "3M" = Returned (Some 3000000)
  /\ _shorthand_to_int "12,345" = Returned (Some 12345)
  /\ _shorthand_to_int "0" = Returned (Some 0)
  /\ _shorthand_to_int EmptyString = Returned None
  /\ _shorthand_to_int "abc" = Returned None
  /\ _shorthand_to_int "1.001K" = Returned (Some 1000).
Proof. repeat split; vm_compute; reflexivity. Qed.

End ShorthandFacts.

(** ** The Record Extractor *)

Section ExtractorFacts.
Local Open Scope Z_scope.
Import Dom Extractor ExtractorSpec.

Lemma try_except_guarded (m : outcome (option Z)) :
  try_except m (fun _ => Returned None) = Returned (guarded m).
Proof. destruct m; reflexivity. Qed.

Lemma guarded_parse_ok (text : string) :
  count_ok (guarded (Shorthand._parse_count_from_text text)).
Proof.
  intros n. destruct (Shorthand._parse_count_from_text text) as [v|] eqn:H; simpl.
  - intros ->. eapply parse_count_nonneg; eauto.
  - discriminate.
Qed.

Lemma guarded_shorthand_ok (s : string) :
  count_ok (guarded (Shorthand._shorthand_to_int s)).
Proof.
  intros n. destruct (Shorthand._shorthand_to_int s) as [v|] eqn:H; simpl.
  - intros ->. eapply shorthand_nonneg; eauto.
  - discriminate.
Qed.

Lemma count_ok_None : count_ok None.
Proof. intros n; discriminate. Qed.

Lemma action_count_returns (testid : string) (tb : loc) :
  action_count testid tb = Returned (action_value testid tb).
Proof.
  unfold action_count, action_value. rewrite try_except_guarded.
  destruct (List.find _ _); reflexivity.
Qed.

Lemma action_value_ok (testid : string) (tb : loc) : count_ok (action_value testid tb).
Proof.
  unfold action_value. destruct (List.find _ _);
    [apply guarded_parse_ok|apply count_ok_None].
Qed.

Lemma view_count_of_returns (tb : loc) :
  view_count_of tb = Returned (view_value tb).
Proof.
  unfold view_count_of, view_value. rewrite try_except_guarded.
  destruct (find _ _); [reflexivity|].
  destruct (search_views_token _); reflexivity.
Qed.

Lemma view_value_ok (tb : loc) : count_ok (view_value tb).
Proof.
  unfold view_value. destruct (find _ _); [apply guarded_parse_ok|].
  destruct (search_views_token _); [apply guarded_shorthand_ok|apply count_ok_None].
Qed.

Lemma extract_record_returns (tb : loc) :
  extract_record tb = Returned (record_of tb).
Proof.
  unfold extract_record, record_of.
  destruct (user_fields tb) as [[h d] u].
  destruct (time_fields tb) as [[iso rel] tid].
  destruct (content_fields tb) as [[c hs] ms].
  rewrite !action_count_returns, view_count_of_returns. reflexivity.
Qed.

Lemma map_m_returns {A B : Type} (f : A -> outcome B) (g : A -> B) (l : list A) :
  (forall x, f x = Returned (g x)) -> map_m f l = Returned (List.map g l).
Proof.
  intros Hf. induction l as [|x l IH]; simpl; [reflexivity|].
  rewrite Hf, IH. reflexivity.
Qed.

Lemma content_fields_some (tb : loc) : exists c, fst (fst (content_fields tb)) = Some c.
Proof.
  unfold content_fields. destruct (find _ tb).
  - destruct (List.fold_left _ _ _); simpl; eauto.
  - simpl; eauto.
Qed.

Lemma extract_record_invariant (tb : loc) (r : record) :
  extract_record tb = Returned r -> item_record_invariant r.
Proof.
  rewrite extract_record_returns. intros [= <-].
  unfold item_record_invariant; simpl.
  repeat split; try apply action_value_ok; try apply view_value_ok.
  apply content_fields_some.
Qed.

Lemma parse_html_to_df_returns (soup : list node) :
  parse_html_to_df soup = Returned (List.map record_of (tweet_blocks soup)).
Proof. apply map_m_returns, extract_record_returns. Qed.

Lemma action_value_shown (testid : string) (tb : loc) (text : string) :
  shows testid tb text ->
  action_value testid tb = guarded (Shorthand._parse_count_from_text text).
Proof.
  intros (btn & Hb & <-). unfold select_action in Hb. unfold action_value.
  now rewrite Hb.
Qed.

Lemma action_value_plain (testid : string) (tb : loc) (text : string) (n : Z) :
  shows testid tb text -> plain_number text n -> action_value testid tb = Some n.
Proof.
  intros Hs (Hne & Hd & <- & Hlt). rewrite (action_value_shown _ _ _ Hs).
  now rewrite parse_count_plain_number.
Qed.

Lemma action_value_isolated (testid : string) (tb : loc) :
  count_isolated testid tb (action_value testid tb).
Proof.
  split; [|split].
  - unfold select_action, action_value. now intros ->.
  - intros t Ht. now apply action_value_shown.
  - intros t n Ht Hn. now apply (action_value_plain testid tb t n).
Qed.

Lemma view_value_isolated (tb : loc) : view_isolated tb (view_value tb).
Proof.
  unfold view_isolated, view_value, view_text. split.
  - intros view_elem ->. reflexivity.
  - intros ->. split; [now intros g ->|now intros ->].
Qed.

Lemma record_of_extracted (tb : loc) : extracted tb (record_of tb).
Proof.
  unfold extracted, record_of.
  cbn [handle display_name username timestamp_iso timestamp_relative tweet_id
       content hashtags mentions reply_count retweet_count like_count view_count].
  split; [now destruct (user_fields tb) as [[h d] u]|].
  split; [now destruct (time_fields tb) as [[iso rel] tid]|].
  split; [now destruct (content_fields tb) as [[c hs] ms]|].
  repeat (split; [apply action_value_isolated|]). apply view_value_isolated.
Qed.

(** C7. The extractor returns on every document, with one record per
    item block, in the order of the blocks; and every record holds, group
    by group, what each sub-extraction finds in its block on its own.  In
    particular each of the reply, retweet and like counts is what the
    Shorthand Numeric Parser returns on the text of its own control,
    absent where there is no control or where the parser raises on that
    text, and a control that shows a plain decimal number (below [2^53])
    gives that number, whatever becomes of the view count; and the view
    count is absent in a block that has no element labelled with views
    and no views text, and where the parser raises on what is found. *)
Theorem extractor_total_and_isolated (soup : list node) :
  exists rows,
    parse_html_to_df soup = Returned rows
    /\ List.Forall2 extracted (tweet_blocks soup) rows.
Proof.
  exists (List.map record_of (tweet_blocks soup)).
  split; [apply parse_html_to_df_returns|].
  induction (tweet_blocks soup) as [|tb tbs IH]; cbn [List.map]; constructor;
    [apply record_of_extracted|exact IH].
Qed.

(** A block with replies, retweets and likes whose view extraction
    fails: the label of the analytics link is no number. *)
Lemma extractor_total_and_isolated_witness :
  exists r,
    parse_html_to_df [Sample.analytics] = Returned [r]
    /\ view_count r = None
    /\ reply_count r = Some 12 /\ retweet_count r = Some 1200
    /\ like_count r = Some 3000000.
Proof.
  destruct (extractor_total_and_isolated [Sample.analytics]) as (rows & Hrows & Hall).
  assert (Hb : tweet_blocks [Sample.analytics] = [Loc [] Sample.analytics])
    by (vm_compute; reflexivity).
  rewrite Hb in Hall.
  inversion Hall as [|tb r tbs rs Hex Hrest Htb Hr]. inversion Hrest. subst.
  destruct Hex as (_ & _ & _ & Hrc & Hrt & Hlk & Hv).
  exists r. split; [exact Hrows|].
  split; [|split; [|split]].
  - destruct Hv as [Hv _].
    destruct (find label_matches_view (Loc [] Sample.analytics)) as [view_elem|] eqn:Hf;
      [|vm_compute in Hf; discriminate].
    rewrite (Hv view_elem eq_refl). vm_compute in Hf. injection Hf as <-.
    vm_compute. reflexivity.
  - destruct Hrc as (_ & _ & Hplain). apply (Hplain "12").
    + eexists. split; [vm_compute; reflexivity|vm_compute; reflexivity].
    + repeat split.
  - destruct Hrt as (_ & Hshown & _). rewrite (Hshown "1.2K"); [vm_compute; reflexivity|].
    eexists. split; [vm_compute; reflexivity|vm_compute; reflexivity].
  - destruct Hlk as (_ & Hshown & _). rewrite (Hshown "3M"); [vm_compute; reflexivity|].
    eexists. split; [vm_compute; reflexivity|vm_compute; reflexivity].
Defined.

(** C8. Every record the extractor produces has a content that is a
    string, never null, and counts that are each absent or a non-negative
    integer. *)
Theorem extractor_records_invariant (soup : list node) (recs : list record) :
  parse_html_to_df soup = Returned recs ->
  List.Forall item_record_invariant recs.
Proof.
  rewrite parse_html_to_df_returns. intros [= <-].
  apply List.Forall_forall. intros r Hr.
  apply List.in_map_iff in Hr as (tb & <- & _).
  apply (extract_record_invariant tb). apply extract_record_returns.
Qed.

Lemma extractor_records_invariant_witness :
  List.Forall item_record_invariant (List.map record_of (tweet_blocks Sample.soup)).
Proof.
  apply (extractor_records_invariant Sample.soup).
  apply parse_html_to_df_returns.
Defined.

(** A block without any text gets the empty string as its content. *)
Example empty_block_content :
  content (record_of (Loc [] Sample.empty_block)) = Some EmptyString.
Proof. vm_compute. reflexivity. Qed.

(** C10. A block without a content block has its whole visible text as
    content, and its lists of hashtags and mentions are empty, whatever
    links and tokens the block holds. *)
Theorem degraded_block_has_no_tags (tb : loc) (r : record) :
  find (attr_is "data-testid" "tweetText") tb = None ->
  extract_record tb = Returned r ->
  hashtags r = [] /\ mentions r = []
  /\ content r = Some (get_text " " (here tb)).
Proof.
  intros Hc. rewrite extract_record_returns. intros [= <-]. simpl.
  unfold content_fields. rewrite Hc. simpl. repeat split.
Qed.

Lemma degraded_block_has_no_tags_witness :
  let r := record_of (Loc [] Sample.degraded) in
  hashtags r = [] /\ mentions r = []
  /\ content r = Some (get_text " " Sample.degraded).
Proof.
  apply (degraded_block_has_no_tags (Loc [] Sample.degraded)).
  - vm_compute. reflexivity.
  - apply extract_record_returns.
Defined.

End ExtractorFacts.

(** ** The Incremental Collector *)

Section CollectorFacts.
Import Collector CollectorSpec.

Variable source : nat -> list element.
Variable min_count : Z.
Variable pause : Q.

#[local] Abbreviation cum := (cumulative source).

Lemma add_all_seen_before (n : nat) :
  add_all (source n) (seen_before source n) = seen_upto source n.
Proof. destruct n; reflexivity. Qed.




(** One round of the loop, unfolded. *)
Lemma loop_round (fuel n st lastc : nat) :
  loop source min_count pause (S fuel) n (seen_before source n) st lastc =
    let c := cum n in
    if (min_count <=? Z.of_nat c)%Z then ([RoundLog c st], Returned c)
    else
      let st' := if (c <=? lastc)%nat then S st else O in
      if (6 <=? st')%nat then ([RoundLog c st'], Returned c)
      else
        match sleep pause with
        | Raised e => ([RoundLog c st'], Raised e)
        | Returned _ =>
            let '(log, r) :=
              loop source min_count pause fuel (S n) (seen_before source (S n)) st' c in
            (RoundLog c st' :: log, r)
        end.
Proof.
  cbn [loop]. rewrite add_all_seen_before. reflexivity.
Qed.

(** What the trace of the loop says about counts and termination. *)
Lemma loop_counts (fuel : nat) : forall (n st lastc : nat) log r,
  loop source min_count pause fuel n (seen_before source n) st lastc = (log, r) ->
  (List.length log <= fuel)%nat
  /\ (forall i rl, log !! i = Some rl -> count rl = cum (n + i))
  /\ (forall i rl, log !! i = Some rl -> (S i < List.length log)%nat ->
        (Z.of_nat (count rl) < min_count)%Z)
  /\ (forall i rl, log !! i = Some rl -> (min_count <= Z.of_nat (count rl))%Z ->
        S i = List.length log /\ r = Returned (count rl))
  /\ (forall c, r = Returned c ->
        c = match List.length log with
            | O => size (seen_before source n)
            | S j => cum (n + j)
            end)
  /\ (forall e, r = Raised e -> Qle_bool 0 pause = false).
Proof.
  induction fuel as [|fuel IH]; intros n st lastc log r.
  - simpl. intros [= <- <-].
    split; [simpl; lia|]. split; [intros i rl Hi; simplify_eq/=|].
    split; [intros i rl Hi; simplify_eq/=|]. split; [intros i rl Hi; simplify_eq/=|].
    split; [intros c [= <-]; reflexivity|intros e; discriminate].
  - rewrite loop_round. cbv zeta.
    destruct (min_count <=? Z.of_nat (cum n))%Z eqn:Hmin.
    { intros [= <- <-]. apply Z.leb_le in Hmin. simpl.
      split; [lia|].
      split; [intros [|i] rl Hi; simplify_eq/=; now rewrite Nat.add_0_r|].
      split; [intros [|i] rl Hi Hl; simplify_eq/=; lia|].
      split; [intros [|i] rl Hi Hge; simplify_eq/=; split; reflexivity|].
      split; [intros c [= <-]; now rewrite Nat.add_0_r|intros e; discriminate]. }
    apply Z.leb_gt in Hmin.
    set (st' := if (cum n <=? lastc)%nat then S st else O).
    destruct (6 <=? st')%nat.
    { intros [= <- <-]. simpl.
      split; [lia|].
      split; [intros [|i] rl Hi; simplify_eq/=; now rewrite Nat.add_0_r|].
      split; [intros [|i] rl Hi Hl; simplify_eq/=; lia|].
      split; [intros [|i] rl Hi Hge; simplify_eq/=; lia|].
      split; [intros c [= <-]; now rewrite Nat.add_0_r|intros e; discriminate]. }
    unfold sleep. destruct (Qle_bool 0 pause) eqn:Hp.
    2:{ intros [= <- <-]. simpl.
        split; [lia|].
        split; [intros [|i] rl Hi; simplify_eq/=; now rewrite Nat.add_0_r|].
        split; [intros [|i] rl Hi Hl; simplify_eq/=; lia|].
        split; [intros [|i] rl Hi Hge; simplify_eq/=; lia|].
        split; [intros c; discriminate|intros e _; reflexivity]. }
    destruct (loop source min_count pause fuel (S n) (seen_before source (S n)) st' (cum n))
      as [log' r'] eqn:Hrec.
    intros [= <- <-].
    destruct (IH _ _ _ _ _ Hrec) as (Hlen & Hcnt & Hlt & Hge & Hret & Hraise).
    simpl.
    split; [lia|].
    split.
    { intros [|i] rl Hi; simplify_eq/=; [now rewrite Nat.add_0_r|].
      rewrite (Hcnt _ _ Hi). f_equal. lia. }
    split.
    { intros [|i] rl Hi Hl; simplify_eq/=; [lia|]. apply (Hlt _ _ Hi). lia. }
    split.
    { intros [|i] rl Hi Hg; simplify_eq/=; [lia|].
      destruct (Hge _ _ Hi Hg) as [-> ->]. split; reflexivity. }
    split.
    { intros c Hc. rewrite (Hret c Hc).
      destruct (List.length log') as [|j]; simpl.
      - now rewrite Nat.add_0_r.
      - f_equal. lia. }
    exact Hraise.
Qed.








End CollectorFacts.





Example stalled_trace :
  List.map (fun rl => (Collector.count rl, Collector.stall rl))
           (fst (Collector.collect (CollectorSpec.plateau 2 1) 500 (8 # 10) 300))
  = [(2, 0); (4, 0); (4, 1); (4, 2); (4, 3); (4, 4); (4, 5); (4, 6)]%nat.
Proof. vm_compute. reflexivity. Qed.

Example empty_source_trace :
  List.map (fun rl => (Collector.count rl, Collector.stall rl))
           (fst (Collector.collect (fun _ => []) 500 (8 # 10) 300))
  = [(0, 1); (0, 2); (0, 3); (0, 4); (0, 5); (0, 6)]%nat.
Proof. vm_compute. reflexivity. Qed.

(** A negative pause makes the first sleep raise. *)
Example negative_pause_raises :
  Collector.ensure_min_tweets_loaded (CollectorSpec.fixed_rate 3) 10 (- 8 # 10) 300
  = Raised ValueError.
Proof. vm_compute. reflexivity. Qed.

(** ** The Fingerprint Resolver *)

Section FingerprintFacts.
Import Collector CollectorSpec.

Lemma append_cons (a : ascii) (p r : string) :
  String a p +:+ r = String a (p +:+ r).
Proof. reflexivity. Qed.

Lemma starts_with_drop (p s : string) :
  Text.starts_with p s = true -> s = p +:+ Text.drop (String.length p) s.
Proof.
  revert s. induction p as [|a p IH]; intros s; simpl; [reflexivity|].
  destruct s as [|b s]; [discriminate|].
  intros H. apply andb_true_iff in H as [Hab Hp].
  apply Ascii.eqb_eq in Hab as ->. rewrite append_cons. f_equal. apply IH, Hp.
Qed.

Lemma starts_with_append (p r : string) : Text.starts_with p (p +:+ r) = true.
Proof.
  induction p as [|a p IH]; [reflexivity|].
  rewrite append_cons. simpl. rewrite Ascii.eqb_refl. exact IH.
Qed.

Lemma drop_append (p r : string) : Text.drop (String.length p) (p +:+ r) = r.
Proof. induction p as [|a p IH]; [reflexivity|rewrite append_cons; exact IH]. Qed.

Lemma span_append (f : ascii -> bool) (s a b : string) :
  Text.span f s = (a, b) ->
  s = a +:+ b /\ Text.forallb f a = true
  /\ match b with String c _ => f c = false | EmptyString => True end.
Proof.
  revert a b. induction s as [|c r IH]; simpl; intros a b.
  - intros [= <- <-]. repeat split.
  - destruct (f c) eqn:Hc.
    + destruct (Text.span f r) as [a' b'] eqn:Hs. intros [= <- <-].
      destruct (IH a' b' eq_refl) as (-> & Ha & Hb).
      rewrite append_cons. simpl. rewrite Hc. repeat split; assumption.
    + intros [= <- <-]. repeat split. exact Hc.
Qed.

Lemma status_here_sound (s d : string) :
  status_here s = Some d ->
  Text.is_empty d = false /\ Text.forallb Text.is_digit d = true
  /\ exists post,
       s = "/status/" +:+ d +:+ post
       /\ match post with String c _ => Text.is_digit c = false | EmptyString => True end.
Proof.
  unfold status_here. destruct (Text.starts_with "/status/" s) eqn:Hs; [|discriminate].
  apply starts_with_drop in Hs. change (String.length "/status/") with 8%nat in Hs.
  destruct (Text.span Text.is_digit (Text.drop 8 s)) as [d' post] eqn:Hsp.
  destruct (Text.is_empty d') eqn:He; [discriminate|]. intros [= <-].
  destruct (span_append _ _ _ _ Hsp) as (Hd & Hall & Hpost).
  split; [exact He|]. split; [exact Hall|]. exists post. split; [|exact Hpost].
  rewrite Hs at 1. now rewrite Hd.
Qed.

(** What [re.search] returns is the run of digits of a permalink segment. *)
Lemma search_status_sound (s d : string) :
  search_status s = Some d -> permalink_id s d.
Proof.
  induction s as [|c r IH]; simpl.
  - discriminate.
  - destruct (status_here (String c r)) as [d'|] eqn:Hh.
    + intros [= ->]. destruct (status_here_sound _ _ Hh) as (He & Hall & post & Hs & Hp).
      split; [exact He|]. split; [exact Hall|]. exists EmptyString, post. split; assumption.
    + intros H. destruct (IH H) as (He & Hall & pre & post & Hs & Hp).
      split; [exact He|]. split; [exact Hall|]. exists (String c pre), post.
      split; [|exact Hp]. rewrite append_cons. now rewrite Hs.
Qed.

(** And it finds one whenever the text holds one. *)
Lemma search_status_complete (s : string) :
  has_permalink s -> exists d, search_status s = Some d.
Proof.
  intros (pre & c & post & -> & Hc).
  induction pre as [|a pre IH].
  - change (EmptyString +:+ "/status/" +:+ String c post)
      with (String "/" ("status/" +:+ String c post)).
    assert (exists d, status_here (String "/" ("status/" +:+ String c post)) = Some d)
      as [d Hd].
    { change (String "/" ("status/" +:+ String c post))
        with ("/status/" +:+ String c post).
      unfold status_here. rewrite starts_with_append.
      change 8%nat with (String.length "/status/"). rewrite drop_append.
      simpl. rewrite Hc. destruct (Text.span Text.is_digit post). simpl. eauto. }
    exists d. cbn [search_status]. now rewrite Hd.
  - destruct IH as [d Hd].
    change (String a pre +:+ "/status/" +:+ String c post)
      with (String a (pre +:+ "/status/" +:+ String c post)).
    cbn [search_status].
    destruct (status_here (String a (pre +:+ "/status/" +:+ String c post))); eauto.
Qed.

Lemma search_status_none (s : string) :
  search_status s = None -> ~ has_permalink s.
Proof.
  intros Hn Hp. destruct (search_status_complete s Hp) as [d Hd]. congruence.
Qed.

Lemma permalink_id_nonempty (s d : string) :
  search_status s = Some d -> Text.is_empty d = false.
Proof. intros H. apply (search_status_sound s d H). Qed.

Lemma status_here_complete (c : ascii) (rest : string) :
  Text.is_digit c = true ->
  exists d, status_here ("/status/" +:+ String c rest) = Some d.
Proof.
  intros Hc. unfold status_here. rewrite starts_with_append.
  change 8%nat with (String.length "/status/"). rewrite drop_append.
  simpl. rewrite Hc. destruct (Text.span Text.is_digit rest). simpl. eauto.
Qed.

Lemma span_run (p : ascii -> bool) (d post : string) :
  Text.forallb p d = true ->
  match post with String c _ => p c = false | EmptyString => True end ->
  Text.span p (d +:+ post) = (d, post).
Proof.
  intros Hd Hpost. induction d as [|a d IH].
  - change (EmptyString +:+ post) with post.
    destruct post as [|c r]; [reflexivity|]. simpl. now rewrite Hpost.
  - rewrite append_cons. simpl in *. apply andb_true_iff in Hd as [Ha Hd].
    rewrite Ha, (IH Hd). reflexivity.
Qed.

Lemma status_here_run (d post : string) :
  Text.is_empty d = false -> Text.forallb Text.is_digit d = true ->
  match post with String c _ => Text.is_digit c = false | EmptyString => True end ->
  status_here ("/status/" +:+ d +:+ post) = Some d.
Proof.
  intros Hne Hd Hpost. unfold status_here. rewrite starts_with_append.
  change 8%nat with (String.length "/status/"). rewrite drop_append.
  rewrite (span_run _ _ _ Hd Hpost). now rewrite Hne.
Qed.

(** What [re.search] returns is the run of digits of the leftmost segment. *)
Lemma search_status_leftmost (s d : string) :
  search_status s = Some d -> leftmost_permalink_id s d.
Proof.
  induction s as [|c r IH]; simpl; [discriminate|].
  destruct (status_here (String c r)) as [d'|] eqn:Hh.
  - intros [= ->]. destruct (status_here_sound _ _ Hh) as (He & Hall & post & Hs & Hp).
    split; [exact He|]. split; [exact Hall|]. exists EmptyString, post.
    split; [exact Hs|]. split; [exact Hp|]. intros; simpl; lia.
  - intros H. destruct (IH H) as (He & Hall & pre & post & Hs & Hp & Hleft).
    split; [exact He|]. split; [exact Hall|]. exists (String c pre), post.
    split; [rewrite append_cons; now rewrite Hs|]. split; [exact Hp|].
    intros pre' c0 rest Heq Hc0. destruct pre' as [|a pre'].
    + exfalso. change (EmptyString +:+ "/status/" +:+ String c0 rest)
        with ("/status/" +:+ String c0 rest) in Heq.
      destruct (status_here_complete c0 rest Hc0) as [d0 Hd0].
      rewrite <- Heq in Hd0. congruence.
    + rewrite append_cons in Heq. injection Heq as _ Heq.
      simpl. apply le_n_S. exact (Hleft pre' c0 rest Heq Hc0).
Qed.

(** And the leftmost segment is what it returns. *)
Lemma leftmost_search_status (s d : string) :
  leftmost_permalink_id s d -> search_status s = Some d.
Proof.
  intros (He & Hall & pre & post & -> & Hp & Hleft).
  induction pre as [|a pre IH].
  - change (EmptyString +:+ "/status/" +:+ d +:+ post) with ("/status/" +:+ d +:+ post).
    pose proof (status_here_run d post He Hall Hp) as Hh.
    change ("/status/" +:+ d +:+ post) with (String "/" ("status/" +:+ d +:+ post)) in *.
    cbn [search_status]. now rewrite Hh.
  - rewrite append_cons. cbn [search_status].
    destruct (status_here (String a (pre +:+ "/status/" +:+ d +:+ post))) as [d1|] eqn:Hh.
    + exfalso. destruct (status_here_sound _ _ Hh) as (He1 & Hall1 & post1 & Hs1 & _).
      destruct d1 as [|c1 d1]; [discriminate|].
      cbn [Text.forallb] in Hall1. apply andb_true_iff in Hall1 as [Hc1 _].
      assert (Heq : String a pre +:+ "/status/" +:+ d +:+ post
                    = EmptyString +:+ "/status/" +:+ String c1 (d1 +:+ post1))
        by (rewrite (append_cons a pre), Hs1; reflexivity).
      specialize (Hleft _ _ _ Heq Hc1). simpl in Hleft. lia.
    + apply IH. intros pre' c rest Heq Hc.
      assert (Heq' : String a pre +:+ "/status/" +:+ d +:+ post
                     = String a pre' +:+ "/status/" +:+ String c rest)
        by (rewrite (append_cons a pre), (append_cons a pre'); now rewrite Heq).
      specialize (Hleft _ _ _ Heq' Hc). simpl in Hleft. lia.
Qed.

Lemma has_permalink_leftmost (s : string) :
  has_permalink s -> exists d, leftmost_permalink_id s d.
Proof.
  intros Hp. destruct (search_status_complete s Hp) as [d Hd].
  exists d. now apply search_status_leftmost.
Qed.

Lemma add_all_app (l1 l2 : list element) (seen : gset string) :
  add_all (l1 ++ l2) seen = add_all l2 (add_all l1 seen).
Proof. unfold add_all. apply List.fold_left_app. Qed.

Lemma add_all_skips (el : element) (e : exn) (before after : list element)
      (seen : gset string) :
  fingerprint el = Raised e ->
  add_all (before ++ el :: after) seen = add_all (before ++ after) seen.
Proof.
  intros Hf. rewrite !add_all_app. unfold add_all at 1. cbn [List.fold_left].
  rewrite Hf. reflexivity.
Qed.

(** C6 (as the code behaves). An element whose markup cannot be read
    yields no fingerprint: the error goes to the loop, which skips the
    element, so that the set of fingerprints is the one of the other
    elements.  Otherwise: a markup that holds a permalink segment gives
    the digits of its leftmost one, whatever surrounds it; a markup
    without one gives the digits of the leftmost permalink in the [href]
    of the link below the element when the driver finds such a link; and
    only when that fails too, the [sha1-] prefix followed by the SHA-1 of
    the markup, which depends on the markup alone. *)
Theorem fingerprint_resolution (el : element) :
  (forall e, outer_html el = Raised e ->
     fingerprint el = Raised e
     /\ forall before after seen,
          add_all (before ++ el :: after) seen = add_all (before ++ after) seen)
  /\ (forall o, outer_html el = Returned o ->
        (forall d, leftmost_permalink_id (or_empty o) d -> fingerprint el = Returned d)
        /\ (has_permalink (or_empty o) ->
              exists d, leftmost_permalink_id (or_empty o) d /\ fingerprint el = Returned d)
        /\ (~ has_permalink (or_empty o) ->
              (forall h d, status_link_href el = Returned h ->
                 leftmost_permalink_id (or_empty h) d -> fingerprint el = Returned d)
              /\ (forall h, status_link_href el = Returned h ->
                    has_permalink (or_empty h) ->
                    exists d, leftmost_permalink_id (or_empty h) d
                              /\ fingerprint el = Returned d)
              /\ ((forall h, status_link_href el = Returned h ->
                     ~ has_permalink (or_empty h)) ->
                  fingerprint el
                  = Returned ("sha1-" +:+ sha1_hexdigest (or_empty o))))).
Proof.
  split.
  - intros e He.
    assert (Hf : fingerprint el = Raised e) by (unfold fingerprint; now rewrite He).
    split; [exact Hf|]. intros before after seen. now apply (add_all_skips el e).
  - intros o Ho.
    assert (Hmark : forall d, leftmost_permalink_id (or_empty o) d ->
                              fingerprint el = Returned d).
    { intros d Hd. unfold fingerprint. rewrite Ho. cbn [bind].
      rewrite (leftmost_search_status _ _ Hd). cbn [bind].
      destruct Hd as (-> & _). reflexivity. }
    assert (Hnone : ~ has_permalink (or_empty o) -> search_status (or_empty o) = None).
    { intros Hno. destruct (search_status (or_empty o)) as [d0|] eqn:Hs; [|reflexivity].
      exfalso. apply Hno. destruct (search_status_sound _ _ Hs) as (He & Hall & pre & post & Hs' & _).
      destruct d0 as [|c d0]; [discriminate|].
      exists pre, c, (d0 +:+ post). split; [exact Hs'|].
      cbn [Text.forallb] in Hall. now apply andb_true_iff in Hall as [Hc _]. }
    assert (Hlink : ~ has_permalink (or_empty o) ->
              forall h d, status_link_href el = Returned h ->
                leftmost_permalink_id (or_empty h) d -> fingerprint el = Returned d).
    { intros Hno h d Hh Hd. unfold fingerprint. rewrite Ho. cbn [bind].
      rewrite (Hnone Hno), Hh. cbn [bind try_except].
      rewrite (leftmost_search_status _ _ Hd). destruct Hd as (-> & _). reflexivity. }
    split; [exact Hmark|]. split; [|intros Hno; split; [|split]].
    + intros Hp. destruct (has_permalink_leftmost _ Hp) as [d Hd]. eauto.
    + now apply Hlink.
    + intros h Hh Hp. destruct (has_permalink_leftmost _ Hp) as [d Hd]. eauto.
    + intros Hnolink. unfold fingerprint. rewrite Ho. cbn [bind]. rewrite (Hnone Hno).
      destruct (status_link_href el) as [h|e] eqn:Hh; cbn [bind try_except]; [|reflexivity].
      destruct (search_status (or_empty h)) as [d1|] eqn:Hd1; [|reflexivity].
      exfalso. apply (Hnolink h eq_refl).
      destruct (search_status_sound _ _ Hd1) as (He & Hall & pre & post & Hs & _).
      destruct d1 as [|c d1]; [discriminate|].
      exists pre, c, (d1 +:+ post). split; [exact Hs|].
      cbn [Text.forallb] in Hall. now apply andb_true_iff in Hall as [Hc _].
Qed.

(** A post with a permalink, one without any, and a stale element
    between two posts. *)
Lemma fingerprint_resolution_witness :
  fingerprint (post 12) = Returned "12"
  /\ fingerprint (anonymous "hi")
     = Returned "sha1-337737efcd60bf92b3606de6a7e7191e9dd28315"
  /\ add_all [post 12; stale; post 13] ∅ = add_all [post 12; post 13] ∅.
Proof.
  split; [|split].
  - destruct (fingerprint_resolution (post 12)) as [_ H].
    destruct (H _ eq_refl) as [Hl _]. apply Hl.
    apply search_status_leftmost. vm_compute. reflexivity.
  - destruct (fingerprint_resolution (anonymous "hi")) as [_ H].
    destruct (H _ eq_refl) as (_ & _ & Hn).
    destruct Hn as (_ & _ & Hsha).
    + apply search_status_none. vm_compute. reflexivity.
    + rewrite Hsha; [vm_compute; reflexivity|]. intros h; discriminate.
  - destruct (fingerprint_resolution stale) as [H _].
    destruct (H _ eq_refl) as [_ Hskip].
    exact (Hskip [post 12] [post 13] ∅).
Defined.

(** C6 as stated fails: this element's markup holds no permalink segment,
    yet its fingerprint is the id found in the link the driver resolves,
    not a hash; and an element whose markup cannot be read yields no string. *)
Lemma fingerprint_not_always_hash :
  outer_html resolved_link
  = Returned (Some "<article><a href='/u/status/./42'>1h</a></article>")
  /\ ~ has_permalink "<article><a href='/u/status/./42'>1h</a></article>"
  /\ fingerprint resolved_link = Returned "42"
  /\ Text.starts_with "sha1-" "42" = false
  /\ fingerprint stale = Raised WebDriverException.
Proof.
  split; [reflexivity|]. split; [apply search_status_none; vm_compute; reflexivity|].
  repeat split; vm_compute; reflexivity.
Qed.

End FingerprintFacts.

(** ** Container Capture *)

Section CaptureFacts.
Import Collector Capture CaptureSpec.

Lemma acceptable_iff (outer : option string) :
  acceptable outer = true <->
  exists html, outer = Some html /\ (50 < String.length html)%nat.
Proof.
  unfold acceptable. destruct outer as [o|].
  - split.
    + intros H. apply andb_true_iff in H as [_ H]. apply Nat.ltb_lt in H. eauto.
    + intros (html & [= ->] & H). apply andb_true_iff. split.
      * destruct html; [simpl in H; lia|reflexivity].
      * now apply Nat.ltb_lt.
  - split; [discriminate|]. intros (html & H & _). discriminate.
Qed.

Lemma first_capture_some (pg : page) (sels : list string) (sel html : string) :
  first_capture pg sels = Some (sel, html) ->
  exists before after,
    sels = before ++ sel :: after
    /\ container pg sel = Returned (Some html)
    /\ (50 < String.length html)%nat
    /\ List.Forall (fun s => ~ accepted_by pg s) before.
Proof.
  induction sels as [|s0 sels IH]; simpl; [discriminate|].
  assert (Hskip : first_capture pg sels = Some (sel, html) ->
                  ~ accepted_by pg s0 ->
                  exists before after,
                    s0 :: sels = before ++ sel :: after
                    /\ container pg sel = Returned (Some html)
                    /\ (50 < String.length html)%nat
                    /\ List.Forall (fun s => ~ accepted_by pg s) before).
  { intros H Hn. destruct (IH H) as (before & after & -> & Hc & Hl & Hf).
    exists (s0 :: before), after. repeat split; auto. }
  destruct (container pg s0) as [outer|e] eqn:Hc0.
  - destruct (acceptable outer) eqn:Hacc.
    + intros [= <- <-]. apply acceptable_iff in Hacc as (h & -> & Hl).
      exists [], sels. repeat split; auto.
    + intros H. apply Hskip; [exact H|].
      intros (h & Hh & Hl). rewrite Hc0 in Hh. injection Hh as ->.
      assert (acceptable (Some h) = true) by (apply acceptable_iff; eauto). congruence.
  - intros H. apply Hskip; [exact H|].
    intros (h & Hh & _). rewrite Hc0 in Hh. discriminate.
Qed.

Lemma first_capture_none (pg : page) (sels : list string) :
  first_capture pg sels = None -> List.Forall (fun s => ~ accepted_by pg s) sels.
Proof.
  induction sels as [|s0 sels IH]; simpl; [constructor|].
  destruct (container pg s0) as [outer|e] eqn:Hc0.
  - destruct (acceptable outer) eqn:Hacc; [discriminate|].
    intros H. constructor; [|auto].
    intros (h & Hh & Hl). rewrite Hc0 in Hh. injection Hh as ->.
    assert (acceptable (Some h) = true) by (apply acceptable_iff; eauto). congruence.
  - intros H. constructor; [|auto].
    intros (h & Hh & _). rewrite Hc0 in Hh. discriminate.
Qed.

Lemma join_nonempty (sep : string) (c : ascii) (p : string) (rest : list string) :
  Text.is_empty (Text.join sep (String c p :: rest)) = false.
Proof. destruct rest; reflexivity. Qed.

Lemma wrapper_nonempty (ts : list element) : Text.is_empty (wrapper ts) = false.
Proof. unfold wrapper. apply join_nonempty. Qed.

Lemma tweet_markups_all (ts : list element) :
  List.Forall readable ts -> tweet_markups ts = List.map markup_of ts.
Proof.
  induction 1 as [|t ts [o Ho] _ IH]; simpl; [reflexivity|].
  unfold markup_of at 1. rewrite Ho. now rewrite IH.
Qed.

Lemma tweet_markups_readable (ts : list element) :
  tweet_markups ts = List.map markup_of (List.filter is_readable ts).
Proof.
  induction ts as [|t ts IH]; [reflexivity|].
  cbn [tweet_markups List.filter]. unfold is_readable.
  destruct (outer_html t) as [o|e] eqn:Ho; cbn [List.map]; [|exact IH].
  unfold markup_of at 1. rewrite Ho. now rewrite IH.
Qed.

(** C9. The capture that is accepted comes from the first selector, in
    the order of the list, whose markup exists and is longer than 50
    characters.  It is given up for the wrapper exactly when at least one
    element is enumerated and the capture holds fewer than
    [max(10, n // 4)] item tags, [n] being the number of enumerated
    elements and [//] the floor quotient.  The wrapper is the opening tag,
    the markup of every enumerated element whose markup could be read, in
    the order of the enumeration, and the closing tag, joined by
    newlines; an element that could not be read takes nothing with it. *)
Theorem capture_policy (pg : page) :
  let n := List.length (tweets pg) in
  (forall sel html,
     first_capture pg selectors = Some (sel, html) ->
     (exists before after,
        selectors = before ++ sel :: after
        /\ container pg sel = Returned (Some html)
        /\ (50 < String.length html)%nat
        /\ List.Forall (fun s => ~ accepted_by pg s) before)
     /\ (fallback_needed (Some html) n = true <->
         (0 < n)%nat /\ (article_count html < Nat.max 10 (n / 4))%nat)
     /\ grab_entire_div_html pg
        = Some (if fallback_needed (Some html) n then wrapper (tweets pg) else html))
  /\ (first_capture pg selectors = None ->
      List.Forall (fun s => ~ accepted_by pg s) selectors
      /\ grab_entire_div_html pg = Some (wrapper (tweets pg)))
  /\ wrapper (tweets pg)
     = Text.join newline
         (["<div id='x-scraper-wrapper'>"]
            ++ List.map markup_of (List.filter is_readable (tweets pg)) ++ ["</div>"])
  /\ (List.Forall readable (tweets pg) ->
      wrapper (tweets pg)
      = Text.join newline
          (["<div id='x-scraper-wrapper'>"] ++ List.map markup_of (tweets pg)
             ++ ["</div>"])).
Proof.
  intros n. split; [|split; [|split]].
  - intros sel html Hfc.
    destruct (first_capture_some _ _ _ _ Hfc) as (before & after & Hsel & Hc & Hl & Hf).
    assert (Hne : Text.is_empty html = false).
    { destruct html; [simpl in Hl; lia|reflexivity]. }
    split; [eauto 10|]. split.
    + unfold fallback_needed. rewrite Hne. simpl.
      rewrite andb_true_r. rewrite andb_true_iff, !Nat.ltb_lt. reflexivity.
    + unfold grab_entire_div_html. rewrite Hfc. cbn [option_map snd].
      fold n. destruct (fallback_needed (Some html) n).
      * now rewrite wrapper_nonempty.
      * now rewrite Hne.
  - intros Hfc. split; [now apply first_capture_none|].
    unfold grab_entire_div_html. rewrite Hfc. simpl. now rewrite wrapper_nonempty.
  - unfold wrapper. now rewrite tweet_markups_readable.
  - intros Hall. unfold wrapper. now rewrite (tweet_markups_all _ Hall).
Qed.

(** A feed with two item tags while twelve posts are enumerated is given
    up for the wrapper; one with twelve item tags is kept; and a stale
    element between two posts leaves the two posts in the wrapper. *)
Lemma capture_policy_witness :
  grab_entire_div_html (feed_page 2 12) = Some (wrapper (tweets (feed_page 2 12)))
  /\ grab_entire_div_html (feed_page 12 12) = Some (articles 12)
  /\ grab_entire_div_html gapped_page
     = Some (Text.join newline
               ["<div id='x-scraper-wrapper'>"; markup_of (CollectorSpec.post 1);
                markup_of (CollectorSpec.post 2); "</div>"]).
Proof.
  split; [|split].
  - destruct (capture_policy (feed_page 2 12)) as [H _].
    destruct (H _ _ eq_refl) as (_ & Hfb & Hg).
    rewrite Hg. destruct Hfb as [_ Hfb]. rewrite Hfb; [reflexivity|].
    vm_compute. lia.
  - destruct (capture_policy (feed_page 12 12)) as [H _].
    destruct (H _ _ eq_refl) as (_ & _ & Hg).
    rewrite Hg. vm_compute. reflexivity.
  - destruct (capture_policy gapped_page) as (_ & Hnone & Hw & _).
    destruct (Hnone eq_refl) as [_ Hg]. rewrite Hg, Hw. reflexivity.
Defined.

(** The quotient is the floor quotient: with ten item tags, 41 enumerated
    posts keep the capture and 44 give it up. *)
Example capture_floor_quotient :
  fallback_needed (Some (articles 10)) 41 = false
  /\ fallback_needed (Some (articles 10)) 44 = true.
Proof. split; vm_compute; reflexivity. Qed.

(** With no capture at all the wrapper is built even around no element,
    so the function never answers [None]. *)
Example capture_of_empty_page :
  grab_entire_div_html (Page (fun _ => Raised WebDriverException) [])
  = Some ("<div id='x-scraper-wrapper'>" +:+ newline +:+ "</div>").
Proof. vm_compute. reflexivity. Qed.

End CaptureFacts.

(** ** The aggregation of [run] *)

Section AggregateFacts.
Import Extractor Orchestrator OrchestratorSpec.

Lemma drop_duplicates_from_sublist (rows : list row) : forall seen,
  sublist (drop_duplicates_from seen rows) rows.
Proof.
  induction rows as [|r rows IH]; intros seen; simpl; [constructor|].
  case_bool_decide; [apply sublist_cons, IH|apply sublist_skip, IH].
Qed.

Lemma drop_duplicates_from_fresh (rows : list row) : forall seen r,
  r ∈ drop_duplicates_from seen rows -> item_id r ∉ seen.
Proof.
  induction rows as [|r0 rows IH]; intros seen r; simpl.
  - intros H. inversion H.
  - case_bool_decide as Hin.
    + apply IH.
    + intros [->|Hr]%elem_of_cons; [exact Hin|].
      apply IH in Hr. set_solver.
Qed.

Lemma drop_duplicates_from_nodup (rows : list row) : forall seen,
  NoDup (item_id <$> drop_duplicates_from seen rows).
Proof.
  induction rows as [|r0 rows IH]; intros seen; simpl; [constructor|].
  case_bool_decide as Hin; [apply IH|].
  rewrite fmap_cons. constructor; [|apply IH].
  intros (r & Heq & Hr)%list_elem_of_fmap.
  apply drop_duplicates_from_fresh in Hr. set_solver.
Qed.

(** Of the rows with a given id the first one survives, and no other. *)
Lemma drop_duplicates_from_first (k : option string) (rows : list row) : forall seen,
  filter (fun r => item_id r = k) (drop_duplicates_from seen rows)
  = if decide (k ∈ seen) then []
    else take 1 (filter (fun r => item_id r = k) rows).
Proof.
  induction rows as [|r0 rows IH]; intros seen; simpl.
  - now destruct (decide (k ∈ seen)).
  - case_bool_decide as Hin.
    + rewrite IH. destruct (decide (k ∈ seen)) as [Hk|Hk]; [reflexivity|].
      rewrite filter_cons_False; [reflexivity|].
      intros Heq. rewrite <- Heq in Hk. contradiction.
    + destruct (decide (item_id r0 = k)) as [Heq|Hne].
      * rewrite !filter_cons_True by exact Heq. rewrite IH. subst k.
        destruct (decide (item_id r0 ∈ item_id r0 :: seen)) as [_|Hn]; [|set_solver].
        destruct (decide (item_id r0 ∈ seen)); [contradiction|reflexivity].
      * rewrite !filter_cons_False by exact Hne. rewrite IH.
        destruct (decide (k ∈ seen)) as [Hk|Hk];
          destruct (decide (k ∈ item_id r0 :: seen)) as [Hk'|Hk'];
          try reflexivity; exfalso.
        -- apply Hk'. set_solver.
        -- apply elem_of_cons in Hk' as [?|?]; [congruence|contradiction].
Qed.

(** C1 (as the code behaves). The aggregate is the concatenation of the
    batches with rows removed, in the same order; no two of its rows carry
    the same item id; and of the rows that carry a given id it holds the
    first, in the order in which the hashtags were processed, and no
    other.  The absent id counts as an id here: of the rows without an id
    only the first one is in the aggregate. *)
Theorem aggregate_keeps_first_per_id (all_dfs : list (list row)) :
  let rows := List.concat all_dfs in
  let final := aggregate all_dfs in
  sublist final rows
  /\ NoDup (item_id <$> final)
  /\ (forall k : option string,
        filter (fun r => item_id r = k) final
        = take 1 (filter (fun r => item_id r = k) rows)).
Proof.
  unfold aggregate, drop_duplicates. cbv zeta. split; [|split].
  - apply drop_duplicates_from_sublist.
  - apply drop_duplicates_from_nodup.
  - intros k. rewrite drop_duplicates_from_first.
    rewrite decide_False by set_solver. reflexivity.
Qed.

(** Two hashtags that share the post 123: one copy, under the first hashtag. *)
Example shared_item_kept_once :
  aggregate [tagged "#nifty" [item (Some "123") "shared"; item (Some "7") "a"];
             tagged "#sensex" [item (Some "123") "shared"; item (Some "8") "b"]]
  = [(item (Some "123") "shared", "#nifty"); (item (Some "7") "a", "#nifty");
     (item (Some "8") "b", "#sensex")].
Proof. vm_compute. reflexivity. Qed.

(** C1 as stated fails: two different posts without an id, found under
    two hashtags; the second is dropped as a duplicate of the first. *)
Lemma rows_without_id_are_merged :
  let a := (item None "first post", "#nifty") in
  let b := (item None "second post", "#sensex") in
  item_id a = None /\ item_id b = None /\ a <> b
  /\ List.In b (List.concat [[a]; [b]])
  /\ aggregate [[a]; [b]] = [a]
  /\ ~ List.In b (aggregate [[a]; [b]]).
Proof.
  cbv zeta. split; [reflexivity|]. split; [reflexivity|]. split; [discriminate|].
  split; [simpl; auto|]. split; [vm_compute; reflexivity|].
  vm_compute. intros [H|[]]. discriminate.
Qed.

End AggregateFacts.

(** ** The browser in [run] *)

Section RunFacts.
Import Extractor Orchestrator OrchestratorSpec.

Lemma keeps_driver_ret {A : Type} (a : A) : keeps_driver (ret a).
Proof. intros s r s' [= <- <-]. reflexivity. Qed.

Lemma keeps_driver_call {A : Type} (ev : event) (res : outcome A) :
  keeps_driver (call ev res).
Proof. intros s r s' [= <- <-]. reflexivity. Qed.

Lemma keeps_driver_mbind {A B : Type} (m : M A) (k : A -> M B) :
  keeps_driver m -> (forall a, keeps_driver (k a)) -> keeps_driver (mbind m k).
Proof.
  intros Hm Hk s r s'. unfold mbind.
  destruct (m s) as [[a|e] s1] eqn:Hms.
  - intros H. rewrite (Hk a _ _ _ H). exact (Hm _ _ _ Hms).
  - intros [= <- <-]. exact (Hm _ _ _ Hms).
Qed.

Create HintDb driver.
#[local] Hint Resolve keeps_driver_ret keeps_driver_call : driver.

Lemma per_tag_keeps_driver (w : session) (tags : list string) :
  forall i all_dfs, keeps_driver (per_tag w i tags all_dfs).
Proof.
  induction tags as [|tag tags IH]; intros i all_dfs; simpl; [auto with driver|].
  repeat (apply keeps_driver_mbind; [auto with driver|intros ?]).
  destruct (truthy _); [|apply IH].
  apply keeps_driver_mbind; [auto with driver|]. intros [|? ?]; apply IH.
Qed.

Lemma pipeline_keeps_driver (w : session) (u p : option string)
      (tags : list string) (path : string) :
  keeps_driver (pipeline w u p tags path).
Proof.
  unfold pipeline.
  apply keeps_driver_mbind; [destruct (_ && _); auto with driver|intros _].
  apply keeps_driver_mbind; [auto with driver|intros _].
  apply keeps_driver_mbind; [apply per_tag_keeps_driver|intros [|? ?]].
  - apply keeps_driver_mbind; auto with driver.
  - apply keeps_driver_mbind; auto with driver.
Qed.

(** [close] returns, whatever [quit] does. *)
Lemma close_returns (w : session) (s : state) :
  close w s = (Returned tt, State (driver s) (trace s ++ closing s)).
Proof.
  unfold close, mbind, call, closing. simpl.
  destruct (driver s) eqn:Hd.
  - unfold try_m, call, ret. simpl. rewrite <- app_assoc. simpl.
    destruct (quit_res w) as [[]|e]; reflexivity.
  - reflexivity.
Qed.

(** C3 (as the code behaves). [close] never raises, also when quitting
    the driver does.  And in every run in which the driver has started,
    whether the pipeline returns or raises, and wherever it raises, the
    run ends with the call of [close], which quits the driver, and hands
    on the result of the pipeline. *)
Theorem run_closes_once_started (w : session) (u p : option string)
        (tags : list string) (path : string) :
  (forall s, close w s = (Returned tt, State (driver s) (trace s ++ closing s)))
  /\ (mkdir_res w = Returned tt ->
      driver_path_exists w = true ->
      chrome_res w = Returned tt ->
      set_window_size_res w = Returned tt ->
      let started := State true [EvMkdir; EvChrome; EvSetWindowSize] in
      run w u p tags path initial
      = (fst (pipeline w u p tags path started),
         State true (trace (snd (pipeline w u p tags path started))
                     ++ [EvClose; EvQuit]))).
Proof.
  split; [apply close_returns|].
  intros Hmk Hpath Hchrome Hsize started.
  unfold run, start_driver. rewrite Hmk, Hpath, Hchrome, Hsize.
  cbv [mbind call set_driver initial driver trace app].
  fold started. unfold finally.
  destruct (pipeline w u p tags path started) as [r s2] eqn:Hpipe. simpl.
  rewrite close_returns. unfold closing.
  rewrite (pipeline_keeps_driver _ _ _ _ _ _ _ _ Hpipe). reflexivity.
Qed.

(** A run whose pipeline completes while [quit] fails, and a run whose
    second search times out: both end with [close] and [quit]. *)
Lemma run_closes_once_started_witness :
  (exists t,
     run (calm (Raised WebDriverException)) None None ["#nifty"; "#sensex"] "tweets.parquet"
         initial
     = (Returned "tweets.parquet", State true (t ++ [EvClose; EvQuit])))
  /\ (exists t,
        run search_times_out (Some "user") (Some "secret") ["#nifty"; "#sensex"]
            "tweets.parquet" initial
        = (Raised TimeoutException, State true (t ++ [EvClose; EvQuit]))).
Proof.
  split.
  - exists (trace (snd (pipeline (calm (Raised WebDriverException)) None None
                          ["#nifty"; "#sensex"] "tweets.parquet"
                          (State true [EvMkdir; EvChrome; EvSetWindowSize])))).
    destruct (run_closes_once_started (calm (Raised WebDriverException)) None None
                ["#nifty"; "#sensex"] "tweets.parquet") as [_ H].
    rewrite (H eq_refl eq_refl eq_refl eq_refl). f_equal.
  - exists (trace (snd (pipeline search_times_out (Some "user") (Some "secret")
                          ["#nifty"; "#sensex"] "tweets.parquet"
                          (State true [EvMkdir; EvChrome; EvSetWindowSize])))).
    destruct (run_closes_once_started search_times_out (Some "user") (Some "secret")
                ["#nifty"; "#sensex"] "tweets.parquet") as [_ H].
    rewrite (H eq_refl eq_refl eq_refl eq_refl). f_equal.
Defined.

(** C3 as stated fails: when the driver does not start, [run] exits
    without calling [close]; in the second run the browser has been
    created by then. *)
Lemma startup_failure_skips_close :
  run no_chromedriver None None ["#nifty"] "tweets.parquet" initial
  = (Raised FileNotFoundError, State false [EvMkdir])
  /\ run window_refused None None ["#nifty"] "tweets.parquet" initial
     = (Raised WebDriverException, State true [EvMkdir; EvChrome; EvSetWindowSize])
  /\ ~ List.In EvClose
       (trace (snd (run no_chromedriver None None ["#nifty"] "tweets.parquet" initial)))
  /\ ~ List.In EvClose
       (trace (snd (run window_refused None None ["#nifty"] "tweets.parquet" initial))).
Proof.
  split; [vm_compute; reflexivity|]. split; [vm_compute; reflexivity|].
  split; vm_compute; intuition discriminate.
Qed.

(** The whole trace of a run over two hashtags that share a post. *)
Example calm_run_trace :
  snd (run (calm (Returned tt)) None None ["#nifty"; "#sensex"] "tweets.parquet" initial)
  = State true
      [EvMkdir; EvChrome; EvSetWindowSize; EvExplore;
       EvSearch "#nifty"; EvLatest "#nifty"; EvCollect "#nifty"; EvGrab "#nifty";
       EvParse "#nifty";
       EvSearch "#sensex"; EvLatest "#sensex"; EvCollect "#sensex"; EvGrab "#sensex";
       EvParse "#sensex";
       EvSave [(item (Some "123") "shared", "#nifty"); (item None "#nifty", "#nifty")];
       EvClose; EvQuit].
Proof. vm_compute. reflexivity. Qed.

End RunFacts.

(** * Further properties *)

(** ** The parser: suffixes and commas *)

Section ScalingFacts.
Local Open Scope Z_scope.
Import Shorthand.

(** A ratio that is an integer below [2^53] is held exactly. *)
Lemma round_dyadic_exact (N s : Z) :
  0 < N < 2 ^ 53 -> 0 <= s ->
  Float.round (N * 2 ^ s) (2 ^ s)
  = Float.Finite (N * 2 ^ (52 - Z.log2 N)) (Z.log2 N - 52).
Proof.
  intros [Hpos Hn] Hs. unfold Float.round.
  assert (Hp2 : 0 < 2 ^ s) by (apply Z.pow_pos_nonneg; lia).
  destruct (N * 2 ^ s =? 0) eqn:Hz; [apply Z.eqb_eq in Hz; nia|clear Hz].
  pose proof (Z.log2_nonneg N) as Hl0.
  pose proof (Z.log2_spec N Hpos) as [Hlo Hhi].
  assert (Hl : Z.log2 N < 53) by (apply Z.log2_lt_pow2; lia).
  set (l := Z.log2 N) in *.
  assert (Hil : Float.ilog2_ratio (N * 2 ^ s) (2 ^ s) = l).
  { unfold Float.ilog2_ratio, Float.pow2.
    rewrite Z.log2_mul_pow2 by lia. rewrite Z.log2_pow2 by lia. fold l.
    replace (s + l - s) with l by lia.
    rewrite (Z.max_r 0 l) by lia. rewrite (Z.max_l 0 (- l)) by lia.
    rewrite Z.pow_0_r, Z.mul_1_r.
    destruct (2 ^ s * 2 ^ l <=? N * 2 ^ s) eqn:E; [reflexivity|].
    apply Z.leb_gt in E. nia. }
  rewrite Hil. rewrite (Z.max_l (l - 52) (-1074)) by lia.
  assert (Hpe : Float.pow2 (l - 52) = 1).
  { unfold Float.pow2. rewrite Z.max_l by lia. reflexivity. }
  assert (Hpn : Float.pow2 (- (l - 52)) = 2 ^ (52 - l)).
  { unfold Float.pow2. rewrite Z.max_r by lia. f_equal. lia. }
  rewrite Hpe, Hpn.
  assert (Hq : 0 < 2 ^ (52 - l)) by (apply Z.pow_pos_nonneg; lia).
  assert (Hm : Float.rne_div (N * 2 ^ s * 2 ^ (52 - l)) (2 ^ s * 1)
               = N * 2 ^ (52 - l)).
  { unfold Float.rne_div. rewrite Z.mul_1_r.
    replace (N * 2 ^ s * 2 ^ (52 - l)) with (N * 2 ^ (52 - l) * 2 ^ s) by ring.
    rewrite Z.mod_mul, Z.div_mul by lia.
    destruct (2 * 0 <? 2 ^ s) eqn:E; [reflexivity|]. apply Z.ltb_ge in E. lia. }
  rewrite Hm.
  assert (Hb : N * 2 ^ (52 - l) < 2 ^ 53).
  { replace (2 ^ 53) with (2 ^ (Z.succ l) * 2 ^ (52 - l)).
    - apply Z.mul_lt_mono_pos_r; assumption.
    - rewrite <- Z.pow_add_r by lia. f_equal. lia. }
  destruct (2 ^ 1024 <=? N * 2 ^ (52 - l) * 1) eqn:E; [|reflexivity].
  apply Z.leb_le in E. assert (2 ^ 53 < 2 ^ 1024) by (apply Z.pow_lt_mono_r; lia). lia.
Qed.

Lemma to_int_dyadic (N : Z) :
  0 < N < 2 ^ 53 ->
  Float.to_int (Float.Finite (N * 2 ^ (52 - Z.log2 N)) (Z.log2 N - 52)) = Returned N.
Proof.
  intros [Hpos Hn].
  pose proof (Z.log2_nonneg N) as Hl0.
  assert (Hl : Z.log2 N < 53) by (apply Z.log2_lt_pow2; lia).
  unfold Float.to_int, Float.pow2.
  rewrite (Z.max_l 0 (Z.log2 N - 52)) by lia.
  rewrite (Z.max_r 0 (- (Z.log2 N - 52))) by lia.
  replace (- (Z.log2 N - 52)) with (52 - Z.log2 N) by lia.
  rewrite Z.pow_0_r, Z.mul_1_r.
  rewrite Z.div_mul; [reflexivity|].
  assert (0 < 2 ^ (52 - Z.log2 N)) by (apply Z.pow_pos_nonneg; lia). lia.
Qed.

(** [int(float(n) * k)] is [n * k] as long as the product stays below [2^53]. *)
Lemma scaled_int_exact (n k : Z) :
  0 <= n -> 0 < k -> n * k < 2 ^ 53 ->
  Float.to_int (Float.mul_int (Float.round n 1) k) = Returned (n * k).
Proof.
  intros Hn Hk Hlt.
  destruct (Z.eq_dec n 0) as [->|Hnz]; [reflexivity|].
  assert (Hn53 : 0 < n < 2 ^ 53) by nia.
  pose proof (round_dyadic_exact n 0 Hn53 ltac:(lia)) as Hr.
  rewrite Z.pow_0_r, Z.mul_1_r in Hr. rewrite Hr.
  pose proof (Z.log2_nonneg n) as Hl0.
  assert (Hl : Z.log2 n < 53) by (apply Z.log2_lt_pow2; lia).
  unfold Float.mul_int, Float.pow2.
  rewrite (Z.max_l 0 (Z.log2 n - 52)) by lia.
  rewrite (Z.max_r 0 (- (Z.log2 n - 52))) by lia.
  replace (- (Z.log2 n - 52)) with (52 - Z.log2 n) by lia.
  rewrite Z.pow_0_r, Z.mul_1_r.
  replace (n * 2 ^ (52 - Z.log2 n) * k) with (n * k * 2 ^ (52 - Z.log2 n)) by ring.
  rewrite round_dyadic_exact by nia.
  apply to_int_dyadic. nia.
Qed.

End ScalingFacts.

Section SuffixFacts.
Local Open Scope Z_scope.
Import Shorthand.

Lemma span_append_stop (p : ascii -> bool) (d : string) (c : ascii) (r : string) :
  Text.forallb p d = true -> p c = false ->
  Text.span p (d +:+ String c r) = (d, String c r).
Proof.
  intros Hd Hc. induction d as [|a d IH].
  - change (EmptyString +:+ String c r) with (String c r). simpl. now rewrite Hc.
  - rewrite append_cons. simpl in *. apply andb_true_iff in Hd as [Ha Hd].
    rewrite Ha, (IH Hd). reflexivity.
Qed.

Lemma strip_clean (s : string) :
  Text.forallb (fun c => negb (Text.is_char "," c)) s = true ->
  Text.forallb (fun c => negb (Text.is_space c)) s = true ->
  Text.strip (Text.remove_char "," s) = s.
Proof.
  intros Hc Hs. unfold Text.remove_char, Text.strip.
  rewrite filter_all by exact Hc. rewrite rstrip_by_none by exact Hs.
  now apply lstrip_by_none.
Qed.

(** A plain number followed by one suffix character. *)
Lemma shorthand_with_suffix (d : string) (c : ascii) (scale : Z) :
  Text.is_empty d = false -> Text.forallb Text.is_digit d = true ->
  is_suffix_char c = true -> 0 < scale ->
  (if String.eqb (Text.lower (String c EmptyString)) "k" then scale = 1000
   else scale = 1000000) ->
  Text.digits_val d * scale < 2 ^ 53 ->
  _shorthand_to_int (d +:+ String c EmptyString)
  = Returned (Some (Text.digits_val d * scale)).
Proof.
  intros Hne Hd Hsuf Hpos Hscale Hlt.
  assert (Hcc : negb (Text.is_char "," c) = true /\ negb (Text.is_space c) = true
                /\ is_num_char c = false).
  { unfold is_suffix_char, Text.is_char in Hsuf.
    repeat (apply orb_true_iff in Hsuf as [Hsuf|Hsuf]);
      apply Ascii.eqb_eq in Hsuf as <-; repeat split; reflexivity. }
  destruct Hcc as (Hcomma & Hspace & Hnum).
  unfold _shorthand_to_int.
  assert (Hne' : Text.is_empty (d +:+ String c EmptyString) = false).
  { destruct d; [discriminate|reflexivity]. }
  rewrite Hne'. rewrite strip_clean.
  2:{ apply forallb_append; [|cbn [Text.forallb]; now rewrite Hcomma].
      eapply forallb_impl; [apply digit_not_comma|exact Hd]. }
  2:{ apply forallb_append; [|cbn [Text.forallb]; now rewrite Hspace].
      eapply forallb_impl; [apply digit_not_space|exact Hd]. }
  assert (Hm : match_shorthand (d +:+ String c EmptyString)
               = Some (d, String c EmptyString)).
  { unfold match_shorthand. rewrite span_append_stop; [| |exact Hnum].
    - rewrite Hne. cbn [Text.lstrip_by]. apply negb_true_iff in Hspace.
      rewrite Hspace. now rewrite Hsuf.
    - eapply forallb_impl; [|exact Hd]. intros a Ha. unfold is_num_char.
      now rewrite Ha. }
  rewrite Hm. unfold Float.of_string. rewrite (span_all _ _ Hd), Hne. cbn [bind].
  pose proof (digits_val_nonneg d Hd) as Hn0.
  destruct (String.eqb (Text.lower (String c EmptyString)) "k") eqn:Hk.
  - subst scale. rewrite scaled_int_exact by lia. reflexivity.
  - assert (Hmm : String.eqb (Text.lower (String c EmptyString)) "m" = true).
    { unfold is_suffix_char, Text.is_char in Hsuf.
      repeat (apply orb_true_iff in Hsuf as [Hsuf|Hsuf]);
        apply Ascii.eqb_eq in Hsuf as <-; try reflexivity; discriminate. }
    rewrite Hmm. subst scale. rewrite scaled_int_exact by lia. reflexivity.
Qed.

(** X1. A run of digits followed by [K] or [k] is parsed to the number
    times 1000, and followed by [M] or [m] to the number times 1000000,
    as long as the product stays below [2^53]. *)
Theorem shorthand_suffix_scales (d : string) :
  Text.is_empty d = false -> Text.forallb Text.is_digit d = true ->
  (Text.digits_val d * 1000 < 2 ^ 53 ->
   _shorthand_to_int (d +:+ "K") = Returned (Some (Text.digits_val d * 1000))
   /\ _shorthand_to_int (d +:+ "k") = Returned (Some (Text.digits_val d * 1000)))
  /\ (Text.digits_val d * 1000000 < 2 ^ 53 ->
      _shorthand_to_int (d +:+ "M") = Returned (Some (Text.digits_val d * 1000000))
      /\ _shorthand_to_int (d +:+ "m") = Returned (Some (Text.digits_val d * 1000000))).
Proof.
  intros Hne Hd. split; intros Hlt; split;
    apply shorthand_with_suffix; try assumption; try reflexivity; lia.
Qed.

Lemma shorthand_suffix_scales_witness :
  _shorthand_to_int "250K" = Returned (Some 250000)
  /\ _shorthand_to_int "3m" = Returned (Some 3000000).
Proof.
  destruct (shorthand_suffix_scales "250" eq_refl eq_refl) as [[HK _] _]; [reflexivity|].
  destruct (shorthand_suffix_scales "3" eq_refl eq_refl) as [_ [_ Hm]]; [reflexivity|].
  split; [exact HK|exact Hm].
Defined.

Lemma remove_char_idem (a : ascii) (s : string) :
  Text.remove_char a (Text.remove_char a s) = Text.remove_char a s.
Proof. unfold Text.remove_char. apply filter_all, forallb_filter. Qed.

(** X2. Commas never count: [_shorthand_to_int] gives on a text what it
    gives on the text without its commas, wherever they stand. *)
Theorem shorthand_ignores_commas (s : string) :
  _shorthand_to_int s = _shorthand_to_int (Text.remove_char "," s).
Proof.
  unfold _shorthand_to_int. rewrite remove_char_idem.
  destruct (Text.is_empty s) eqn:Hs.
  - destruct s; [reflexivity|discriminate].
  - destruct (Text.is_empty (Text.remove_char "," s)) eqn:Hr; [|reflexivity].
    destruct (Text.remove_char "," s); [reflexivity|discriminate].
Qed.

Example decimal_comma_is_dropped :
  _shorthand_to_int "1,5K" = Returned (Some 15000).
Proof. vm_compute. reflexivity. Qed.

End SuffixFacts.

(** ** The extractor: tag lists, handle and id *)

Section TagListFacts.
Import Dom Extractor ExtractorSpec ExtractorExtraSpec TextSpec.

Lemma existsb_eqb_elem_of (x : string) (seen : list string) :
  List.existsb (String.eqb x) seen = true <-> x ∈ seen.
Proof.
  rewrite List.existsb_exists. split.
  - intros (y & Hy & Heq). apply String.eqb_eq in Heq as ->.
    now apply list_elem_of_In.
  - intros H. exists x. split; [now apply list_elem_of_In|apply String.eqb_refl].
Qed.

Lemma dedup_from_spec (l : list string) : forall seen,
  NoDup (dedup_from seen l)
  /\ sublist (dedup_from seen l) l
  /\ (forall x, x ∈ dedup_from seen l <-> x ∈ l /\ x ∉ seen).
Proof.
  induction l as [|a l IH]; intros seen; simpl.
  - split; [constructor|]. split; [constructor|]. intros x. set_solver.
  - destruct (List.existsb (String.eqb a) seen) eqn:Hex.
    + apply existsb_eqb_elem_of in Hex.
      destruct (IH seen) as (Hnd & Hsub & Hel).
      split; [exact Hnd|]. split; [now apply sublist_cons|].
      intros x. rewrite Hel. set_solver.
    + assert (Hn : a ∉ seen).
      { intros Hin. apply existsb_eqb_elem_of in Hin. congruence. }
      destruct (IH (a :: seen)) as (Hnd & Hsub & Hel).
      split; [|split].
      * constructor; [|exact Hnd]. rewrite Hel. set_solver.
      * now apply sublist_skip.
      * intros x. rewrite elem_of_cons, Hel.
        destruct (decide (x = a)) as [->|Hne]; set_solver.
Qed.

Lemma record_tag_lists (tb : loc) :
  hashtags (record_of tb) = dedup (fst (classified tb))
  /\ mentions (record_of tb) = dedup (snd (classified tb)).
Proof.
  unfold record_of, classified, content_fields. simpl.
  destruct (find (attr_is "data-testid" "tweetText") tb); [|split; reflexivity].
  destruct (List.fold_left _ _ _) as [hs ms]. split; reflexivity.
Qed.

(** X4. The hashtags of a record are the link texts classified as
    hashtags with the repetitions dropped: no text occurs twice, the order
    of the page is kept, and no classified text is lost; likewise the
    mentions. *)
Theorem tag_lists_drop_only_repeats (tb : loc) (r : record) :
  extract_record tb = Returned r ->
  (NoDup (hashtags r) /\ sublist (hashtags r) (fst (classified tb))
   /\ forall x, x ∈ fst (classified tb) -> x ∈ hashtags r)
  /\ (NoDup (mentions r) /\ sublist (mentions r) (snd (classified tb))
      /\ forall x, x ∈ snd (classified tb) -> x ∈ mentions r).
Proof.
  rewrite extract_record_returns. intros [= <-].
  destruct (record_tag_lists tb) as [-> ->]. unfold dedup.
  split.
  - destruct (dedup_from_spec (fst (classified tb)) []) as (Hnd & Hsub & Hel).
    repeat split; try assumption. intros x Hx. apply Hel. set_solver.
  - destruct (dedup_from_spec (snd (classified tb)) []) as (Hnd & Hsub & Hel).
    repeat split; try assumption. intros x Hx. apply Hel. set_solver.
Qed.

Lemma tag_lists_drop_only_repeats_witness :
  fst (classified (Loc [] Sample.tweet)) = ["#nifty"; "#nifty"]
  /\ hashtags (record_of (Loc [] Sample.tweet)) = ["#nifty"]
  /\ NoDup (mentions (record_of (Loc [] Sample.tweet))).
Proof.
  destruct (tag_lists_drop_only_repeats (Loc [] Sample.tweet)
              (record_of (Loc [] Sample.tweet)) (extract_record_returns _))
    as [_ (Hnd & _ & _)].
  split; [vm_compute; reflexivity|]. split; [vm_compute; reflexivity|exact Hnd].
Defined.

Lemma classify_link_mentions (acc : list string * list string) (t : loc) :
  List.Forall (fun m => Text.starts_with "@" m = true) (snd acc) ->
  List.Forall (fun m => Text.starts_with "@" m = true) (snd (classify_link acc t)).
Proof.
  destruct acc as [hs ms]. unfold classify_link. cbn [snd]. intros H.
  destruct (_ || _); [exact H|].
  destruct (Text.starts_with "@" (get_text EmptyString (here t))) eqn:Hat.
  - cbn [snd]. apply List.Forall_app. split; [exact H|].
    constructor; [exact Hat|constructor].
  - destruct (_ && _); [|exact H].
    cbn [snd]. apply List.Forall_app. split; [exact H|].
    constructor; [reflexivity|constructor].
Qed.

Lemma classified_mentions (links : list loc) : forall acc,
  List.Forall (fun m => Text.starts_with "@" m = true) (snd acc) ->
  List.Forall (fun m => Text.starts_with "@" m = true)
              (snd (List.fold_left classify_link links acc)).
Proof.
  induction links as [|t links IH]; intros acc H; cbn [List.fold_left]; [exact H|].
  apply IH, classify_link_mentions, H.
Qed.

(** X5. Every mention of a record starts with [@]. *)
Theorem mentions_start_with_at (tb : loc) (r : record) (m : string) :
  extract_record tb = Returned r ->
  m ∈ mentions r -> Text.starts_with "@" m = true.
Proof.
  rewrite extract_record_returns. intros [= <-].
  destruct (record_tag_lists tb) as [_ ->]. unfold dedup. intros Hm.
  apply (dedup_from_spec (snd (classified tb)) []) in Hm as [Hm _].
  assert (Hall : List.Forall (fun m => Text.starts_with "@" m = true)
                             (snd (classified tb))).
  { unfold classified. destruct (find _ tb); [|constructor].
    apply classified_mentions. constructor. }
  rewrite List.Forall_forall in Hall. apply Hall. now apply list_elem_of_In.
Qed.

End TagListFacts.

Section SegmentFacts.
Import Dom Extractor ExtractorSpec ExtractorExtraSpec TextSpec.

Lemma mentions_start_with_at_witness :
  mentions (record_of (Loc [] Sample.tweet)) = ["@bob"]
  /\ Text.starts_with "@" "@bob" = true.
Proof.
  split; [vm_compute; reflexivity|].
  apply (mentions_start_with_at (Loc [] Sample.tweet) (record_of (Loc [] Sample.tweet))).
  - apply extract_record_returns.
  - vm_compute. apply list_elem_of_here.
Defined.

(** The pieces of a split on one character are free of that character. *)
Lemma split_go_free (c : ascii) (s : string) :
  free_of c (fst (Text.split_go (String c EmptyString) 0 s))
  /\ List.Forall (free_of c) (snd (Text.split_go (String c EmptyString) 0 s)).
Proof.
  induction s as [|a s IH]; [split; [reflexivity|constructor]|].
  cbn [Text.split_go].
  destruct (Text.starts_with (String c EmptyString) (String a s)) eqn:Hst.
  - change (String.length (String c EmptyString) - 1) with 0.
    destruct (Text.split_go (String c EmptyString) 0 s) as [p ps].
    cbn [fst snd] in *.
    destruct IH as [Hp Hps]. split; [reflexivity|]. constructor; assumption.
  - destruct (Text.split_go (String c EmptyString) 0 s) as [p ps].
    cbn [fst snd] in *.
    destruct IH as [Hp Hps]. split; [|exact Hps].
    unfold free_of in *. cbn [Text.forallb]. rewrite Hp.
    cbn [Text.starts_with] in Hst. rewrite andb_true_r in Hst.
    unfold Text.is_char. now rewrite Hst.
Qed.

Lemma split_free (c : ascii) (s : string) :
  List.Forall (free_of c) (Text.split (String c EmptyString) s).
Proof.
  unfold Text.split. pose proof (split_go_free c s) as [Hp Hps].
  destruct (Text.split_go (String c EmptyString) 0 s) as [p ps].
  constructor; assumption.
Qed.

Lemma split_last_free (c : ascii) (s : string) :
  free_of c (Text.split_last (String c EmptyString) s).
Proof.
  unfold Text.split_last. pose proof (split_free c s) as H.
  induction H as [|x pieces Hx Hpieces IH]; [reflexivity|].
  destruct pieces; [exact Hx|exact IH].
Qed.

Lemma split_first_free (c : ascii) (s : string) :
  free_of c (Text.split_first (String c EmptyString) s).
Proof.
  unfold Text.split_first. destruct (split_free c s); [reflexivity|assumption].
Qed.

(** X6. The handle of a record holds no [/] and its tweet id no [?]; the
    username is the handle, but for an empty handle, whose username is
    absent. *)
Theorem handle_and_id_are_segments (tb : loc) (r : record) :
  extract_record tb = Returned r ->
  (forall h, handle r = Some h -> free_of "/" h)
  /\ (forall t, tweet_id r = Some t -> free_of "?" t)
  /\ (username r = handle r
      \/ (handle r = Some EmptyString /\ username r = None)).
Proof.
  rewrite extract_record_returns. intros [= <-]. unfold record_of. cbn.
  split; [|split].
  - intros h. unfold user_fields.
    destruct (find (attr_is "data-testid" "User-Name") tb) as [name_el|]; [|discriminate].
    destruct (find (has_tag "a") name_el); [|discriminate]. cbn.
    destruct (Text.is_empty _); [discriminate|]. intros [= <-].
    apply (split_last_free "/").
  - intros t. unfold time_fields.
    destruct (find (has_tag "time") tb) as [time_el|]; [|discriminate]. cbn.
    destruct (find_parent_a_href time_el); [|discriminate].
    destruct (Text.contains _ _); [|discriminate]. intros [= <-].
    apply (split_first_free "?").
  - unfold user_fields.
    destruct (find (attr_is "data-testid" "User-Name") tb) as [name_el|];
      [|left; reflexivity].
    destruct (find (has_tag "a") name_el); [|left; reflexivity]. cbn.
    destruct (Text.is_empty _); [left; reflexivity|].
    destruct (Text.split_last _ _); [right; split; reflexivity|left; reflexivity].
Qed.

Lemma handle_and_id_are_segments_witness :
  handle (record_of (Loc [] Sample.tweet)) = Some "alice"
  /\ tweet_id (record_of (Loc [] Sample.tweet)) = Some "123"
  /\ free_of "/" "alice" /\ free_of "?" "123".
Proof.
  destruct (handle_and_id_are_segments (Loc [] Sample.tweet)
              (record_of (Loc [] Sample.tweet)) (extract_record_returns _))
    as (Hh & Ht & _).
  split; [vm_compute; reflexivity|]. split; [vm_compute; reflexivity|].
  split; [apply Hh|apply Ht]; vm_compute; reflexivity.
Defined.

End SegmentFacts.

(** ** The collector: edge cases and bounds *)

Section CollectorEdgeFacts.
Import Collector CollectorSpec CollectorExtraSpec.

Variable source : nat -> list element.
Variable min_count : Z.
Variable pause : Q.

#[local] Abbreviation cum := (cumulative source).

(** X7. With [max_scrolls] at most 0 the collector returns 0 and never
    looks at the page; with a target of at most 0 it returns after one
    round, with the count of that round. *)
Theorem collector_degenerate_bounds (max_scrolls : Z) :
  ((max_scrolls <= 0)%Z ->
   collect source min_count pause max_scrolls = ([], Returned 0%nat))
  /\ ((0 < max_scrolls)%Z -> (min_count <= 0)%Z ->
      List.length (fst (collect source min_count pause max_scrolls)) = 1%nat
      /\ ensure_min_tweets_loaded source min_count pause max_scrolls
         = Returned (cum 0)).
Proof.
  unfold ensure_min_tweets_loaded, collect. split.
  - intros H. replace (Z.to_nat max_scrolls) with 0%nat by lia. reflexivity.
  - intros Hmax Hmin.
    destruct (Z.to_nat max_scrolls) as [|fuel] eqn:Hf; [lia|].
    change (∅ : gset string) with (seen_before source 0).
    rewrite loop_round. cbv zeta.
    destruct (min_count <=? Z.of_nat (cum 0))%Z eqn:E; [split; reflexivity|].
    apply Z.leb_gt in E. lia.
Qed.




End CollectorEdgeFacts.

Section CollectorBoundFacts.
Import Collector CollectorSpec CollectorExtraSpec.

Variable source : nat -> list element.
Variable min_count : Z.
Variable pause : Q.

#[local] Abbreviation cum := (cumulative source).

Lemma add_all_size (elems : list element) : forall seen : gset string,
  (size (add_all elems seen) <= size seen + List.length elems)%nat.
Proof.
  unfold add_all. induction elems as [|el elems IH]; intros seen; simpl; [lia|].
  etrans; [apply IH|].
  destruct (fingerprint el) as [fp|e]; [|lia].
  rewrite size_union_alt, size_singleton.
  assert (size (seen ∖ {[fp]}) <= size seen)%nat by (apply subseteq_size; set_solver).
  lia.
Qed.

Lemma cumulative_rendered (i : nat) : (cum i <= rendered source (S i))%nat.
Proof.
  unfold cumulative. induction i as [|i IH].
  - simpl. pose proof (add_all_size (source 0) ∅) as H.
    rewrite size_empty in H. exact H.
  - change (seen_upto source (S i)) with (add_all (source (S i)) (seen_upto source i)).
    pose proof (add_all_size (source (S i)) (seen_upto source i)) as H.
    change (rendered source (S (S i)))
      with (rendered source (S i) + List.length (source (S i)))%nat.
    lia.
Qed.

(** X9. The count that the collector returns is at most the number of
    elements that its rounds enumerated. *)
Theorem count_bounded_by_rendered (max_scrolls : Z) (c : nat) :
  ensure_min_tweets_loaded source min_count pause max_scrolls = Returned c ->
  (c <= rendered source
          (List.length (fst (collect source min_count pause max_scrolls))))%nat.
Proof.
  unfold ensure_min_tweets_loaded, collect.
  destruct (loop source min_count pause (Z.to_nat max_scrolls) 0 ∅ 0 0)
    as [log r] eqn:Hloop. cbn [fst snd]. intros ->.
  destruct (loop_counts _ _ _ _ 0%nat 0%nat 0%nat log _ Hloop)
    as (_ & _ & _ & _ & Hret & _).
  rewrite (Hret c eq_refl). destruct (List.length log) as [|j].
  - cbn [seen_before rendered]. rewrite size_empty. lia.
  - apply cumulative_rendered.
Qed.

Lemma loop_exits (fuel : nat) : forall n seen st lastc log c,
  loop source min_count pause fuel n seen st lastc = (log, Returned c) ->
  (min_count <= Z.of_nat c)%Z
  \/ (exists rl, last log = Some rl /\ (6 <= stall rl)%nat /\ count rl = c)
  \/ List.length log = fuel.
Proof.
  induction fuel as [|fuel IH]; intros n seen st lastc log c.
  - cbn [loop]. intros [= <- <-]. right; right. reflexivity.
  - cbn [loop]. cbv zeta.
    destruct (min_count <=? Z.of_nat (size (add_all (source n) seen)))%Z eqn:Hmin.
    { intros [= <- <-]. left. now apply Z.leb_le. }
    destruct (Nat.leb 6 _) eqn:Hsix.
    { intros [= <- <-]. right; left. eexists. split; [reflexivity|].
      split; [now apply Nat.leb_le|reflexivity]. }
    destruct (sleep pause); [|intros [= <- ?]; discriminate].
    destruct (loop source min_count pause fuel (S n) _ _ _) as [log' r'] eqn:Hrec.
    intros [= <- ->].
    destruct (IH _ _ _ _ _ _ Hrec) as [H|[(rl & Hl & Hs & Hc)|H]].
    + left. exact H.
    + right; left. exists rl. split; [|split; assumption].
      rewrite last_cons, Hl. reflexivity.
    + right; right. simpl. now rewrite H.
Qed.

(** X10. A count below the target is returned for one of two reasons
    only: the last round left the stall counter at 6 or more, or all
    [max_scrolls] rounds were run. *)
Theorem short_count_means_stall_or_budget (max_scrolls : Z) (c : nat) :
  ensure_min_tweets_loaded source min_count pause max_scrolls = Returned c ->
  (Z.of_nat c < min_count)%Z ->
  (exists rl, last (fst (collect source min_count pause max_scrolls)) = Some rl
              /\ (6 <= stall rl)%nat /\ count rl = c)
  \/ Z.of_nat (List.length (fst (collect source min_count pause max_scrolls)))
     = Z.max 0 max_scrolls.
Proof.
  unfold ensure_min_tweets_loaded, collect.
  destruct (loop source min_count pause (Z.to_nat max_scrolls) 0 ∅ 0 0)
    as [log r] eqn:Hloop. cbn [fst snd]. intros -> Hlt.
  destruct (loop_exits _ _ _ _ _ _ _ Hloop) as [H|[H|H]]; [lia|left; exact H|].
  right. rewrite H. lia.
Qed.

End CollectorBoundFacts.

Lemma count_bounded_by_rendered_witness :
  (4 <= CollectorExtraSpec.rendered (CollectorSpec.plateau 2 1) 8)%nat.
Proof.
  apply (count_bounded_by_rendered (CollectorSpec.plateau 2 1) 500 (8 # 10) 300 4).
  vm_compute. reflexivity.
Defined.

Lemma short_count_means_stall_or_budget_witness :
  exists rl,
    last (fst (Collector.collect (CollectorSpec.plateau 2 1) 500 (8 # 10) 300)) = Some rl
    /\ (6 <= Collector.stall rl)%nat /\ Collector.count rl = 4%nat.
Proof.
  destruct (short_count_means_stall_or_budget (CollectorSpec.plateau 2 1) 500 (8 # 10)
              300 4) as [H|H].
  - vm_compute. reflexivity.
  - reflexivity.
  - exact H.
  - vm_compute in H. discriminate.
Defined.

(** ** The shape of a fingerprint *)

Section FingerprintShapeFacts.
Import Collector CollectorSpec CollectorExtraSpec.
Local Open Scope Z_scope.

Lemma be_bytes_length (n : nat) (x : Z) : List.length (Sha1.be_bytes n x) = n.
Proof. induction n as [|n IH]; simpl; [reflexivity|now rewrite IH]. Qed.

Lemma be_bytes_range (n : nat) (x : Z) :
  List.Forall (fun b => 0 <= b < 256) (Sha1.be_bytes n x).
Proof.
  induction n as [|n IH]; cbn [Sha1.be_bytes]; constructor; [|exact IH].
  change 255 with (Z.ones 8). rewrite Z.land_ones by lia.
  apply Z.mod_pos_bound. lia.
Qed.

Lemma hex_digit_is_hex (v : Z) :
  0 <= v < 16 -> is_lower_hex (Sha1.hex_digit v) = true.
Proof.
  intros H.
  assert (v = 0 \/ v = 1 \/ v = 2 \/ v = 3 \/ v = 4 \/ v = 5 \/ v = 6 \/ v = 7
          \/ v = 8 \/ v = 9 \/ v = 10 \/ v = 11 \/ v = 12 \/ v = 13 \/ v = 14
          \/ v = 15) as Hv by lia.
  repeat (destruct Hv as [->|Hv]; [reflexivity|]). subst. reflexivity.
Qed.

Lemma hex_of_bytes_shape (bs : list Z) :
  List.Forall (fun b => 0 <= b < 256) bs ->
  String.length (Sha1.hex_of_bytes bs) = (2 * List.length bs)%nat
  /\ Text.forallb is_lower_hex (Sha1.hex_of_bytes bs) = true.
Proof.
  induction 1 as [|b bs Hb _ [IHl IHh]]; [split; reflexivity|].
  cbn [Sha1.hex_of_bytes String.length Text.forallb List.length].
  rewrite IHl, IHh. split; [lia|].
  rewrite !hex_digit_is_hex; [reflexivity| |].
  - change 15 with (Z.ones 4). rewrite Z.land_ones by lia. apply Z.mod_pos_bound. lia.
  - rewrite Z.shiftr_div_pow2 by lia. change (2 ^ 4) with 16.
    split; [apply Z.div_pos; lia|apply Z.div_lt_upper_bound; lia].
Qed.

Lemma hexdigest_shape (data : list Z) :
  String.length (Sha1.hexdigest data) = 40%nat
  /\ Text.forallb is_lower_hex (Sha1.hexdigest data) = true.
Proof.
  unfold Sha1.hexdigest.
  destruct (Sha1.blocks _ _ _) as [[[[a b] c] d] e].
  destruct (hex_of_bytes_shape
              (Sha1.be_bytes 4 a ++ Sha1.be_bytes 4 b ++ Sha1.be_bytes 4 c
               ++ Sha1.be_bytes 4 d ++ Sha1.be_bytes 4 e)) as [Hl Hh].
  { repeat (apply List.Forall_app; split); apply be_bytes_range. }
  split; [|exact Hh]. rewrite Hl. rewrite !List.length_app, !be_bytes_length. reflexivity.
Qed.

(** X11. A fingerprint is either a non-empty run of digits, or [sha1-]
    followed by 40 lower-case hexadecimal digits; the two shapes cannot
    be confused. *)
Theorem fingerprint_has_one_of_two_shapes (el : element) (fp : string) :
  fingerprint el = Returned fp ->
  (Text.is_empty fp = false /\ Text.forallb Text.is_digit fp = true
   /\ Text.starts_with "sha1-" fp = false)
  \/ (exists h, fp = "sha1-" +:+ h /\ String.length h = 40%nat
                /\ Text.forallb is_lower_hex h = true
                /\ Text.forallb Text.is_digit fp = false).
Proof.
  unfold fingerprint.
  destruct (outer_html el) as [o|e]; [|discriminate]. cbn [bind].
  assert (Hhash : forall html,
            exists h, "sha1-" +:+ sha1_hexdigest html = "sha1-" +:+ h
                      /\ String.length h = 40%nat
                      /\ Text.forallb is_lower_hex h = true
                      /\ Text.forallb Text.is_digit ("sha1-" +:+ sha1_hexdigest html)
                         = false).
  { intros html. exists (sha1_hexdigest html).
    destruct (hexdigest_shape (Sha1.utf8 html)) as [Hl Hh].
    repeat split; assumption || reflexivity. }
  assert (Hid : forall s d, search_status s = Some d ->
            Text.is_empty d = false /\ Text.forallb Text.is_digit d = true
            /\ Text.starts_with "sha1-" d = false).
  { intros s d Hd. destruct (search_status_sound s d Hd) as (Hne & Hall & _).
    repeat split; try assumption.
    destruct d as [|c d]; [reflexivity|]. cbn [Text.forallb] in Hall.
    apply andb_true_iff in Hall as [Hc _]. cbn [Text.starts_with].
    destruct (Ascii.eqb_spec "s" c) as [<-|]; [discriminate|reflexivity]. }
  destruct (search_status (or_empty o)) as [d|] eqn:Ho.
  - cbn [bind]. destruct (Hid _ _ Ho) as (Hne & Hall & Hs). rewrite Hne.
    intros [= <-]. left. repeat split; assumption.
  - destruct (status_link_href el) as [h|e]; cbn [bind try_except].
    + destruct (search_status (or_empty h)) as [d|] eqn:Hh.
      * destruct (Hid _ _ Hh) as (Hne & Hall & Hs). rewrite Hne.
        intros [= <-]. left. repeat split; assumption.
      * intros [= <-]. right. apply Hhash.
    + intros [= <-]. right. apply Hhash.
Qed.

Lemma fingerprint_has_one_of_two_shapes_witness :
  exists h,
    "sha1-337737efcd60bf92b3606de6a7e7191e9dd28315" = "sha1-" +:+ h
    /\ String.length h = 40%nat.
Proof.
  destruct (fingerprint_has_one_of_two_shapes (anonymous "hi")
              "sha1-337737efcd60bf92b3606de6a7e7191e9dd28315") as [H|H].
  - vm_compute. reflexivity.
  - destruct H as (_ & H & _). vm_compute in H. discriminate.
  - destruct H as (h & Hh & Hl & _). eauto.
Defined.

End FingerprintShapeFacts.

(** ** The capture always holds something *)

Section CaptureTotalFacts.
Import Collector Capture CaptureSpec.

(** X12. [grab_entire_div_html] never answers [None] and never an empty
    markup: the branch that reports that no HTML was captured cannot be
    reached. *)
Theorem capture_is_never_empty (pg : page) :
  exists html, grab_entire_div_html pg = Some html /\ Text.is_empty html = false.
Proof.
  unfold grab_entire_div_html.
  destruct (first_capture pg selectors) as [[sel html]|] eqn:Hfc; cbn [option_map snd].
  - destruct (first_capture_some _ _ _ _ Hfc) as (_ & _ & _ & _ & Hl & _).
    assert (Hne : Text.is_empty html = false).
    { destruct html; [simpl in Hl; lia|reflexivity]. }
    destruct (fallback_needed _ _).
    + rewrite wrapper_nonempty. eauto using wrapper_nonempty.
    + rewrite Hne. eauto.
  - cbn [fallback_needed]. rewrite wrapper_nonempty. eauto using wrapper_nonempty.
Qed.

End CaptureTotalFacts.

(** ** [run]: the aggregate and the events of a run *)

Section AggregateMoreFacts.
Import Extractor Orchestrator OrchestratorSpec.

Lemma drop_duplicates_from_fixed (rows : list row) : forall seen,
  NoDup (item_id <$> rows) ->
  (forall r, r ∈ rows -> item_id r ∉ seen) ->
  drop_duplicates_from seen rows = rows.
Proof.
  induction rows as [|r rows IH]; intros seen Hnd Hfresh; simpl; [reflexivity|].
  rewrite fmap_cons in Hnd. apply NoDup_cons in Hnd as [Hr Hnd].
  rewrite bool_decide_eq_false_2 by (apply Hfresh; left).
  f_equal. apply IH; [exact Hnd|].
  intros r' Hr'. rewrite not_elem_of_cons. split.
  - intros Heq. apply Hr. rewrite <- Heq. now apply list_elem_of_fmap_2.
  - apply Hfresh. now right.
Qed.

(** X13. Aggregating an aggregate changes nothing; more generally rows
    whose ids are pairwise distinct are left as they are. *)
Theorem aggregate_is_idempotent (all_dfs : list (list row)) :
  aggregate [aggregate all_dfs] = aggregate all_dfs
  /\ (forall rows, NoDup (item_id <$> rows) -> aggregate [rows] = rows).
Proof.
  assert (H : forall rows, NoDup (item_id <$> rows) -> aggregate [rows] = rows).
  { intros rows Hnd. unfold aggregate, drop_duplicates. simpl. rewrite app_nil_r.
    apply drop_duplicates_from_fixed; [exact Hnd|]. intros r _. apply not_elem_of_nil. }
  split; [|exact H]. apply H. apply drop_duplicates_from_nodup.
Qed.

Lemma aggregate_is_idempotent_witness :
  aggregate [[(item (Some "1") "a", "#x"); (item None "b", "#x")]]
  = [(item (Some "1") "a", "#x"); (item None "b", "#x")].
Proof.
  apply (proj2 (aggregate_is_idempotent [])).
  vm_compute. repeat constructor; set_solver.
Defined.

End AggregateMoreFacts.

Section PipelineFacts.
Import Extractor Orchestrator OrchestratorSpec OrchestratorExtraSpec.

Lemma emits_ret {A : Type} (P : event -> Prop) (a : A) : emits P (ret a).
Proof. intros s r s' [= <- <-]. exists []. split; [now rewrite app_nil_r|constructor]. Qed.

Lemma emits_call {A : Type} (P : event -> Prop) (ev : event) (res : outcome A) :
  P ev -> emits P (call ev res).
Proof.
  intros Hev s r s' [= <- <-]. exists [ev]. split; [reflexivity|].
  constructor; [exact Hev|constructor].
Qed.

Lemma emits_mbind {A B : Type} (P : event -> Prop) (m : M A) (k : A -> M B) :
  emits P m -> (forall a, emits P (k a)) -> emits P (mbind m k).
Proof.
  intros Hm Hk s r s'. unfold mbind.
  destruct (m s) as [[a|e] s1] eqn:Hms.
  - intros H. destruct (Hm _ _ _ Hms) as (e1 & Ht1 & H1).
    destruct (Hk a _ _ _ H) as (e2 & Ht2 & H2).
    exists (e1 ++ e2). split; [rewrite Ht2, Ht1; now rewrite app_assoc|].
    now apply List.Forall_app.
  - intros [= <- <-]. exact (Hm _ _ _ Hms).
Qed.

Lemma per_tag_emits (w : session) (tags : list string) :
  forall i all_dfs, emits is_per_tag (per_tag w i tags all_dfs).
Proof.
  induction tags as [|tag tags IH]; intros i all_dfs; cbn [per_tag];
    [apply emits_ret|].
  repeat (apply emits_mbind; [apply emits_call; exact I|intros ?]).
  destruct (truthy _); [|apply IH].
  apply emits_mbind; [apply emits_call; exact I|]. intros [|? ?]; apply IH.
Qed.

(** The events of the pipeline: the login if there is one, the explore
    click and the per-hashtag steps, and at most one write, at the end. *)
Lemma pipeline_shape (w : session) (u p : option string) (tags : list string)
      (path : string) (s : state) r s' :
  pipeline w u p tags path s = (r, s') ->
  exists mid saves,
    trace s' = trace s ++ (if truthy u && truthy p then [EvLogin] else [])
                       ++ mid ++ saves
    /\ List.Forall (fun ev => ev = EvExplore \/ is_per_tag ev) mid
    /\ ((saves = [] /\ exists e, r = Raised e)
        \/ (exists sv, saves = [sv] /\ is_save sv
                       /\ (r = Returned path \/ exists e, r = Raised e))).
Proof.
  unfold pipeline.
  set (login := if truthy u && truthy p then call EvLogin (login_res w) else ret tt).
  set (lp := if truthy u && truthy p then [EvLogin] else []).
  assert (Hlogin : exists res, login s = (res, State (driver s) (trace s ++ lp))).
  { unfold login, lp. destruct (truthy u && truthy p).
    - eexists. reflexivity.
    - exists (Returned tt). unfold ret. rewrite app_nil_r. now destruct s. }
  destruct Hlogin as [res Hlogin]. unfold mbind at 1. rewrite Hlogin.
  destruct res as [[]|e].
  2:{ intros [= <- <-]. exists [], []. cbn [trace]. rewrite !app_nil_r.
      split; [reflexivity|]. split; [constructor|]. left. eauto. }
  unfold mbind at 1, call at 1. cbn [driver trace].
  destruct (click_explore_res w) as [ok|e].
  2:{ intros [= <- <-]. exists [EvExplore], []. cbn [trace].
      rewrite app_nil_r, <- app_assoc.
      split; [reflexivity|]. split; [repeat constructor|]. left. eauto. }
  unfold mbind at 1.
  destruct (per_tag w 0 tags [] _) as [rp s3] eqn:Hpt.
  destruct (per_tag_emits w tags 0%nat [] _ _ _ Hpt) as (tagevs & Ht3 & Htag).
  cbn [trace] in Ht3.
  assert (Hmid : List.Forall (fun ev => ev = EvExplore \/ is_per_tag ev)
                             (EvExplore :: tagevs)).
  { constructor; [now left|]. eapply List.Forall_impl; [|exact Htag]. now right. }
  destruct rp as [dfs|e].
  2:{ intros [= <- <-]. exists (EvExplore :: tagevs), [].
      rewrite Ht3, app_nil_r, <- !app_assoc.
      split; [reflexivity|]. split; [exact Hmid|]. left. eauto. }
  assert (Hsave : forall (sv : event) (res : outcome unit),
            is_save sv ->
            mbind (call sv res) (fun _ => ret path) s3 = (r, s') ->
            exists mid saves,
              trace s' = trace s ++ lp ++ mid ++ saves
              /\ List.Forall (fun ev => ev = EvExplore \/ is_per_tag ev) mid
              /\ ((saves = [] /\ exists e, r = Raised e)
                  \/ (exists sv, saves = [sv] /\ is_save sv
                                 /\ (r = Returned path \/ exists e, r = Raised e)))).
  { intros sv res Hsv. unfold mbind, call, ret.
    destruct res as [[]|e]; intros [= <- <-]; exists (EvExplore :: tagevs), [sv];
      cbn [trace]; rewrite Ht3, <- !app_assoc;
      (split; [reflexivity|]); (split; [exact Hmid|]); right; exists sv; eauto 6. }
  destruct dfs as [|df dfs]; apply Hsave; exact I.
Qed.

(** X14. The body of [run] writes the dataset at most once, and as its
    last step; when it writes nothing it has raised. *)
Theorem dataset_written_at_most_once (w : session) (u p : option string)
        (tags : list string) (path : string) (s : state) r s' :
  pipeline w u p tags path s = (r, s') ->
  exists evs,
    trace s' = trace s ++ evs
    /\ ((List.Forall (fun ev => ~ is_save ev) evs /\ exists e, r = Raised e)
        \/ (exists pre sv, evs = pre ++ [sv] /\ is_save sv
                           /\ List.Forall (fun ev => ~ is_save ev) pre)).
Proof.
  intros H. destruct (pipeline_shape _ _ _ _ _ _ _ _ H) as (mid & saves & Ht & Hmid & Hs).
  assert (Hpre : List.Forall (fun ev => ~ is_save ev)
                   ((if truthy u && truthy p then [EvLogin] else []) ++ mid)).
  { apply List.Forall_app. split.
    - destruct (truthy u && truthy p); repeat constructor; intros [].
    - eapply List.Forall_impl; [|exact Hmid].
      intros ev [->|Hev]; [intros []|]. destruct ev; try contradiction; intros []. }
  exists ((if truthy u && truthy p then [EvLogin] else []) ++ mid ++ saves).
  split; [exact Ht|].
  destruct Hs as [[-> He]|(sv & -> & Hsv & _)].
  - left. rewrite app_nil_r. split; assumption.
  - right. exists ((if truthy u && truthy p then [EvLogin] else []) ++ mid), sv.
    rewrite <- app_assoc. repeat split; assumption.
Qed.

(** X15. [run] logs in only when both the username and the password are
    non-empty, then as its first step, and never again. *)
Theorem login_needs_both_credentials (w : session) (u p : option string)
        (tags : list string) (path : string) (s : state) r s' :
  pipeline w u p tags path s = (r, s') ->
  exists rest,
    trace s' = trace s ++ (if truthy u && truthy p then [EvLogin] else []) ++ rest
    /\ List.Forall (fun ev => ev <> EvLogin) rest.
Proof.
  intros H. destruct (pipeline_shape _ _ _ _ _ _ _ _ H) as (mid & saves & Ht & Hmid & Hs).
  exists (mid ++ saves). split; [exact Ht|]. apply List.Forall_app. split.
  - eapply List.Forall_impl; [|exact Hmid].
    intros ev [->|Hev]; [discriminate|]. intros ->. exact Hev.
  - destruct Hs as [[-> _]|(sv & -> & Hsv & _)]; [constructor|].
    constructor; [|constructor]. intros ->. exact Hsv.
Qed.

End PipelineFacts.

Section CalmRunFacts.
Import Extractor Orchestrator OrchestratorSpec OrchestratorExtraSpec.

Lemma dataset_written_at_most_once_witness :
  exists pre sv,
    trace (snd (pipeline (calm (Returned tt)) None None ["#nifty"] "tweets.parquet" initial))
    = trace initial ++ pre ++ [sv]
    /\ is_save sv.
Proof.
  destruct (dataset_written_at_most_once (calm (Returned tt)) None None ["#nifty"]
              "tweets.parquet" initial
              (fst (pipeline (calm (Returned tt)) None None ["#nifty"] "tweets.parquet"
                             initial))
              (snd (pipeline (calm (Returned tt)) None None ["#nifty"] "tweets.parquet"
                             initial)))
    as (evs & Ht & [[_ [e He]]|(pre & sv & -> & Hsv & _)]).
  - reflexivity.
  - vm_compute in He. discriminate.
  - exists pre, sv. split; assumption.
Defined.

Lemma login_needs_both_credentials_witness :
  exists rest,
    trace (snd (pipeline (calm (Returned tt)) (Some "user") (Some EmptyString) ["#nifty"]
                         "tweets.parquet" initial))
    = rest
    /\ List.Forall (fun ev => ev <> EvLogin) rest.
Proof.
  destruct (login_needs_both_credentials (calm (Returned tt)) (Some "user")
              (Some EmptyString) ["#nifty"] "tweets.parquet" initial
              (fst (pipeline (calm (Returned tt)) (Some "user") (Some EmptyString)
                             ["#nifty"] "tweets.parquet" initial))
              (snd (pipeline (calm (Returned tt)) (Some "user") (Some EmptyString)
                             ["#nifty"] "tweets.parquet" initial)))
    as (rest & Ht & Hrest).
  - reflexivity.
  - exists rest. split; [exact Ht|exact Hrest].
Defined.

Lemma per_tag_all_return (w : session) (tags : list string) :
  all_return w ->
  forall i acc s, exists s',
    per_tag w i tags acc s = (Returned (acc ++ batches w i tags), s').
Proof.
  intros (_ & _ & Htag & _). induction tags as [|tag tags IH]; intros i acc s.
  - cbn [per_tag batches]. rewrite app_nil_r. eexists. reflexivity.
  - cbn [per_tag batches].
    destruct (Htag i tag) as ([a1 H1] & [a2 H2] & [a3 H3] & [html H4] & [df H5]).
    unfold mbind at 1, call at 1. rewrite H1.
    unfold mbind at 1, call at 1. rewrite H2.
    unfold mbind at 1, call at 1. rewrite H3.
    unfold mbind at 1, call at 1. rewrite H4. rewrite H5.
    destruct (truthy html).
    + unfold mbind at 1, call at 1. destruct df as [|r df].
      * apply IH.
      * match goal with
        | |- exists s', per_tag _ _ _ ?acc' ?st = _ =>
            destruct (IH (S i) acc' st) as [s' Hs']
        end.
        rewrite <- app_assoc in Hs'. eexists. exact Hs'.
    + destruct df as [|r df]; apply IH.
Qed.

Lemma pipeline_all_return (w : session) (u p : option string) (tags : list string)
      (path : string) (s : state) :
  all_return w ->
  exists pre,
    pipeline w u p tags path s
    = (Returned path, State (driver s) (trace s ++ pre ++ [save_event w tags])).
Proof.
  intros Hall. pose proof Hall as ([a0 Hl] & [ok He] & _ & Hsave & [a5 Hpq]).
  unfold pipeline.
  assert (Hlogin : exists lp,
            (if truthy u && truthy p then call EvLogin (login_res w) else ret tt) s
            = (Returned tt, State (driver s) (trace s ++ lp))).
  { destruct (truthy u && truthy p).
    - exists [EvLogin]. unfold call. rewrite Hl. now destruct a0.
    - exists []. unfold ret. rewrite app_nil_r. now destruct s. }
  destruct Hlogin as [lp Hlogin]. unfold mbind at 1. rewrite Hlogin.
  unfold mbind at 1, call at 1. rewrite He. cbn [driver trace].
  unfold mbind at 1.
  destruct (per_tag_all_return w tags Hall 0%nat []
              (State (driver s) ((trace s ++ lp) ++ [EvExplore]))) as [s3 Hpt].
  rewrite Hpt. cbn [app].
  assert (Hd : driver s3 = driver s)
    by exact (per_tag_keeps_driver w tags 0%nat [] _ _ _ Hpt).
  destruct (per_tag_emits w tags 0%nat [] _ _ _ Hpt) as (tagevs & Ht3 & _).
  cbn [trace] in Ht3. unfold save_event.
  exists (lp ++ EvExplore :: tagevs).
  destruct (batches w 0 tags) as [|df dfs]; unfold mbind, call, ret.
  - rewrite Hpq. rewrite Hd, Ht3. f_equal. f_equal.
    rewrite <- !app_assoc. reflexivity.
  - destruct (Hsave (aggregate (df :: dfs))) as [a6 H6]. rewrite H6.
    rewrite Hd, Ht3. f_equal. f_equal. rewrite <- !app_assoc. reflexivity.
Qed.

(** X16. When the browser starts and no collaborator raises, [run]
    returns the output path; its last three steps are the write, of the
    aggregate of the frames of the hashtags that gave HTML and records
    (an empty dataset when there is none), then [close] and [quit]. *)
Theorem run_persists_the_batches (w : session) (u p : option string)
        (tags : list string) (path : string) :
  mkdir_res w = Returned tt ->
  driver_path_exists w = true ->
  chrome_res w = Returned tt ->
  set_window_size_res w = Returned tt ->
  all_return w ->
  exists pre,
    run w u p tags path initial
    = (Returned path, State true (pre ++ [save_event w tags; EvClose; EvQuit])).
Proof.
  intros Hmk Hpath Hchrome Hsize Hall.
  unfold run, start_driver. rewrite Hmk, Hpath, Hchrome, Hsize.
  cbv [mbind call set_driver initial driver trace app].
  destruct (pipeline_all_return w u p tags path
              (State true [EvMkdir; EvChrome; EvSetWindowSize]) Hall) as [pre Hp].
  unfold finally. rewrite Hp. rewrite close_returns. unfold closing. cbn [driver trace].
  exists ([EvMkdir; EvChrome; EvSetWindowSize] ++ pre).
  f_equal. f_equal. rewrite <- !app_assoc. reflexivity.
Qed.

End CalmRunFacts.

(** ** The navigation scripts *)

Section NavigationFacts.
Import Navigation NavigationSpec.

Lemma verify_explore_returns (v : verify_env) (t : list command) :
  exists t', verify_explore v t = (Returned (verified v), t').
Proof.
  unfold verify_explore, verified, ntry, nbind, step, nret.
  destruct (current_url v) as [url|e]; [|eauto].
  destruct (Text.contains "/explore" url); [eauto|].
  destruct (search_input_wait v); eauto.
Qed.

Lemma click_strategy_returns (tg : target) (find scroll click : outcome unit)
      (v : verify_env) (t : list command) :
  exists t',
    click_strategy tg find scroll click v t
    = (Returned (is_returned find && is_returned scroll && is_returned click
                 && verified v), t').
Proof.
  unfold click_strategy, ntry, nbind, step at 1 2 3, nret.
  destruct find; [|eauto]. destruct scroll; [|eauto]. destruct click; [|eauto].
  destruct (verify_explore_returns v (((t ++ [Find tg 0]) ++ [ScrollIntoView tg])
                                      ++ [Click tg])) as [t' ->].
  eauto.
Qed.

(** X17. [click_explore] never raises, whatever the driver does: it
    answers whether one of its three strategies got through and was
    verified. *)
Theorem click_explore_never_raises (e : explore_env) (t : list command) :
  exists t', click_explore e t = (Returned (explore_reached e), t').
Proof.
  unfold click_explore, explore_reached. unfold nbind at 1.
  destruct (click_strategy_returns SearchIcon (svg_find e) (svg_scroll e)
              (svg_click e) (svg_verify e) t) as [t1 ->].
  destruct (_ && verified (svg_verify e)); [eexists; reflexivity|].
  unfold nbind at 1.
  destruct (click_strategy_returns ExploreButton (text_find e) (text_scroll e)
              (text_click e) (text_verify e) t1) as [t2 ->].
  destruct (_ && verified (text_verify e)); [eexists; reflexivity|].
  unfold nbind at 1, ntry, nbind at 1, step, nret.
  destruct (explore_get e); cbn [is_returned orb andb].
  - destruct (verify_explore_returns (explore_verify e)
                (t2 ++ [Get "https://x.com/explore"])) as [t3 ->].
    destruct (verified (explore_verify e)); eexists; reflexivity.
  - eexists; reflexivity.
Qed.

(** X18. [click_latest_tab] never raises: it answers whether the tab was
    found, scrolled to and clicked; the second lookup is made only when
    the wait for the first has failed. *)
Theorem click_latest_tab_never_raises (e : latest_env) :
  exists t,
    click_latest_tab e []
    = (Returned ((is_returned (latest_wait e) || is_returned (latest_find e))
                 && is_returned (latest_scroll e) && is_returned (latest_click e)), t)
    /\ (In (Find LatestTab 1) t -> is_returned (latest_wait e) = false).
Proof.
  unfold click_latest_tab, found, ntry, nbind, step, nret.
  destruct (latest_wait e), (latest_find e), (latest_scroll e), (latest_click e);
    cbn; eexists; (split; [reflexivity|]); cbn; intuition discriminate.
Qed.

Ltac give_prefix :=
  match goal with
  | |- exists pre el, ?l = _ /\ _ =>
      exists (List.firstn (List.length l - 2) l); eexists;
      split; [reflexivity|]; split; [repeat constructor; intros []|cbn; tauto]
  end.

(** X19. [search_hashtag] returns exactly when the search box appears,
    its tag name can be read and the two last key strokes go through;
    when the box does not appear nothing else is tried.  On return the
    hashtag and then Enter were sent to one element, as the last two
    commands, nothing else was typed, and a clearing of that element
    (Backspace or [clear]) was attempted before. *)
Theorem search_hashtag_types_once (e : search_env) (hashtag : string) r t :
  search_hashtag e hashtag [] = (r, t) ->
  (r = Returned tt <->
   is_returned (box_wait e) && is_returned (box_tag_name e)
   && is_returned (type_hashtag e) && is_returned (type_enter e) = true)
  /\ (is_returned (box_wait e) = false -> t = [Wait SearchBox 0])
  /\ (r = Returned tt ->
      exists pre el,
        t = pre ++ [SendKeys el (Typed hashtag); SendKeys el Enter]
        /\ List.Forall (fun c => ~ is_typing c) pre
        /\ (In (SendKeys el Backspace) pre \/ In (Clear el) pre)).
Proof.
  unfold search_hashtag, ntry, nbind, step, nret.
  destruct (box_wait e) as [[]|?];
    [|intros [= <- <-]; cbn; repeat split; try discriminate; reflexivity].
  destruct (box_click e) as [[]|?], (box_tag_name e) as [tag|?];
    try (intros [= <- <-]; cbn; repeat split; try discriminate; reflexivity);
    destruct (negb (String.eqb (Text.lower tag) "input"));
    destruct (input_find e) as [[]|?], (select_all e) as [[]|?],
             (backspace e) as [[]|?], (clear e) as [[]|?],
             (type_hashtag e) as [[]|?], (type_enter e) as [[]|?];
    intros [= <- <-]; cbn;
    (split; [split; (reflexivity || discriminate)|]);
    (split; [discriminate|]);
    intros Hr; first [discriminate Hr|clear Hr; give_prefix].
Qed.

End NavigationFacts.

Section LoginFacts.
Import Navigation NavigationSpec LoginSpec.

Lemma yields_first_found (tg : target) (waits : nat -> outcome unit) (n i : nat) :
  yields (first_found tg waits i n)
         (List.existsb (fun j => is_returned (waits j)) (List.seq i n)).
Proof.
  revert i. induction n as [|n IH]; intros i t; cbn [first_found List.seq List.existsb].
  - eexists. reflexivity.
  - unfold found, ntry, nbind at 1 2, step, nret.
    destruct (waits i) as [[]|x]; cbn [is_returned orb].
    + eexists. reflexivity.
    + apply IH.
Qed.

Lemma decides_nret {A : Type} (a : A) : decides (nret a) true.
Proof. now intros t. Qed.

Lemma decides_step {A : Type} (c : command) (res : outcome A) :
  decides (step c res) (is_returned res).
Proof. now intros t. Qed.

Lemma decides_bind {A B : Type} (m : N A) (k : A -> N B) (b1 b2 : bool) :
  decides m b1 -> (forall a, decides (k a) b2) -> decides (nbind m k) (b1 && b2).
Proof.
  intros Hm Hk t. unfold nbind. specialize (Hm t).
  destruct (m t) as [[a|x] t']; cbn in Hm |- *; subst b1; [apply Hk|reflexivity].
Qed.

Lemma decides_yields {A B : Type} (m : N A) (k : A -> N B) (a : A) (b : bool) :
  yields m a -> decides (k a) b -> decides (nbind m k) b.
Proof.
  intros Hm Hk t. unfold nbind. destruct (Hm t) as [t' ->]. apply Hk.
Qed.

Lemma decides_try_pass {A : Type} (m : N A) (a : A) : decides (ntry m (nret a)) true.
Proof. intros t. unfold ntry, nret. now destruct (m t) as [[?|?] ?]. Qed.

Lemma decides_type_into (tg : target) (text : string) (c1 c2 c3 : outcome unit) :
  decides (type_into tg text c1 c2 c3)
          (is_returned c1 && is_returned c2 && is_returned c3).
Proof.
  intros t. unfold type_into, nbind, step.
  now destruct c1 as [[]|?], c2 as [[]|?], c3 as [[]|?].
Qed.

(** X20. [login] raises exactly when the page does not load, or when an
    input that was found cannot be clicked, cleared and typed into; the
    buttons never make it raise. *)
Theorem login_raises_only_while_typing (e : login_env) (username password : string)
        (t : list command) :
  is_returned (login e username password t).1
  = is_returned (login_get e)
    && (negb (username_found e) || username_typed e)
    && (negb (password_found e) || password_typed e).
Proof.
  assert (H : decides (login e username password)
                (is_returned (login_get e)
                 && ((negb (username_found e) || username_typed e)
                     && (true && ((negb (password_found e) || password_typed e)
                                  && true))))).
  { unfold login.
    apply decides_bind; [apply decides_step|intros _].
    eapply decides_yields; [apply yields_first_found|].
    apply decides_bind.
    { fold (any_found (username_waits e) 4). fold (username_found e).
      destruct (username_found e); [apply decides_type_into|apply decides_nret]. }
    intros _. apply decides_bind; [apply decides_try_pass|intros _].
    eapply decides_yields; [apply yields_first_found|].
    apply decides_bind; [|intros _; apply decides_try_pass].
    fold (any_found (password_waits e) 3). fold (password_found e).
    destruct (password_found e); [apply decides_type_into|apply decides_nret]. }
  rewrite (H t). cbn [andb]. now rewrite andb_true_r, andb_assoc.
Qed.

Lemma issues_nret {A : Type} (P : command -> Prop) (a : A) : issues P (nret a).
Proof. intros t. exists []. split; [now rewrite app_nil_r|constructor]. Qed.

Lemma issues_step {A : Type} (P : command -> Prop) (c : command) (res : outcome A) :
  P c -> issues P (step c res).
Proof. intros Hc t. exists [c]. split; [reflexivity|now repeat constructor]. Qed.

Lemma issues_bind {A B : Type} (P : command -> Prop) (m : N A) (k : A -> N B) :
  issues P m -> (forall a, issues P (k a)) -> issues P (nbind m k).
Proof.
  intros Hm Hk t. unfold nbind. destruct (Hm t) as (cs & Hcs & HP).
  destruct (m t) as [[a|x] t']; cbn [snd] in Hcs |- *; subst t'.
  - destruct (Hk a (t ++ cs)) as (cs' & -> & HP').
    exists (cs ++ cs'). split; [now rewrite app_assoc|now apply List.Forall_app].
  - now exists cs.
Qed.

Lemma issues_yields {A B : Type} (P : command -> Prop) (m : N A) (k : A -> N B) (a : A) :
  yields m a -> issues P m -> issues P (k a) -> issues P (nbind m k).
Proof.
  intros Hy Hm Hk t. unfold nbind. destruct (Hm t) as (cs & Hcs & HP).
  destruct (Hy t) as [t' Ht']. rewrite Ht' in Hcs |- *. cbn [snd] in Hcs. subst t'.
  destruct (Hk (t ++ cs)) as (cs' & -> & HP').
  exists (cs ++ cs'). split; [now rewrite app_assoc|now apply List.Forall_app].
Qed.

Lemma issues_try {A : Type} (P : command -> Prop) (m h : N A) :
  issues P m -> issues P h -> issues P (ntry m h).
Proof.
  intros Hm Hh t. unfold ntry. destruct (Hm t) as (cs & Hcs & HP).
  destruct (m t) as [[a|x] t']; cbn [snd] in Hcs |- *; subst t'.
  - now exists cs.
  - destruct (Hh (t ++ cs)) as (cs' & -> & HP').
    exists (cs ++ cs'). split; [now rewrite app_assoc|now apply List.Forall_app].
Qed.

Lemma issues_found (P : command -> Prop) (c : command) (res : outcome unit) :
  P c -> issues P (found c res).
Proof.
  intros Hc. unfold found. apply issues_try; [|apply issues_nret].
  apply issues_bind; [now apply issues_step|intros _; apply issues_nret].
Qed.

Lemma issues_first_found (P : command -> Prop) (tg : target)
      (waits : nat -> outcome unit) (n i : nat) :
  (forall j, P (Wait tg j)) -> issues P (first_found tg waits i n).
Proof.
  intros Hw. revert i. induction n as [|n IH]; intros i; cbn [first_found].
  - apply issues_nret.
  - apply issues_bind; [now apply issues_found|].
    intros [|]; [apply issues_nret|apply IH].
Qed.

Lemma issues_type_into (P : command -> Prop) (tg : target) (text : string)
      (c1 c2 c3 : outcome unit) :
  P (Click tg) -> P (Clear tg) -> P (SendKeys tg (Typed text)) ->
  issues P (type_into tg text c1 c2 c3).
Proof.
  intros H1 H2 H3. unfold type_into.
  apply issues_bind; [now apply issues_step|intros _].
  apply issues_bind; [now apply issues_step|intros _].
  now apply issues_step.
Qed.

Ltac login_command_trivial :=
  repeat split; cbn; (exact I || discriminate || tauto || auto).

(** X21. Whatever the page answers, [login] types nothing but the user
    name into the user-name input and the password into the password
    input, and it clicks, clears or sends keys to an input only when one
    of its selectors was answered. *)
Theorem login_types_only_credentials (e : login_env) (username password : string) :
  List.Forall (login_command e username password) (login e username password []).2.
Proof.
  assert (H : issues (login_command e username password) (login e username password)).
  { unfold login.
    apply issues_bind; [apply issues_step; login_command_trivial|intros _].
    eapply issues_yields;
      [apply yields_first_found
      |apply issues_first_found; intros j; login_command_trivial|].
    fold (any_found (username_waits e) 4). fold (username_found e).
    apply issues_bind.
    { destruct (username_found e) eqn:Hu; [|apply issues_nret].
      apply issues_type_into; login_command_trivial. }
    intros _. apply issues_bind.
    { apply issues_try; [|apply issues_nret].
      apply issues_bind; [apply issues_found; login_command_trivial|].
      intros [|].
      - apply issues_bind; [apply issues_step; login_command_trivial|intros _].
        apply issues_step; login_command_trivial.
      - destruct (username_found e) eqn:Hu; [|apply issues_nret].
        apply issues_step; login_command_trivial. }
    intros _.
    eapply issues_yields;
      [apply yields_first_found
      |apply issues_first_found; intros j; login_command_trivial|].
    fold (any_found (password_waits e) 3). fold (password_found e).
    apply issues_bind.
    { destruct (password_found e) eqn:Hp; [|apply issues_nret].
      apply issues_type_into; login_command_trivial. }
    intros _. apply issues_try; [|apply issues_nret].
    apply issues_bind; [apply issues_found; login_command_trivial|].
    intros has_btn. apply issues_bind.
    { destruct has_btn; [apply issues_nret|apply issues_found; login_command_trivial]. }
    intros [|].
    - apply issues_bind; [apply issues_step; login_command_trivial|intros _].
      apply issues_bind; [apply issues_step; login_command_trivial|intros _].
      apply issues_step; login_command_trivial.
    - destruct (password_found e) eqn:Hp; [|apply issues_nret].
      apply issues_step; login_command_trivial. }
  destruct (H []) as (cs & -> & HP). exact HP.
Qed.

End LoginFacts.

(** ** The dashboard *)

Section DashboardFacts.
Import Dashboard DashboardSpec TextSpec.

Lemma lstrip_by_idem (p : ascii -> bool) (s : string) :
  Text.lstrip_by p (Text.lstrip_by p s) = Text.lstrip_by p s.
Proof.
  induction s as [|c r IH]; [reflexivity|]. cbn [Text.lstrip_by].
  destruct (p c) eqn:Hc; [exact IH|]. cbn [Text.lstrip_by]. now rewrite Hc.
Qed.

Lemma rstrip_by_idem (p : ascii -> bool) (s : string) :
  Text.rstrip_by p (Text.rstrip_by p s) = Text.rstrip_by p s.
Proof.
  induction s as [|c r IH]; [reflexivity|]. cbn [Text.rstrip_by].
  destruct (p c && Text.is_empty (Text.rstrip_by p r)) eqn:Hc; [reflexivity|].
  cbn [Text.rstrip_by]. now rewrite IH, Hc.
Qed.

Lemma rstrip_by_tail (p : ascii -> bool) (c : ascii) (r : string) :
  Text.rstrip_by p (String c r) = String c r -> Text.rstrip_by p r = r.
Proof.
  cbn [Text.rstrip_by].
  destruct (p c && Text.is_empty (Text.rstrip_by p r)); [discriminate|].
  now intros [= ->].
Qed.

Lemma rstrip_lstrip (p : ascii -> bool) (s : string) :
  Text.rstrip_by p s = s -> Text.rstrip_by p (Text.lstrip_by p s) = Text.lstrip_by p s.
Proof.
  induction s as [|c r IH]; [reflexivity|]. intros H. cbn [Text.lstrip_by].
  destruct (p c); [|exact H]. apply IH. exact (rstrip_by_tail _ _ _ H).
Qed.

Lemma strip_tidy (s : string) : tidy (Text.strip s).
Proof.
  unfold tidy, Text.strip. split; [apply lstrip_by_idem|].
  apply rstrip_lstrip, rstrip_by_idem.
Qed.

Lemma tidy_strip (s : string) : tidy s -> Text.strip s = s.
Proof. intros [Hl Hr]. unfold Text.strip. now rewrite Hr, Hl. Qed.

Lemma tidy_hash (s : string) : tidy s -> tidy ("#" +:+ s).
Proof.
  intros [Hl Hr]. change ("#" +:+ s) with (String "#" s). split; [reflexivity|].
  cbn [Text.rstrip_by]. now rewrite Hr.
Qed.

Lemma forallb_lstrip (q p : ascii -> bool) (s : string) :
  Text.forallb q s = true -> Text.forallb q (Text.lstrip_by p s) = true.
Proof.
  induction s as [|c r IH]; [reflexivity|]. intros H. cbn [Text.lstrip_by].
  destruct (p c); [|exact H]. apply IH.
  cbn [Text.forallb] in H. now apply andb_true_iff in H.
Qed.

Lemma forallb_rstrip (q p : ascii -> bool) (s : string) :
  Text.forallb q s = true -> Text.forallb q (Text.rstrip_by p s) = true.
Proof.
  induction s as [|c r IH]; [reflexivity|]. intros H. cbn [Text.rstrip_by].
  cbn [Text.forallb] in H. apply andb_true_iff in H as [Hc Hr].
  destruct (p c && _); [reflexivity|]. cbn [Text.forallb]. now rewrite Hc, IH.
Qed.

Lemma forallb_strip (q : ascii -> bool) (s : string) :
  Text.forallb q s = true -> Text.forallb q (Text.strip s) = true.
Proof. intros H. now apply forallb_lstrip, forallb_rstrip. Qed.

Lemma forallb_split_go (q : ascii -> bool) (sep : string) (s : string) : forall skip,
  Text.forallb q s = true ->
  Text.forallb q (Text.split_go sep skip s).1 = true
  /\ List.Forall (fun p => Text.forallb q p = true) (Text.split_go sep skip s).2.
Proof.
  induction s as [|c r IH]; intros skip H; [split; [reflexivity|constructor]|].
  cbn [Text.forallb] in H. apply andb_true_iff in H as [Hc Hr].
  cbn [Text.split_go]. destruct skip as [|k]; [|now apply IH].
  destruct (Text.starts_with sep (String c r)).
  - destruct (IH (String.length sep - 1)%nat Hr) as [H1 H2].
    destruct (Text.split_go sep (String.length sep - 1) r) as [p ps].
    cbn [fst snd] in *. split; [reflexivity|now constructor].
  - destruct (IH 0%nat Hr) as [H1 H2].
    destruct (Text.split_go sep 0 r) as [p ps].
    cbn [fst snd Text.forallb] in *. now rewrite Hc, H1.
Qed.

Lemma forallb_split (q : ascii -> bool) (sep s : string) :
  Text.forallb q s = true ->
  List.Forall (fun p => Text.forallb q p = true) (Text.split sep s).
Proof.
  intros H. unfold Text.split. destruct (forallb_split_go q sep s 0%nat H) as [H1 H2].
  destruct (Text.split_go sep 0 s) as [p ps]. now constructor.
Qed.

Lemma replace_char_free (a b : ascii) (s : string) :
  a <> b -> free_of a (replace_char a b s).
Proof.
  intros Hab. unfold free_of. induction s as [|c r IH]; [reflexivity|].
  cbn [replace_char Text.forallb]. rewrite IH, andb_true_r.
  unfold Text.is_char. destruct (Ascii.eqb a c) eqn:Hc.
  - apply negb_true_iff, Ascii.eqb_neq. exact Hab.
  - now rewrite Hc.
Qed.

Lemma replace_char_none (a b : ascii) (s : string) :
  free_of a s -> replace_char a b s = s.
Proof.
  unfold free_of. induction s as [|c r IH]; [reflexivity|].
  cbn [replace_char Text.forallb]. intros H. apply andb_true_iff in H as [Hc Hr].
  apply negb_true_iff in Hc. now rewrite Hc, IH.
Qed.

Lemma with_hash_well_formed (s : string) :
  free_of "," s -> free_of newline s -> tidy s -> well_formed (with_hash s).
Proof.
  intros Hc Hn Ht. unfold with_hash, well_formed.
  destruct (Text.starts_with "#" s) eqn:Hs.
  - repeat split; try assumption. now apply tidy_strip.
  - change ("#" +:+ s) with (String "#" s).
    repeat split; try assumption. now apply tidy_strip, (tidy_hash s).
Qed.

Lemma parse_hashtags_well_formed (text : string) :
  List.Forall well_formed (parse_hashtags text).
Proof.
  unfold parse_hashtags. destruct (Text.is_empty text); [constructor|].
  pose proof (split_free "," (replace_char newline "," text)) as Hc.
  pose proof (forallb_split (fun a => negb (Text.is_char newline a)) ","
                (replace_char newline "," text)
                (replace_char_free newline "," text ltac:(discriminate))) as Hn.
  change (Text.split (String "," EmptyString)) with (Text.split ",") in Hc.
  induction (Text.split "," (replace_char newline "," text)) as [|p ps IH];
    [constructor|].
  apply List.Forall_cons_iff in Hc as [Hp Hps]. apply List.Forall_cons_iff in Hn as [Hp' Hps'].
  cbn [List.filter]. destruct (negb (Text.is_empty (Text.strip p))); [|now apply IH].
  cbn [List.map]. constructor; [|now apply IH].
  apply with_hash_well_formed; [now apply forallb_strip|now apply forallb_strip|].
  apply strip_tidy.
Qed.

(** X22. Every hashtag that [parse_hashtags] hands to the scraper starts
    with [#], holds no comma and no line break, and has no white space at
    either end; none is empty. *)
Theorem parsed_hashtags_are_well_formed (text : string) :
  List.Forall (fun tag => well_formed tag /\ Text.is_empty tag = false)
              (parse_hashtags text).
Proof.
  eapply List.Forall_impl; [|apply parse_hashtags_well_formed].
  intros tag Hwf. split; [exact Hwf|].
  destruct Hwf as (Hh & _). now destruct tag.
Qed.

Lemma split_go_whole (c : ascii) (p : string) :
  free_of c p -> Text.split_go (String c EmptyString) 0 p = (p, []).
Proof.
  unfold free_of. induction p as [|a p IH]; [reflexivity|].
  cbn [Text.forallb]. intros H. apply andb_true_iff in H as [Ha Hp].
  cbn [Text.split_go Text.starts_with]. unfold Text.is_char in Ha.
  apply negb_true_iff in Ha. rewrite Ha. cbn [andb]. now rewrite (IH Hp).
Qed.

Lemma split_go_piece (c : ascii) (p r : string) :
  free_of c p ->
  Text.split_go (String c EmptyString) 0 (p +:+ String c r)
  = (p, Text.split (String c EmptyString) r).
Proof.
  unfold free_of. induction p as [|a p IH].
  - intros _. change (EmptyString +:+ String c r) with (String c r).
    cbn [Text.split_go Text.starts_with]. rewrite Ascii.eqb_refl. cbn [andb].
    reflexivity.
  - cbn [Text.forallb]. intros H. apply andb_true_iff in H as [Ha Hp].
    rewrite append_cons. cbn [Text.split_go Text.starts_with].
    unfold Text.is_char in Ha. apply negb_true_iff in Ha. rewrite Ha. cbn [andb].
    now rewrite (IH Hp).
Qed.

Lemma split_join (c : ascii) (tag : string) (tags : list string) :
  List.Forall (free_of c) (tag :: tags) ->
  Text.split (String c EmptyString) (Text.join (String c EmptyString) (tag :: tags))
  = tag :: tags.
Proof.
  revert tag. induction tags as [|tag' tags IH]; intros tag H;
    apply List.Forall_cons_iff in H as [Htag Htags].
  - cbn [Text.join]. unfold Text.split. now rewrite split_go_whole.
  - change (Text.join (String c EmptyString) (tag :: tag' :: tags))
      with (tag +:+ String c (Text.join (String c EmptyString) (tag' :: tags))).
    unfold Text.split at 1. rewrite split_go_piece by assumption.
    now rewrite IH.
Qed.

Lemma forallb_join (q : ascii -> bool) (sep : string) (tags : list string) :
  Text.forallb q sep = true ->
  List.Forall (fun p => Text.forallb q p = true) tags ->
  Text.forallb q (Text.join sep tags) = true.
Proof.
  intros Hsep H. induction H as [|tag tags Htag Htags IH]; [reflexivity|].
  destruct tags as [|tag' tags]; [exact Htag|].
  change (Text.join sep (tag :: tag' :: tags))
    with (tag +:+ sep +:+ Text.join sep (tag' :: tags)).
  apply forallb_append; [exact Htag|]. apply forallb_append; [exact Hsep|exact IH].
Qed.

Lemma well_formed_kept (tags : list string) :
  List.Forall well_formed tags ->
  List.map with_hash
    (List.map Text.strip
       (List.filter (fun tag => negb (Text.is_empty (Text.strip tag))) tags))
  = tags.
Proof.
  induction 1 as [|tag tags (Hh & _ & _ & Hs) _ IH]; [reflexivity|].
  cbn [List.filter]. rewrite Hs.
  destruct tag as [|a tag]; [discriminate|]. cbn [Text.is_empty negb List.map].
  rewrite Hs, IH. unfold with_hash. now rewrite Hh.
Qed.

(** X23. Writing the parsed hashtags back as one line of text, separated
    by commas, and parsing that line gives the same hashtags. *)
Theorem parse_hashtags_round_trip (text : string) :
  parse_hashtags (Text.join "," (parse_hashtags text)) = parse_hashtags text.
Proof.
  pose proof (parse_hashtags_well_formed text) as H.
  destruct (parse_hashtags text) as [|tag tags]; [reflexivity|].
  unfold parse_hashtags.
  assert (Hj : Text.is_empty (Text.join "," (tag :: tags)) = false).
  { apply List.Forall_cons_iff in H as [(Hh & _) _].
    destruct tag as [|a tag]; [discriminate|]. now destruct tags. }
  rewrite Hj. rewrite replace_char_none.
  - change (Text.split ",") with (Text.split (String "," EmptyString)).
    change (Text.join ",") with (Text.join (String "," EmptyString)).
    rewrite split_join; [now apply well_formed_kept|].
    eapply List.Forall_impl; [|exact H]. now intros s (_ & Hc & _).
  - apply forallb_join; [reflexivity|].
    eapply List.Forall_impl; [|exact H]. now intros s (_ & _ & Hn & _).
Qed.

End DashboardFacts.

Section SentimentFacts.
Import Sentiment SentimentSpec.

Lemma lower_char_idem (c : ascii) : lower_char (lower_char c) = lower_char c.
Proof.
  destruct c as [[] [] [] [] [] [] [] []]; reflexivity.
Qed.

Lemma lower_idem (s : string) : lower (lower s) = lower s.
Proof.
  induction s as [|c r IH]; [reflexivity|].
  cbn [lower]. now rewrite lower_char_idem, IH.
Qed.

Lemma keyword_count_le (keywords : list string) (s : string) :
  (keyword_count keywords s <= List.length keywords)%nat.
Proof. apply List.filter_length_le. Qed.

(** X24. The sentiment score does not depend on the case of the text and
    lies between -11 and 13, minus the number of bearish keywords and the
    number of bullish ones. *)
Theorem sentiment_score_range_and_case (text : string) :
  calculate_sentiment_score (lower text) = calculate_sentiment_score text
  /\ (-11 <= calculate_sentiment_score text <= 13)%Z.
Proof.
  unfold calculate_sentiment_score. rewrite lower_idem. split; [reflexivity|].
  pose proof (keyword_count_le bullish_keywords (lower text)) as Hb.
  pose proof (keyword_count_le bearish_keywords (lower text)) as Hs.
  cbn [List.length bullish_keywords bearish_keywords] in Hb, Hs. lia.
Qed.

Lemma starts_with_prefix (p q s : string) :
  Text.starts_with (p +:+ q) s = true -> Text.starts_with p s = true.
Proof.
  revert s. induction p as [|a p IH]; intros s; [reflexivity|].
  rewrite append_cons. cbn [Text.starts_with]. destruct s as [|b s]; [discriminate|].
  intros H. apply andb_true_iff in H as [Hab Hp]. rewrite Hab. now apply IH.
Qed.

Lemma contains_prefix (p q s : string) :
  Text.contains (p +:+ q) s = true -> Text.contains p s = true.
Proof.
  induction s as [|b s IH]; cbn [Text.contains]; intros H;
    apply orb_true_iff in H as [H|H].
  - now rewrite (starts_with_prefix _ _ _ H).
  - discriminate.
  - now rewrite (starts_with_prefix _ _ _ H).
  - rewrite (IH H). apply orb_true_r.
Qed.

Lemma keyword_count_none (keywords : list string) (s : string) :
  List.Forall (fun word => Text.contains word s = false) keywords ->
  keyword_count keywords s = 0%nat.
Proof.
  unfold keyword_count. induction 1 as [|w ws Hw _ IH]; [reflexivity|].
  cbn [List.filter]. now rewrite Hw.
Qed.

(** X25. A text that mentions [bullish] is counted for [bull] as well:
    with no bearish keyword in it the score is at least 2; and likewise
    a text that mentions [bearish] and no bullish keyword scores at
    most -2. *)
Theorem sentiment_counts_stem_and_word (text : string) :
  (mentions "bullish" text -> mentions_none bearish_keywords text ->
   (2 <= calculate_sentiment_score text)%Z)
  /\ (mentions "bearish" text -> mentions_none bullish_keywords text ->
      (calculate_sentiment_score text <= -2)%Z).
Proof.
  unfold mentions, mentions_none, calculate_sentiment_score. split; intros Hw Hnone.
  - rewrite (keyword_count_none _ _ Hnone).
    pose proof (contains_prefix "bull" "ish" _ Hw) as Hstem.
    change ("bull" +:+ "ish") with "bullish" in Hstem.
    unfold keyword_count.
    change bullish_keywords
      with ("bullish" :: List.removelast (List.tl bullish_keywords) ++ ["bull"]).
    cbn [List.filter]. rewrite Hw, List.filter_app, List.length_cons, List.length_app.
    cbn [List.filter]. rewrite Hstem. cbn [List.length]. lia.
  - rewrite (keyword_count_none _ _ Hnone).
    pose proof (contains_prefix "bear" "ish" _ Hw) as Hstem.
    unfold keyword_count.
    change bearish_keywords
      with ("bearish" :: List.removelast (List.tl bearish_keywords) ++ ["bear"]).
    cbn [List.filter]. rewrite Hw, List.filter_app, List.length_cons, List.length_app.
    cbn [List.filter]. rewrite Hstem. cbn [List.length]. lia.
Qed.

Lemma sentiment_counts_stem_and_word_witness :
  calculate_sentiment_score "Very BULLISH today" = 2%Z
  /\ (2 <= calculate_sentiment_score "Very BULLISH today")%Z
  /\ (calculate_sentiment_score "bearish mood" <= -2)%Z.
Proof.
  split; [reflexivity|]. split.
  - apply (sentiment_counts_stem_and_word "Very BULLISH today");
      [vm_compute; reflexivity|vm_compute; repeat constructor].
  - apply (sentiment_counts_stem_and_word "bearish mood");
      [vm_compute; reflexivity|vm_compute; repeat constructor].
Defined.

End SentimentFacts.

(** ** Instances of the properties of the collector, of [run] and of the search *)

Lemma collector_degenerate_bounds_witness :
  Collector.collect (CollectorSpec.fixed_rate 2) 500 (8 # 10) 0 = ([], Returned 0%nat)
  /\ Collector.ensure_min_tweets_loaded (CollectorSpec.fixed_rate 2) 0 (8 # 10) 300
     = Returned 2%nat.
Proof.
  split.
  - apply (collector_degenerate_bounds (CollectorSpec.fixed_rate 2) 500 (8 # 10) 0). lia.
  - apply (collector_degenerate_bounds (CollectorSpec.fixed_rate 2) 0 (8 # 10) 300); lia.
Defined.


Lemma run_persists_the_batches_witness :
  exists pre,
    Orchestrator.run (OrchestratorSpec.calm (Returned tt)) None None ["#nifty"]
                     "tweets.parquet" Orchestrator.initial
    = (Returned "tweets.parquet",
       Orchestrator.State true
         (pre ++ [OrchestratorExtraSpec.save_event (OrchestratorSpec.calm (Returned tt))
                    ["#nifty"];
                  Orchestrator.EvClose; Orchestrator.EvQuit])).
Proof.
  apply (run_persists_the_batches (OrchestratorSpec.calm (Returned tt)) None None
           ["#nifty"] "tweets.parquet"); try reflexivity.
  repeat split; eexists; reflexivity.
Defined.

Lemma search_hashtag_types_once_witness :
  exists pre el,
    snd (Navigation.search_hashtag
           (Navigation.SearchEnv (Returned tt) (Raised WebDriverException) (Returned "div")
              (Returned tt) (Raised WebDriverException) (Returned tt) (Returned tt)
              (Returned tt) (Returned tt)) "#nifty" [])
    = pre ++ [Navigation.SendKeys el (Navigation.Typed "#nifty");
              Navigation.SendKeys el Navigation.Enter]
    /\ (In (Navigation.SendKeys el Navigation.Backspace) pre
        \/ In (Navigation.Clear el) pre).
Proof.
  destruct (search_hashtag_types_once
              (Navigation.SearchEnv (Returned tt) (Raised WebDriverException)
                 (Returned "div") (Returned tt) (Raised WebDriverException) (Returned tt)
                 (Returned tt) (Returned tt) (Returned tt)) "#nifty"
              (Returned tt)
              [Navigation.Wait Navigation.SearchBox 0;
               Navigation.Click Navigation.SearchBox;
               Navigation.TagName Navigation.SearchBox;
               Navigation.Find Navigation.SearchBoxInput 0;
               Navigation.SendKeys Navigation.SearchBoxInput Navigation.SelectAll;
               Navigation.Clear Navigation.SearchBoxInput;
               Navigation.SendKeys Navigation.SearchBoxInput (Navigation.Typed "#nifty");
               Navigation.SendKeys Navigation.SearchBoxInput Navigation.Enter])
    as (_ & _ & H).
  - reflexivity.
  - destruct (H eq_refl) as (pre & el & Ht & _ & Hclear).
    exists pre, el. split; [exact Ht|exact Hclear].
Defined.

(** ** A run in which a hashtag fails *)

Section FailureFacts.
Import Extractor Orchestrator OrchestratorSpec OrchestratorExtraSpec FailureSpec.

Lemma per_tag_raises_here (w : session) (i : nat) (tag : string) (post : list string)
      (e : exn) (acc : list (list row)) (s : state) :
  tag_raises w i tag e ->
  exists s', per_tag w i (tag :: post) acc s = (Raised e, s').
Proof.
  cbn [per_tag]. unfold mbind, call.
  intros [H1|[[a1 H1] H]]; rewrite H1; [eauto|].
  destruct H as [H2|[[a2 H2] H]]; rewrite H2; [eauto|].
  destruct H as [H3|[[a3 H3] H]]; rewrite H3; [eauto|].
  destruct H as [H4|(html & H4 & Hh & H5)]; rewrite H4; [eauto|].
  rewrite Hh, H5. eauto.
Qed.

Lemma per_tag_raises_after (w : session) (pre : list string) (tag : string)
      (post : list string) (e : exn) : forall i acc s,
  (forall j t, pre !! j = Some t -> tag_returns w (i + j) t) ->
  tag_raises w (i + List.length pre) tag e ->
  exists s', per_tag w i (pre ++ tag :: post) acc s = (Raised e, s').
Proof.
  induction pre as [|t0 pre IH]; intros i acc s Hpre Hraise.
  - cbn [List.length] in Hraise. rewrite Nat.add_0_r in Hraise.
    now apply per_tag_raises_here.
  - assert (Hrest : forall acc' s', exists s'',
              per_tag w (S i) (pre ++ tag :: post) acc' s' = (Raised e, s'')).
    { intros acc' s'. apply IH.
      - intros j t Hj. replace (S i + j)%nat with (i + S j)%nat by lia.
        apply Hpre. exact Hj.
      - replace (S i + List.length pre)%nat with (i + List.length (t0 :: pre))%nat
          by (cbn [List.length]; lia).
        exact Hraise. }
    destruct (Hpre 0%nat t0 eq_refl) as ([a1 H1] & [a2 H2] & [a3 H3] & [html H4] & [df H5]).
    rewrite Nat.add_0_r in H1, H2, H3, H4, H5.
    change ((t0 :: pre) ++ tag :: post) with (t0 :: (pre ++ tag :: post)).
    cbn [per_tag]. unfold mbind, call. rewrite H1, H2, H3, H4.
    destruct (truthy html); [|apply Hrest].
    rewrite H5. destruct df; apply Hrest.
Qed.

(** X26. One failing hashtag loses the whole run: when the browser has
    started, login and explore return, and a collaborator raises for some
    hashtag after those of all earlier hashtags returned, [run] raises
    that exception, having closed the driver and written no dataset,
    not even for the hashtags that were done. *)
Theorem failed_hashtag_writes_nothing (w : session) (u p : option string)
        (pre : list string) (tag : string) (post : list string) (path : string)
        (e : exn) :
  mkdir_res w = Returned tt ->
  driver_path_exists w = true ->
  chrome_res w = Returned tt ->
  set_window_size_res w = Returned tt ->
  login_res w = Returned tt ->
  (exists ok, click_explore_res w = Returned ok) ->
  (forall j t, pre !! j = Some t -> tag_returns w j t) ->
  tag_raises w (List.length pre) tag e ->
  exists evs,
    run w u p (pre ++ tag :: post) path initial
    = (Raised e, State true (evs ++ [EvClose; EvQuit]))
    /\ List.Forall (fun ev => ~ is_save ev) evs.
Proof.
  intros Hmk Hpath Hchrome Hsize Hlogin [ok Hex] Hpre Hraise.
  unfold run, start_driver. rewrite Hmk, Hpath, Hchrome, Hsize.
  cbv [mbind call set_driver initial driver trace]. cbn [app].
  set (s0 := State true [EvMkdir; EvChrome; EvSetWindowSize]).
  assert (Hp : exists evs,
             pipeline w u p (pre ++ tag :: post) path s0
             = (Raised e, State true (trace s0 ++ evs))
             /\ List.Forall (fun ev => ~ is_save ev) evs).
  { unfold pipeline.
    assert (Hl : exists lp,
              (if truthy u && truthy p then call EvLogin (login_res w) else ret tt) s0
              = (Returned tt, State true (trace s0 ++ lp))
              /\ List.Forall (fun ev => ~ is_save ev) lp).
    { destruct (truthy u && truthy p).
      - exists [EvLogin]. unfold call. rewrite Hlogin.
        split; [reflexivity|repeat constructor; intros []].
      - exists []. split; [reflexivity|constructor]. }
    destruct Hl as (lp & Hl & Hlp). unfold mbind at 1. rewrite Hl.
    unfold mbind at 1, call at 1. rewrite Hex. cbn [driver trace].
    unfold mbind at 1.
    destruct (per_tag_raises_after w pre tag post e 0%nat []
                (State true ((trace s0 ++ lp) ++ [EvExplore])) Hpre Hraise) as [s3 Hpt].
    rewrite Hpt.
    destruct (per_tag_emits w (pre ++ tag :: post) 0%nat [] _ _ _ Hpt)
      as (tagevs & Ht3 & Htag).
    assert (Hd : driver s3 = true)
      by exact (per_tag_keeps_driver w (pre ++ tag :: post) 0%nat [] _ _ _ Hpt).
    cbn [trace] in Ht3. exists (lp ++ EvExplore :: tagevs). split.
    - destruct s3 as [d3 t3]. cbn [driver trace] in Hd, Ht3. subst d3 t3.
      f_equal. f_equal. rewrite <- !app_assoc. reflexivity.
    - apply List.Forall_app. split; [exact Hlp|].
      constructor; [intros []|].
      eapply List.Forall_impl; [|exact Htag].
      intros ev Hev Hsv. destruct ev; contradiction. }
  destruct Hp as (evs & Hp & Hevs).
  unfold finally. rewrite Hp. rewrite close_returns. unfold closing. cbn [driver trace].
  exists ([EvMkdir; EvChrome; EvSetWindowSize] ++ evs). split.
  - unfold s0. cbn [trace]. now rewrite <- !app_assoc.
  - apply List.Forall_app. split; [repeat constructor; intros []|exact Hevs].
Qed.

Lemma failed_hashtag_writes_nothing_witness :
  exists evs,
    run capture_fails None None ["#nifty"; "#sensex"; "#bank"] "tweets.parquet" initial
    = (Raised WebDriverException, State true (evs ++ [EvClose; EvQuit]))
    /\ List.Forall (fun ev => ~ is_save ev) evs.
Proof.
  apply (failed_hashtag_writes_nothing capture_fails None None ["#nifty"] "#sensex"
           ["#bank"] "tweets.parquet" WebDriverException); try reflexivity.
  - exists true. reflexivity.
  - intros [|[|j]] t Hj; [|discriminate..].
    repeat split; eexists; reflexivity.
  - right. split; [eexists; reflexivity|]. right. split; [eexists; reflexivity|].
    right. split; [eexists; reflexivity|]. left. reflexivity.
Defined.

End FailureFacts.

(** ** A negative pause *)

Section NegativePauseFacts.
Import Collector CollectorSpec.

Variable source : nat -> list element.
Variable min_count : Z.
Variable pause : Q.


End NegativePauseFacts.

